(** * VetCare MCP server (src/server.js): resilience and dispatch layer

    A shallow embedding of the cache layer, the rate limiter, the CPF
    validator, the upstream client, the search and listing executors and the
    JSON-RPC dispatcher of [src/server.js], followed by the properties the
    specification states about them.

    Conventions of the embedding:
    - [Date.now()] readings are explicit integer arguments (milliseconds);
    - a JavaScript [Map] with string keys is a [gmap string _];
    - JavaScript values that are stored, returned or inspected by shape are
      terms of [jsval]; numbers are the integers the code manipulates;
    - a JavaScript string is a [string] whose characters stand for UTF-16
      code units below 256, so that [String.length] is [.length];
    - calls to [log] only write to the console and are left out. *)

From Stdlib Require Import ZArith Ascii String List Bool Lia.
From Stdlib Require Import DecimalString.
From stdpp Require Import base option gmap strings list fin_maps.
Import ListNotations.

#[local] Set Warnings "-register-all,-level-tolerance".

Local Open Scope string_scope.
Local Open Scope Z_scope.

(* ===================================================================== *)
(** ** JavaScript values *)
(* ===================================================================== *)

Inductive jsval : Type :=
| VUndefined
| VNull
| VBool (b : bool)
| VNum (n : Z)
| VStr (s : string)
| VArr (items : list jsval)
| VObj (fields : list (string * jsval)).

(** ToBoolean: [undefined], [null], [false], [0] and [''] are falsy. *)
Definition truthy (v : jsval) : bool :=
  match v with
  | VUndefined | VNull => false
  | VBool b => b
  | VNum n => negb (n =? 0)
  | VStr s => negb (String.eqb s "")
  | VArr _ | VObj _ => true
  end.

Fixpoint assoc_field (name : string) (fields : list (string * jsval)) : jsval :=
  match fields with
  | [] => VUndefined
  | (k, v) :: rest => if String.eqb k name then v else assoc_field name rest
  end.

(** [v.name] for a property the code reads after a truthiness guard: a
    missing property, or a property of a primitive, reads [undefined]. *)
Definition js_field (name : string) (v : jsval) : jsval :=
  match v with
  | VObj fields => assoc_field name fields
  | _ => VUndefined
  end.

Definition isArray (v : jsval) : bool :=
  match v with VArr _ => true | _ => false end.

(** [v.length]; [None] is the TypeError of reading a property of [null] or
    [undefined]. *)
Definition js_length (v : jsval) : option jsval :=
  match v with
  | VUndefined | VNull => None
  | VArr items => Some (VNum (Z.of_nat (List.length items)))
  | VStr s => Some (VNum (Z.of_nat (String.length s)))
  | VObj fields => Some (assoc_field "length" fields)
  | _ => Some VUndefined
  end.

(** [Object.keys(v).length] *)
Definition keys_length (v : jsval) : Z :=
  match v with
  | VObj fields => Z.of_nat (List.length fields)
  | VArr items => Z.of_nat (List.length items)
  | VStr s => Z.of_nat (String.length s)
  | _ => 0
  end.

(** [items.slice(0, n)] *)
Definition slice0 (n : nat) (items : list jsval) : list jsval := firstn n items.

(** Decimal rendering of an integer inside a template literal. *)
Definition show_Z (n : Z) : string := NilZero.string_of_int (Z.to_int n).

(* ===================================================================== *)
(** ** CONFIG *)
(* ===================================================================== *)

Module CONFIG.
Definition RETRY_ATTEMPTS : Z := 3.
Definition RETRY_DELAY : Z := 2000.
Definition API_TIMEOUT : Z := 30000.

Module CACHE_TTL.
Definition SHORT : Z := 60000.
Definition MEDIUM : Z := 300000.
Definition LONG : Z := 900000.
Definition PERMANENT : Z := 3600000.
Definition NEGATIVE : Z := 30000.
End CACHE_TTL.

Definition RATE_LIMIT_WINDOW : Z := 60000.
Definition RATE_LIMIT_MAX : Z := 100.

Module FEATURES.
Definition CACHE_ENABLED : bool := true.
Definition NEGATIVE_CACHE_ENABLED : bool := true.
Definition RATE_LIMIT_ENABLED : bool := true.
Definition METRICS_ENABLED : bool := true.
End FEATURES.
End CONFIG.

Module ErrorCodes.
Definition INVALID_REQUEST : Z := -32600.
Definition METHOD_NOT_FOUND : Z := -32601.
Definition INVALID_PARAMS : Z := -32602.
Definition INTERNAL_ERROR : Z := -32603.
Definition VALIDATION_ERROR : Z := -32604.
Definition RATE_LIMIT_ERROR : Z := -32605.
Definition API_ERROR : Z := -32606.
Definition TIMEOUT_ERROR : Z := -32607.
End ErrorCodes.

(* ===================================================================== *)
(** ** class SmartCache *)
(* ===================================================================== *)

Module SmartCache.

(** The object stored under a key.  A positive item has [hits] and no
    [error]; a negative item has [error] and no [hits]. *)
Record item : Type := Item {
  value : jsval;
  error : option string;
  expiry : Z;
  item_hits : option Z;
  created : Z;
  isNegative : bool
}.

Record t : Type := Make {
  cache : gmap string item;
  defaultTTL : Z;
  hits : Z;
  misses : Z;
  negativeHits : Z;
  enabled : bool;
  negativeEnabled : bool
}.

(** [new SmartCache(defaultTTL)] *)
Definition new (ttl : Z) : t :=
  {| cache := ∅; defaultTTL := ttl; hits := 0; misses := 0; negativeHits := 0;
     enabled := CONFIG.FEATURES.CACHE_ENABLED;
     negativeEnabled := CONFIG.FEATURES.NEGATIVE_CACHE_ENABLED |}.

Definition with_cache (m : gmap string item) (c : t) : t :=
  {| cache := m; defaultTTL := defaultTTL c; hits := hits c; misses := misses c;
     negativeHits := negativeHits c; enabled := enabled c;
     negativeEnabled := negativeEnabled c |}.

Definition count_hit (c : t) : t :=
  {| cache := cache c; defaultTTL := defaultTTL c; hits := hits c + 1;
     misses := misses c; negativeHits := negativeHits c; enabled := enabled c;
     negativeEnabled := negativeEnabled c |}.

Definition count_miss (c : t) : t :=
  {| cache := cache c; defaultTTL := defaultTTL c; hits := hits c;
     misses := misses c + 1; negativeHits := negativeHits c; enabled := enabled c;
     negativeEnabled := negativeEnabled c |}.

Definition count_negative (c : t) : t :=
  {| cache := cache c; defaultTTL := defaultTTL c; hits := hits c;
     misses := misses c; negativeHits := negativeHits c + 1; enabled := enabled c;
     negativeEnabled := negativeEnabled c |}.

(** [ttl || this.defaultTTL]: [None] is [null] or an omitted argument, and
    a ttl of [0] is falsy as well. *)
Definition ttl_or_default (ttl : option Z) (c : t) : Z :=
  match ttl with
  | Some n => if n =? 0 then defaultTTL c else n
  | None => defaultTTL c
  end.

(** [set(key, value, ttl = null)] at clock reading [now]. *)
Definition set (now : Z) (key : string) (v : jsval) (ttl : option Z) (c : t) : t :=
  if negb (enabled c) then c
  else
    let expiry := now + ttl_or_default ttl c in
    with_cache
      (<[key := {| value := v; error := None; expiry := expiry;
                   item_hits := Some 0; created := now; isNegative := false |}]>
         (cache c)) c.

(** [setNegative(key, error, ttl = CONFIG.CACHE_TTL.NEGATIVE)]: the default
    only replaces an omitted argument. *)
Definition setNegative (now : Z) (key : string) (err : string) (ttl : option Z)
    (c : t) : t :=
  if negb (enabled c) || negb (negativeEnabled c) then c
  else
    let ttl := match ttl with Some n => n | None => CONFIG.CACHE_TTL.NEGATIVE end in
    let expiry := now + ttl in
    with_cache
      (<[key := {| value := VNull; error := Some err; expiry := expiry;
                   item_hits := None; created := now; isNegative := true |}]>
         (cache c)) c.

(** The object literal [{ cached: true, error: item.error }]. *)
Definition negative_hit (err : option string) : jsval :=
  VObj [("cached", VBool true);
        ("error", match err with Some e => VStr e | None => VUndefined end)].

Definition bump (it : item) : item :=
  {| value := value it; error := error it; expiry := expiry it;
     item_hits := match item_hits it with Some h => Some (h + 1) | None => None end;
     created := created it; isNegative := isNegative it |}.

(** [get(key)] at clock reading [now]: the returned value and the cache
    after the lookup. *)
Definition get (now : Z) (key : string) (c : t) : jsval * t :=
  if negb (enabled c) then (VNull, c)
  else
    match cache c !! key with
    | None => (VNull, count_miss c)
    | Some it =>
        if expiry it <? now then
          (VNull, count_miss (with_cache (delete key (cache c)) c))
        else if isNegative it then
          (negative_hit (error it), count_negative c)
        else
          (value it, count_hit (with_cache (<[key := bump it]> (cache c)) c))
    end.

(** [delete(key)] *)
Definition delete (key : string) (c : t) : bool * t :=
  match cache c !! key with
  | Some _ => (true, with_cache (base.delete key (cache c)) c)
  | None => (false, c)
  end.

(** [deletePattern(pattern)], the pattern given by its [test]. *)
Definition deletePattern (test : string → bool) (c : t) : t :=
  with_cache (filter (λ kv, test kv.1 = false) (cache c)) c.

(** [cleanup()] at clock reading [now]. *)
Definition cleanup (now : Z) (c : t) : t :=
  with_cache (filter (λ kv, (expiry kv.2 <? now) = false) (cache c)) c.

(** [clear()] *)
Definition clear (c : t) : t :=
  {| cache := ∅; defaultTTL := defaultTTL c; hits := 0; misses := 0;
     negativeHits := 0; enabled := enabled c; negativeEnabled := negativeEnabled c |}.

End SmartCache.

(** The test every caller applies to a cache result before trusting it as a
    payload: [cached && cached.cached && cached.error]. *)
Definition isNegativeHit (cached : jsval) : bool :=
  truthy cached && truthy (js_field "cached" cached) && truthy (js_field "error" cached).

(* ===================================================================== *)
(** ** class RateLimiter *)
(* ===================================================================== *)

Module RateLimiter.

Record t : Type := Make {
  requests : gmap string (list Z);
  windowMs : Z;
  maxRequests : Z;
  enabled : bool
}.

Definition new (window max : Z) : t :=
  {| requests := ∅; windowMs := window; maxRequests := max;
     enabled := CONFIG.FEATURES.RATE_LIMIT_ENABLED |}.

Definition with_requests (m : gmap string (list Z)) (rl : t) : t :=
  {| requests := m; windowMs := windowMs rl; maxRequests := maxRequests rl;
     enabled := enabled rl |}.

(** [times.filter(time => now - time < this.windowMs)] *)
Definition recent (window now : Z) (times : list Z) : list Z :=
  List.filter (λ time, now - time <? window) times.

(** [this.requests.get(identifier) || []] *)
Definition userRequests (identifier : string) (rl : t) : list Z :=
  default [] (requests rl !! identifier).

(** [cleanup()] at clock reading [now]. *)
Definition cleanup (now : Z) (rl : t) : t :=
  with_requests
    (omap (λ times,
             match recent (windowMs rl) now times with
             | [] => None
             | r => Some r
             end) (requests rl)) rl.

(** One draw of [Math.random() < 0.1] together with the clock reading the
    sweep takes when the draw succeeds. *)
Record sweep : Type := Sweep { draw : bool; sweep_now : Z }.

(** [checkLimit(identifier)] at clock reading [now]. *)
Definition checkLimit (now : Z) (sw : sweep) (identifier : string) (rl : t)
    : bool * t :=
  if negb (enabled rl) then (true, rl)
  else
    let recentRequests := recent (windowMs rl) now (userRequests identifier rl) in
    if Z.of_nat (List.length recentRequests) >=? maxRequests rl then (false, rl)
    else
      let recentRequests := (recentRequests ++ [now])%list in
      let rl := with_requests (<[identifier := recentRequests]> (requests rl)) rl in
      let rl := if draw sw then cleanup (sweep_now sw) rl else rl in
      (true, rl).

(** [Math.ceil(ms / 1000)] on an integer number of milliseconds. *)
Definition ceil_seconds (ms : Z) : Z := - ((- ms) / 1000).

(** [getRemainingTime(identifier)] at clock reading [now]. *)
Definition getRemainingTime (now : Z) (identifier : string) (rl : t) : Z :=
  match userRequests identifier rl with
  | [] => 0
  | first :: rest =>
      let oldestRequest := fold_left Z.min rest first in
      let remainingMs := (oldestRequest + windowMs rl) - now in
      Z.max 0 (ceil_seconds remainingMs)
  end.

End RateLimiter.

(* ===================================================================== *)
(** ** String built-ins used by the validators and the executors *)
(* ===================================================================== *)

Definition code (c : ascii) : nat := nat_of_ascii c.

(** The class [\d] of a regular expression without the unicode flag. *)
Definition is_digit (c : ascii) : bool :=
  (48 <=? code c)%nat && (code c <=? 57)%nat.

(** White space and line terminators among the code units below 256. *)
Definition is_space (c : ascii) : bool :=
  ((9 <=? code c)%nat && (code c <=? 13)%nat) || (code c =? 32)%nat || (code c =? 160)%nat.

Fixpoint filter_chars (keep : ascii → bool) (s : string) : string :=
  match s with
  | EmptyString => EmptyString
  | String c rest =>
      if keep c then String c (filter_chars keep rest) else filter_chars keep rest
  end.

(** Every character of [s] satisfies [keep]. *)
Fixpoint all_chars (keep : ascii → bool) (s : string) : bool :=
  match s with
  | EmptyString => true
  | String c rest => keep c && all_chars keep rest
  end.

(** [value.replace(/\D/g, '')] *)
Definition strip_non_digits (s : string) : string := filter_chars is_digit s.

Fixpoint trimStart (s : string) : string :=
  match s with
  | String c rest => if is_space c then trimStart rest else s
  | EmptyString => EmptyString
  end.

Fixpoint trimEnd (s : string) : string :=
  match s with
  | EmptyString => EmptyString
  | String c rest =>
      match trimEnd rest with
      | EmptyString => if is_space c then EmptyString else String c EmptyString
      | rest' => String c rest'
      end
  end.

(** [s.trim()] *)
Definition trim (s : string) : string := trimEnd (trimStart s).

Definition lower_char (c : ascii) : ascii :=
  let n := code c in
  if ((65 <=? n) && (n <=? 90) || (192 <=? n) && (n <=? 222) && negb (n =? 215))%nat
  then ascii_of_nat (n + 32) else c.

Fixpoint toLowerCase (s : string) : string :=
  match s with
  | EmptyString => EmptyString
  | String c rest => String (lower_char c) (toLowerCase rest)
  end.

(** [haystack.includes(needle)] *)
Fixpoint includes (haystack needle : string) : bool :=
  String.prefix needle haystack ||
  match haystack with
  | EmptyString => false
  | String _ rest => includes rest needle
  end.

Definition hex_digit (n : nat) : ascii :=
  ascii_of_nat (if (n <? 10)%nat then 48 + n else 55 + n).

Definition percent (byte : nat) : string :=
  String "%" (String (hex_digit (byte / 16)) (String (hex_digit (byte mod 16)) EmptyString)).

(** The characters [encodeURIComponent] leaves alone: letters, digits and
    [- _ . ! ~ * ' ( )]. *)
Definition uri_unreserved (c : ascii) : bool :=
  let n := code c in
  ((65 <=? n) && (n <=? 90) || (97 <=? n) && (n <=? 122) || (48 <=? n) && (n <=? 57)
   || (n =? 45) || (n =? 95) || (n =? 46) || (n =? 33) || (n =? 126) || (n =? 42)
   || (n =? 39) || (n =? 40) || (n =? 41))%nat.

(** [encodeURIComponent(s)]: every other code unit is written as the
    percent-escaped bytes of its UTF-8 encoding. *)
Fixpoint encodeURIComponent (s : string) : string :=
  match s with
  | EmptyString => EmptyString
  | String c rest =>
      let n := code c in
      (if uri_unreserved c then String c EmptyString
       else if (n <? 128)%nat then percent n
       else percent (192 + n / 64) ++ percent (128 + n mod 64))
      ++ encodeURIComponent rest
  end.

(** [String(v)], the conversion a template literal applies. *)
Fixpoint js_toString (v : jsval) : string :=
  match v with
  | VUndefined => "undefined"
  | VNull => "null"
  | VBool true => "true"
  | VBool false => "false"
  | VNum n => show_Z n
  | VStr s => s
  | VArr items =>
      let element (x : jsval) :=
        match x with VUndefined | VNull => "" | _ => js_toString x end in
      String.concat "," (List.map element items)
  | VObj _ => "[object Object]"
  end.

(* ===================================================================== *)
(** ** Errors *)
(* ===================================================================== *)

(** What a [throw] carries: a plain [Error] (or a built-in error such as
    TypeError or AbortError) with its [name] and [message], or an
    [MCPError]. *)
Inductive exn : Type :=
| JsError (name message : string)
| MCPError (code : Z) (message : string) (data : jsval).

Definition exn_name (e : exn) : string :=
  match e with
  | JsError name _ => name
  | MCPError _ _ _ => "MCPError"
  end.

Definition exn_message (e : exn) : string :=
  match e with
  | JsError _ message => message
  | MCPError _ message _ => message
  end.

(** Completion of a computation: a value, or a thrown error. *)
Inductive result (A : Type) : Type :=
| Ok (a : A)
| Throw (e : exn).
Arguments Ok {A} a.
Arguments Throw {A} e.

(** A one-character string from its code unit, for the accented letters of
    the messages. *)
Definition chr (n : nat) : string := String (ascii_of_nat n) EmptyString.

(* ===================================================================== *)
(** ** Validators and the check digits of generateUniqueCPF *)
(* ===================================================================== *)

Module Validators.

(** [parseInt(cpf[i])]; the index is always inside the eleven digits where
    the code reads it. *)
Definition parseInt_at (cpf : string) (i : nat) : Z :=
  match String.get i cpf with
  | Some c => Z.of_nat (code c) - 48
  | None => 0
  end.

(** [for (let i = 0; i < n; i++) soma += parseInt(cpf[i]) * (peso - i)] *)
Definition soma_loop (cpf : string) (n : nat) (peso : Z) : Z :=
  fold_left (λ soma i, soma + parseInt_at cpf i * (peso - Z.of_nat i)) (seq 0 n) 0.

(** [11 - (soma % 11)], replaced by [0] when above [9]. *)
Definition digito (soma : Z) : Z :=
  let d := 11 - soma mod 11 in
  if d >? 9 then 0 else d.

(** [/^(\d)\1+$/.test(cpf)] *)
Definition repeated (cpf : string) : bool :=
  match cpf with
  | EmptyString => false
  | String c rest =>
      is_digit c && negb (String.eqb rest "")
      && forallb (Ascii.eqb c) (list_ascii_of_string rest)
  end.

(** [Validators.cpf(value)] on a string argument. *)
Definition cpf (value : string) : bool :=
  if String.eqb value "" then false
  else
    let cpf := strip_non_digits value in
    if negb (String.length cpf =? 11)%nat || repeated cpf then false
    else
      let digito1 := digito (soma_loop cpf 9 10) in
      if negb (parseInt_at cpf 9 =? digito1) then false
      else
        let digito2 := digito (soma_loop cpf 10 11) in
        if negb (parseInt_at cpf 10 =? digito2) then false
        else true.

(** [Validators.telefone(value)] on a string argument; [Ok None] is the
    [null] returned for an empty value. *)
Definition telefone (value : string) : result (option string) :=
  if String.eqb value "" then Ok None
  else
    let numeros := strip_non_digits value in
    let numeros :=
      if String.prefix "55" numeros && (11 <? String.length numeros)%nat
      then String.substring 2 (String.length numeros - 2) numeros
      else numeros in
    if (String.length numeros <? 10)%nat || (11 <? String.length numeros)%nat then
      Throw (JsError "Error"
               ("Telefone inv" ++ chr 225 ++ "lido. Deve ter 10 ou 11 d" ++ chr 237
                ++ "gitos (sem c" ++ chr 243 ++ "digo do pa" ++ chr 237 ++ "s)."))
    else Ok (Some numeros).

End Validators.

(** The two check digits [generateUniqueCPF] appends to a nine-digit base:
    the first from the base with weights 10..2, the second from the base
    with weights 11..3 plus twice the first. *)
Definition check_digits (base : string) : Z * Z :=
  let digito1 := Validators.digito (Validators.soma_loop base 9 10) in
  let digito2 := Validators.digito (Validators.soma_loop base 9 11 + digito1 * 2) in
  (digito1, digito2).

(** [s.slice(-n)] *)
Definition slice_last (n : nat) (s : string) : string :=
  String.substring (String.length s - n) n s.

(** [s.padStart(n, '0')] *)
Definition padStart0 (n : nat) (s : string) : string :=
  string_of_list_ascii (repeat "0"%char (n - String.length s)) ++ s.

(** [cpf.replace(/(\d{3})(\d{3})(\d{3})(\d{2})/, '$1.$2.$3-$4')]: the leftmost
    run of eleven digits is rewritten, the rest of the string is kept. *)
Fixpoint format_cpf (s : string) : string :=
  if all_chars is_digit (String.substring 0 11 s)
     && (String.length (String.substring 0 11 s) =? 11)%nat
  then
    String.substring 0 3 s ++ "." ++ String.substring 3 3 s ++ "."
    ++ String.substring 6 3 s ++ "-" ++ String.substring 9 2 s
    ++ String.substring 11 (String.length s - 11) s
  else
    match s with
    | EmptyString => EmptyString
    | String c rest => String c (format_cpf rest)
    end.

(** [generateUniqueCPF()] at the clock reading [now] (a non-negative number
    of milliseconds). *)
Definition generateUniqueCPF (now : N) : string :=
  let timestamp := show_Z (Z.of_N now) in
  let cpf := padStart0 9 (slice_last 9 timestamp) in
  let '(digito1, digito2) := check_digits cpf in
  let cpf := cpf ++ show_Z digito1 ++ show_Z digito2 in
  format_cpf cpf.

(** [formatPhone(phone)] on a string argument. *)
Definition formatPhone (phone : string) : string :=
  if String.eqb phone "" then ""
  else
    let numbers := strip_non_digits phone in
    if (String.length numbers =? 11)%nat then
      "(" ++ String.substring 0 2 numbers ++ ") " ++ String.substring 2 5 numbers
      ++ "-" ++ String.substring 7 (String.length numbers - 7) numbers
    else if (String.length numbers =? 10)%nat then
      "(" ++ String.substring 0 2 numbers ++ ") " ++ String.substring 2 4 numbers
      ++ "-" ++ String.substring 6 (String.length numbers - 6) numbers
    else phone.

(** The acceptance condition in the specification's words: eleven digits,
    not one digit repeated, and the last two equal to the check digits of
    the first nine. *)
Definition cpf_spec (value : string) : Prop :=
  let digits := strip_non_digits value in
  String.length digits = 11%nat
  ∧ Validators.repeated digits = false
  ∧ (Validators.parseInt_at digits 9, Validators.parseInt_at digits 10)
    = check_digits (String.substring 0 9 digits).

(* ===================================================================== *)
(** ** The process state and its environment *)
(* ===================================================================== *)

(** One call [fetch(url, options)]. *)
Record request : Type := Request {
  req_method : string;
  req_url : string;
  req_body : option string
}.

(** What the upstream service does with a request: it answers after
    [latency] milliseconds with a status and a body ([json] is the parsed
    body, absent when the body is not JSON), the transport fails after
    [latency] milliseconds, or nothing ever comes back. *)
Inductive outcome : Type :=
| Responded (latency status : Z) (text : string) (json : option jsval)
| Rejected (latency : Z) (name message : string)
| Hangs.

(** The observable actions of the upstream client. *)
Inductive event : Type :=
| Fetch (r : request)
| Sleep (ms : Z).

Record tool_stats : Type := ToolStats {
  calls : Z;
  success : Z;
  failed : Z;
  totalTime : Z
}.

Record Metrics : Type := MkMetrics {
  requests_total : Z;
  requests_successful : Z;
  requests_failed : Z;
  response_times : list Z;
  tools : gmap string tool_stats
}.

(** The cache instances the modelled functions touch. *)
Inductive instance : Type := Financeiro | Clientes | Pets | Servicos.

(** The state of the process together with its environment: the clock, the
    upstream service (a function of the number of requests sent so far and
    of the request), the trace of upstream actions, the cache instances, the
    rate limiter and the metrics.  Time passes only while the process waits
    for the upstream service or for a timer. *)
Record World : Type := MkWorld {
  clock : Z;
  upstream : nat → request → outcome;
  sent : nat;
  trace : list event;
  financeiro : SmartCache.t;
  clientes : SmartCache.t;
  pets : SmartCache.t;
  servicos : SmartCache.t;
  rateLimiter : RateLimiter.t;
  metrics : Metrics
}.

Definition get_cache (i : instance) (w : World) : SmartCache.t :=
  match i with
  | Financeiro => financeiro w
  | Clientes => clientes w
  | Pets => pets w
  | Servicos => servicos w
  end.

Definition put_cache (i : instance) (c : SmartCache.t) (w : World) : World :=
  {| clock := clock w; upstream := upstream w; sent := sent w; trace := trace w;
     financeiro := match i with Financeiro => c | _ => financeiro w end;
     clientes := match i with Clientes => c | _ => clientes w end;
     pets := match i with Pets => c | _ => pets w end;
     servicos := match i with Servicos => c | _ => servicos w end;
     rateLimiter := rateLimiter w; metrics := metrics w |}.

Definition put_rateLimiter (rl : RateLimiter.t) (w : World) : World :=
  {| clock := clock w; upstream := upstream w; sent := sent w; trace := trace w;
     financeiro := financeiro w; clientes := clientes w; pets := pets w;
     servicos := servicos w; rateLimiter := rl; metrics := metrics w |}.

Definition put_metrics (m : Metrics) (w : World) : World :=
  {| clock := clock w; upstream := upstream w; sent := sent w; trace := trace w;
     financeiro := financeiro w; clientes := clientes w; pets := pets w;
     servicos := servicos w; rateLimiter := rateLimiter w; metrics := m |}.

(** The environment lets [ms] milliseconds pass. *)
Definition advance (ms : Z) (w : World) : World :=
  {| clock := clock w + Z.max 0 ms; upstream := upstream w; sent := sent w;
     trace := trace w; financeiro := financeiro w; clientes := clientes w;
     pets := pets w; servicos := servicos w; rateLimiter := rateLimiter w;
     metrics := metrics w |}.

(** An upstream action is recorded; a request also counts as sent. *)
Definition record (e : event) (w : World) : World :=
  {| clock := clock w; upstream := upstream w;
     sent := match e with Fetch _ => S (sent w) | Sleep _ => sent w end;
     trace := (trace w ++ [e])%list; financeiro := financeiro w;
     clientes := clientes w; pets := pets w; servicos := servicos w;
     rateLimiter := rateLimiter w; metrics := metrics w |}.

(** Computations over the world that may throw. *)
Definition M (A : Type) : Type := World → result A * World.

#[global] Instance M_ret : MRet M := λ A a w, (Ok a, w).
#[global] Instance M_bind : MBind M := λ A B f m w,
  match m w with
  | (Ok a, w') => f a w'
  | (Throw e, w') => (Throw e, w')
  end.
#[global] Instance M_throw : MThrow exn M := λ A e w, (Throw e, w).

(** [try { body } catch (error) { handler }] *)
Definition try_catch {A : Type} (body : M A) (handler : exn → M A) : M A :=
  λ w, match body w with
       | (Ok a, w') => (Ok a, w')
       | (Throw e, w') => handler e w'
       end.

(** [Date.now()] *)
Definition now : M Z := λ w, (Ok (clock w), w).

(** [await new Promise(resolve => setTimeout(resolve, ms))] *)
Definition sleep (ms : Z) : M unit := λ w, (Ok (), advance ms (record (Sleep ms) w)).

Definition cache_get (i : instance) (key : string) : M jsval := λ w,
  let '(v, c) := SmartCache.get (clock w) key (get_cache i w) in
  (Ok v, put_cache i c w).

Definition cache_set (i : instance) (key : string) (v : jsval) (ttl : option Z)
    : M unit := λ w,
  (Ok (), put_cache i (SmartCache.set (clock w) key v ttl (get_cache i w)) w).

Definition cache_setNegative (i : instance) (key err : string) (ttl : option Z)
    : M unit := λ w,
  (Ok (), put_cache i (SmartCache.setNegative (clock w) key err ttl (get_cache i w)) w).

(* ===================================================================== *)
(** ** apiRequest *)
(* ===================================================================== *)

Definition VETCARE_API_URL : string := "https://vet.talkhub.me/api".

Record response : Type := Response {
  status : Z;
  text : string;
  json : option jsval
}.

(** [response.ok] *)
Definition ok (r : response) : bool := (200 <=? status r) && (status r <? 300).

Definition AbortError : exn := JsError "AbortError" "The user aborted a request.".

(** [await fetch(url, options)] under the abort timer of [CONFIG.API_TIMEOUT]
    that [apiRequest] arms before the call and clears after it. *)
Definition fetch (r : request) : M response := λ w,
  let w1 := record (Fetch r) w in
  match upstream w (sent w) r with
  | Responded latency status text json =>
      if latency <? CONFIG.API_TIMEOUT
      then (Ok {| status := status; text := text; json := json |}, advance latency w1)
      else (Throw AbortError, advance CONFIG.API_TIMEOUT w1)
  | Rejected latency name message =>
      if latency <? CONFIG.API_TIMEOUT
      then (Throw (JsError name message), advance latency w1)
      else (Throw AbortError, advance CONFIG.API_TIMEOUT w1)
  | Hangs => (Throw AbortError, advance CONFIG.API_TIMEOUT w1)
  end.

(** The value [apiRequest] returns: [{ success: true, data }] or
    [{ success: false, error: 'Max retries exceeded' }]. *)
Inductive ApiResult : Type :=
| ApiSuccess (data : jsval)
| ApiMaxRetries.

(** How one pass through the body of the retry loop ends. *)
Inductive completion : Type :=
| Return (r : ApiResult)
| Continue.

Section ApiRequest.

(** [data] is the request payload given by its [JSON.stringify] text;
    [None] is [null]. *)
Variables (endpoint method : string) (data : option string) (retries : Z).

Definition api_url : string := VETCARE_API_URL ++ endpoint.

Definition api_cacheKey : string :=
  "api_" ++ method ++ "_" ++ endpoint ++ "_" ++ default "" data.

Definition api_options : request :=
  {| req_method := method; req_url := api_url;
     req_body :=
       match data with
       | Some d =>
           if String.eqb method "POST" || String.eqb method "PUT"
              || String.eqb method "PATCH"
           then Some d else None
       | None => None
       end |}.

Definition api_error_message (r : response) : string :=
  "API Error " ++ show_Z (status r) ++ ": " ++ text r.

(** [await new Promise(resolve => setTimeout(resolve, CONFIG.RETRY_DELAY * attempt)); continue] *)
Definition api_backoff (attempt : Z) : M completion :=
  sleep (CONFIG.RETRY_DELAY * attempt);; mret Continue.

(** The [try] block of one attempt. *)
Definition api_try (attempt : Z) : M completion :=
  response ← fetch api_options;
  if negb (ok response) then
    if (400 <=? status response) && (status response <? 500) then
      let errorMessage := api_error_message response in
      cache_setNegative Financeiro api_cacheKey errorMessage None;;
      mthrow (JsError "Error" errorMessage)
    else if attempt <? retries then api_backoff attempt
    else mthrow (JsError "Error" (api_error_message response))
  else
    match json response with
    | Some result => mret (Return (ApiSuccess result))
    | None =>
        (* response.json() rejects; the parser's reason is left out of the text *)
        mthrow (JsError "FetchError" ("invalid json response body at " ++ api_url))
    end.

(** The [catch (error)] block of one attempt. *)
Definition api_catch (attempt : Z) (error : exn) : M completion :=
  if String.eqb (exn_name error) "AbortError" then
    if attempt <? retries then api_backoff attempt
    else
      let errorMessage := "API timeout" in
      cache_setNegative Financeiro api_cacheKey errorMessage None;;
      mthrow (MCPError ErrorCodes.TIMEOUT_ERROR errorMessage VNull)
  else
    if attempt <? retries then api_backoff attempt
    else
      cache_setNegative Financeiro api_cacheKey (exn_message error) None;;
      mthrow (MCPError ErrorCodes.API_ERROR (exn_message error) VNull).

(** [for (let attempt = 1; attempt <= retries; attempt++) { try ... catch ... }]
    followed by the final [return].  [fuel] counts the passes left; the call
    starts it at [retries], so the loop condition is what ends the loop. *)
Fixpoint api_loop (fuel : nat) (attempt : Z) : M ApiResult :=
  match fuel with
  | O => mret ApiMaxRetries
  | S fuel' =>
      if retries <? attempt then mret ApiMaxRetries
      else
        c ← try_catch (api_try attempt) (api_catch attempt);
        match c with
        | Return r => mret r
        | Continue => api_loop fuel' (attempt + 1)
        end
  end.

(** [apiRequest(endpoint, method, data, retries)] *)
Definition apiRequest : M ApiResult :=
  cached ← cache_get Financeiro api_cacheKey;
  if isNegativeHit cached then
    mthrow (MCPError ErrorCodes.API_ERROR (js_toString (js_field "error" cached)) VNull)
  else api_loop (Z.to_nat retries) 1.

End ApiRequest.

(* ===================================================================== *)
(** ** Tool executors *)
(* ===================================================================== *)

Definition TypeError (message : string) : exn := JsError "TypeError" message.

(** [v.length] as a statement of the program. *)
Definition read_length (v : jsval) : M jsval :=
  match js_length v with
  | Some n => mret n
  | None =>
      mthrow (TypeError ("Cannot read properties of " ++ js_toString v
                         ++ " (reading 'length')"))
  end.

(** [cached.cached && cached.error] on a truthy [cached]. *)
Definition cached_error (cached : jsval) : bool :=
  truthy (js_field "cached" cached) && truthy (js_field "error" cached).

(** *** listarPetsCliente *)

Definition pets_failure (error : jsval) : jsval :=
  VObj [("success", VBool false); ("pets", VArr []); ("error", error)].

Definition listarPetsCliente (args : jsval) : M jsval :=
  let cliente_id := js_field "cliente_id" args in
  try_catch
    (let cacheKey := "pets_cliente_" ++ js_toString cliente_id in
     cached ← cache_get Pets cacheKey;
     if truthy cached then
       if cached_error cached then mret (pets_failure (js_field "error" cached))
       else mret cached
     else
       result ← apiRequest ("/clientes/" ++ js_toString cliente_id ++ "/pets")
                  "GET" None CONFIG.RETRY_ATTEMPTS;
       match result with
       | ApiMaxRetries =>
           cache_setNegative Pets cacheKey "Max retries exceeded" None;;
           mret (pets_failure (VStr "Max retries exceeded"))
       | ApiSuccess data =>
           total ← read_length data;
           let response :=
             VObj [("success", VBool true); ("pets", data); ("total", total)] in
           cache_set Pets cacheKey response (Some CONFIG.CACHE_TTL.MEDIUM);;
           mret response
       end)
    (λ error, mret (pets_failure (VStr (exn_message error)))).

(** *** buscarClientes *)

Definition clientes_failure (error : jsval) : jsval :=
  VObj [("success", VBool false); ("clientes", VArr []); ("error", error)].

Definition clientes_termo_obrigatorio : string :=
  "Termo de busca obrigat" ++ chr 243 ++ "rio (m" ++ chr 237
  ++ "nimo 3 caracteres). Informe nome, telefone, CPF ou email do cliente.".

(** [Array.isArray(result.data) ? result.data : []] *)
Definition array_or_empty (data : jsval) : list jsval :=
  match data with VArr items => items | _ => [] end.

Definition buscarClientes (args : jsval) : M jsval :=
  let termo_busca := js_field "termo_busca" args in
  try_catch
    (if negb (truthy termo_busca) then
       mret (clientes_failure (VStr clientes_termo_obrigatorio))
     else
       match termo_busca with
       | VStr termo =>
           if (String.length (trim termo) <? 3)%nat then
             mret (clientes_failure (VStr clientes_termo_obrigatorio))
           else
             let termoLimpo := trim termo in
             let endpoint := "/clientes?busca=" ++ encodeURIComponent termoLimpo in
             let cacheKey := "clientes_busca_" ++ toLowerCase termoLimpo in
             cached ← cache_get Clientes cacheKey;
             if truthy cached then
               if cached_error cached then
                 mret (clientes_failure (js_field "error" cached))
               else mret cached
             else
               result ← apiRequest endpoint "GET" None CONFIG.RETRY_ATTEMPTS;
               match result with
               | ApiMaxRetries =>
                   cache_setNegative Clientes cacheKey "Max retries exceeded" None;;
                   mret (clientes_failure (VStr "Max retries exceeded"))
               | ApiSuccess data =>
                   let clientes := array_or_empty data in
                   let clientesLimitados := slice0 50 clientes in
                   let response :=
                     VObj [("success", VBool true);
                           ("clientes", VArr clientesLimitados);
                           ("total", VNum (Z.of_nat (List.length clientesLimitados)));
                           ("total_encontrado", VNum (Z.of_nat (List.length clientes)));
                           ("limitado", VBool (50 <? Z.of_nat (List.length clientes)))] in
                   cache_set Clientes cacheKey response (Some CONFIG.CACHE_TTL.MEDIUM);;
                   mret response
               end
       | _ => mthrow (TypeError "termo_busca.trim is not a function")
       end)
    (λ error, mret (clientes_failure (VStr (exn_message error)))).

(** *** buscarServicos *)

Definition servicos_failure (error : jsval) : jsval :=
  VObj [("success", VBool false); ("servicos", VArr []); ("error", error)].

Definition servicos_termo_obrigatorio : string :=
  "Termo de busca obrigat" ++ chr 243 ++ "rio (m" ++ chr 237
  ++ "nimo 2 caracteres). Ex: consulta, banho, vacina, etc.".

Definition buscarServicos (args : jsval) : M jsval :=
  let termo_busca := js_field "termo_busca" args in
  try_catch
    (if negb (truthy termo_busca) then
       mret (servicos_failure (VStr servicos_termo_obrigatorio))
     else
       match termo_busca with
       | VStr termo =>
           if (String.length (trim termo) <? 2)%nat then
             mret (servicos_failure (VStr servicos_termo_obrigatorio))
           else
             let endpoint := "/servicos?busca=" ++ encodeURIComponent (trim termo) in
             let cacheKey := "servicos_busca_" ++ toLowerCase (trim termo) in
             cached ← cache_get Servicos cacheKey;
             if truthy cached then
               if cached_error cached then
                 mret (servicos_failure (js_field "error" cached))
               else mret cached
             else
               result ← apiRequest endpoint "GET" None CONFIG.RETRY_ATTEMPTS;
               match result with
               | ApiMaxRetries =>
                   cache_setNegative Servicos cacheKey "Max retries exceeded" None;;
                   mret (servicos_failure (VStr "Max retries exceeded"))
               | ApiSuccess data =>
                   let servicos := array_or_empty data in
                   let response :=
                     VObj [("success", VBool true);
                           ("servicos", VArr servicos);
                           ("total", VNum (Z.of_nat (List.length servicos)))] in
                   cache_set Servicos cacheKey response (Some CONFIG.CACHE_TTL.LONG);;
                   mret response
               end
       | _ => mthrow (TypeError "termo_busca.trim is not a function")
       end)
    (λ error, mret (servicos_failure (VStr (exn_message error)))).

(** *** buscaGlobal *)

(** One element of the array [Promise.allSettled] resolves to. *)
Inductive settled : Type :=
| Fulfilled (value : ApiResult)
| RejectedWith (reason : exn).

Definition settle (call : M ApiResult) : M settled :=
  try_catch (r ← call; mret (Fulfilled r)) (λ e, mret (RejectedWith e)).

(** [await Promise.allSettled(calls)].  The calls of [buscaGlobal] use
    distinct cache keys; the model settles them one after the other, in the
    order of the array, which is the order in which their first requests
    are issued. *)
Fixpoint allSettled (calls : list (M ApiResult)) : M (list settled) :=
  match calls with
  | [] => mret []
  | call :: rest =>
      s ← settle call;
      ss ← allSettled rest;
      mret (s :: ss)
  end.

(** [res.status === 'fulfilled' && res.value.success], giving [res.value.data]. *)
Definition fulfilled_data (res : option settled) : option jsval :=
  match res with
  | Some (Fulfilled (ApiSuccess data)) => Some data
  | _ => None
  end.

(** [x.name && x.name.toLowerCase().includes(termoLimpo)], as a condition. *)
Definition field_includes (var name : string) (x : jsval) (termoLimpo : string)
    : result bool :=
  match x with
  | VUndefined | VNull =>
      Throw (TypeError ("Cannot read properties of " ++ js_toString x
                        ++ " (reading '" ++ name ++ "')"))
  | _ =>
      let f := js_field name x in
      if truthy f then
        match f with
        | VStr s => Ok (includes (toLowerCase s) termoLimpo)
        | _ => Throw (TypeError (var ++ "." ++ name ++ ".toLowerCase is not a function"))
        end
      else Ok false
  end.

(** [items.filter(x => (x.first && ...) || (x.second && ...))] *)
Fixpoint filter_by_fields (var first second termoLimpo : string) (items : list jsval)
    : result (list jsval) :=
  match items with
  | [] => Ok []
  | x :: rest =>
      match field_includes var first x termoLimpo with
      | Throw e => Throw e
      | Ok a =>
          match (if a then Ok true else field_includes var second x termoLimpo) with
          | Throw e => Throw e
          | Ok keep =>
              match filter_by_fields var first second termoLimpo rest with
              | Throw e => Throw e
              | Ok kept => Ok (if keep then x :: kept else kept)
              end
          end
      end
  end.

Definition lift {A : Type} (r : result A) : M A := λ w, (r, w).

(** [petsRes.value.data?.data || petsRes.value.data || []] *)
Definition pets_data (data : jsval) : jsval :=
  let inner := js_field "data" data in
  if truthy inner then inner
  else if truthy data then data
  else VArr [].

Definition count (items : list jsval) : jsval := VNum (Z.of_nat (List.length items)).

Definition buscaGlobal (args : jsval) : M jsval :=
  let termo := js_field "termo" args in
  try_catch
    (match termo with
     | VStr t =>
         let termoLimpo := trim (toLowerCase t) in
         settledAll ← allSettled
           [apiRequest ("/clientes?busca=" ++ encodeURIComponent t)
              "GET" None CONFIG.RETRY_ATTEMPTS;
            apiRequest "/pets?page=1" "GET" None CONFIG.RETRY_ATTEMPTS;
            apiRequest ("/produtos?busca=" ++ encodeURIComponent t)
              "GET" None CONFIG.RETRY_ATTEMPTS;
            apiRequest "/servicos" "GET" None CONFIG.RETRY_ATTEMPTS];
         let clientesRes := settledAll !! 0%nat in
         let petsRes := settledAll !! 1%nat in
         let produtosRes := settledAll !! 2%nat in
         let servicosRes := settledAll !! 3%nat in
         let clientes :=
           match fulfilled_data clientesRes with
           | Some data => slice0 10 (array_or_empty data)
           | None => []
           end in
         pets ←
           match fulfilled_data petsRes with
           | Some data =>
               kept ← lift (filter_by_fields "p" "nome" "especie" termoLimpo
                              (array_or_empty (pets_data data)));
               mret (slice0 10 kept)
           | None => mret []
           end;
         let produtos :=
           match fulfilled_data produtosRes with
           | Some data => slice0 10 (array_or_empty data)
           | None => []
           end in
         servicos ←
           match fulfilled_data servicosRes with
           | Some data =>
               kept ← lift (filter_by_fields "s" "nome" "tipo" termoLimpo
                              (array_or_empty data));
               mret (slice0 10 kept)
           | None => mret []
           end;
         mret (VObj [("success", VBool true);
                     ("resultados",
                      VObj [("clientes", VArr clientes); ("pets", VArr pets);
                            ("produtos", VArr produtos); ("servicos", VArr servicos)]);
                     ("total",
                      VObj [("clientes", count clientes); ("pets", count pets);
                            ("produtos", count produtos); ("servicos", count servicos)]);
                     ("termo_busca", termo)])
     | VUndefined | VNull =>
         mthrow (TypeError ("Cannot read properties of " ++ js_toString termo
                            ++ " (reading 'toLowerCase')"))
     | _ => mthrow (TypeError "termo.toLowerCase is not a function")
     end)
    (λ error,
       mret (VObj [("success", VBool false); ("resultados", VObj []);
                   ("error", VStr (exn_message error))])).

(** *** handleValidationErrors and the table of executors *)

Definition handleValidationErrors (fn : jsval → M jsval) (params : jsval) : M jsval :=
  try_catch (fn params)
    (λ error,
       if includes (exn_message error) ("inv" ++ chr 225 ++ "lid")
          || includes (exn_message error) ("obrigat" ++ chr 243 ++ "ri")
       then
         mret (VObj [("success", VBool false); ("error", VStr (exn_message error));
                     ("validation_error", VBool true)])
       else mthrow error).

(** The entries of [toolFunctions] for the executors modelled here. *)
Definition toolFunctions (name : string) : option (jsval → M jsval) :=
  if String.eqb name "buscar_clientes" then Some (handleValidationErrors buscarClientes)
  else if String.eqb name "listar_pets_cliente"
       then Some (handleValidationErrors listarPetsCliente)
  else if String.eqb name "buscar_servicos"
       then Some (handleValidationErrors buscarServicos)
  else if String.eqb name "busca_global" then Some (handleValidationErrors buscaGlobal)
  else None.

(* ===================================================================== *)
(** ** Metrics *)
(* ===================================================================== *)

Definition bump_tool (ok : bool) (duration : Z) (s : tool_stats) : tool_stats :=
  {| calls := calls s + 1;
     success := if ok then success s + 1 else success s;
     failed := if ok then failed s else failed s + 1;
     totalTime := totalTime s + duration |}.

(** [updateMetrics(toolName, success, duration)] *)
Definition updateMetrics (toolName : string) (success : jsval) (duration : Z) : M unit :=
  λ w,
    if negb CONFIG.FEATURES.METRICS_ENABLED then (Ok (), w)
    else
      let m := metrics w in
      let ok := truthy success in
      let times := (response_times m ++ [duration])%list in
      let times := if (100 <? List.length times)%nat then tl times else times in
      (Ok (),
       put_metrics
         {| requests_total := requests_total m + 1;
            requests_successful :=
              if ok then requests_successful m + 1 else requests_successful m;
            requests_failed := if ok then requests_failed m else requests_failed m + 1;
            response_times := times;
            tools := alter (bump_tool ok duration) toolName (tools m) |} w).

(* ===================================================================== *)
(** ** The dispatcher: app.post('/') *)
(* ===================================================================== *)

(** What the handler reads of an inbound HTTP request: the [x-client-id]
    header when present, the peer address, and the parsed body ([undefined]
    when there is none). *)
Record HttpRequest : Type := MkHttpRequest {
  x_client_id : option string;
  ip : string;
  body : jsval
}.

(** The [result] member of a response.  [ToolText r] stands for
    [{ content: [{ type: "text", text: JSON.stringify(r, null, 2) }] }]. *)
Inductive rpc_result : Type :=
| ServerInfo
| Empty
| ToolList (tools : jsval)
| ToolText (result : jsval).

(** The JSON-RPC envelope written by [res.json]. *)
Inductive reply : Type :=
| ReplyResult (id : jsval) (r : rpc_result)
| ReplyError (id : jsval) (code : Z) (message : string) (data : option jsval).

(** [formatMCPResponse(requestId, null, error)] *)
Definition formatMCPError (requestId : jsval) (code : Z) (message : string)
    (data : jsval) : reply :=
  ReplyError requestId
    (if code =? 0 then ErrorCodes.INTERNAL_ERROR else code)
    (if String.eqb message "" then "Internal error" else message)
    (if truthy data then Some data else None).

(** [req.headers['x-client-id'] || req.ip] *)
Definition clientId (req : HttpRequest) : string :=
  match x_client_id req with
  | Some h => if String.eqb h "" then ip req else h
  | None => ip req
  end.

Definition rate_check (identifier : string) (draw : bool) : M bool := λ w,
  let '(admitted, rl) :=
    RateLimiter.checkLimit (clock w)
      {| RateLimiter.draw := draw; RateLimiter.sweep_now := clock w |}
      identifier (rateLimiter w) in
  (Ok admitted, put_rateLimiter rl w).

Definition rate_remaining (identifier : string) : M Z := λ w,
  (Ok (RateLimiter.getRemainingTime (clock w) identifier (rateLimiter w)), w).

Definition is_str (s : string) (v : jsval) : bool :=
  match v with VStr s' => String.eqb s' s | _ => false end.

Section Dispatcher.

(** The registry returned by [tools/list] and the table of executors. *)
Variable toolDefinitions : jsval.
Variable toolTable : string → option (jsval → M jsval).

(** The [tools/call] case of the [switch]. *)
Definition tools_call (requestId params : jsval) (startTime : Z) : M reply :=
  match params with
  | VNull => mthrow (TypeError "Cannot read properties of null (reading 'name')")
  | _ =>
      let toolName := js_field "name" params in
      match (if truthy toolName then toolTable (js_toString toolName) else None) with
      | None =>
          mthrow (MCPError ErrorCodes.METHOD_NOT_FOUND
                    ("Tool not found: " ++ js_toString toolName) VNull)
      | Some tool =>
          try_catch
            (toolStartTime ← now;
             let arguments := js_field "arguments" params in
             let toolArgs := if truthy arguments then arguments else VObj [] in
             result ← tool toolArgs;
             finish ← now;
             let duration := finish - toolStartTime in
             match result with
             | VUndefined | VNull =>
                 mthrow (TypeError ("Cannot read properties of "
                                    ++ js_toString result ++ " (reading 'success')"))
             | _ =>
                 updateMetrics (js_toString toolName) (js_field "success" result)
                   duration;;
                 mret (ReplyResult requestId (ToolText result))
             end)
            (λ toolError,
               finish ← now;
               updateMetrics (js_toString toolName) (VBool false) (finish - startTime);;
               match toolError with
               | MCPError _ _ _ => mthrow toolError
               | JsError _ message =>
                   mthrow (MCPError ErrorCodes.INTERNAL_ERROR
                             ("Tool execution failed: " ++ message)
                             (VObj [("tool", toolName)]))
               end)
      end
  end.

(** [app.post('/', async (req, res) => ...)]; [draw] is the outcome of the
    limiter's [Math.random() < 0.1]. *)
Definition post_root (req : HttpRequest) (draw : bool) : M reply :=
  startTime ← now;
  let envelope := if truthy (body req) then body req else VObj [] in
  let jsonrpc := js_field "jsonrpc" envelope in
  let id := js_field "id" envelope in
  let method := js_field "method" envelope in
  let params :=
    match js_field "params" envelope with
    | VUndefined => VObj []
    | p => p
    end in
  let requestId := id in
  try_catch
    (admitted ← rate_check (clientId req) draw;
     (if negb admitted then
        remainingTime ← rate_remaining (clientId req);
        mthrow (MCPError ErrorCodes.RATE_LIMIT_ERROR
                  ("Rate limit exceeded. Please wait " ++ show_Z remainingTime
                   ++ " seconds before making more requests.") VNull)
      else mret ());;
     (if negb (truthy (body req)) || (keys_length (body req) =? 0) then
        mthrow (MCPError ErrorCodes.INVALID_REQUEST
                  "Invalid Request - Empty body" VNull)
      else mret ());;
     (if negb (is_str "2.0" jsonrpc) then
        mthrow (MCPError ErrorCodes.INVALID_REQUEST
                  "Invalid Request - JSON-RPC 2.0 required" VNull)
      else mret ());;
     if is_str "initialize" method then mret (ReplyResult requestId ServerInfo)
     else if is_str "notifications/initialized" method then
       mret (ReplyResult requestId Empty)
     else if is_str "tools/list" method then
       mret (ReplyResult requestId (ToolList toolDefinitions))
     else if is_str "tools/call" method then tools_call requestId params startTime
     else
       mthrow (MCPError ErrorCodes.METHOD_NOT_FOUND
                 ("Method not found: " ++ js_toString method) VNull))
    (λ err,
       match err with
       | MCPError code message data =>
           mret (formatMCPError requestId code message data)
       | JsError _ message =>
           mret (formatMCPError requestId ErrorCodes.INTERNAL_ERROR
                   "Internal server error"
                   (VObj [("originalError", VStr message)]))
       end).

End Dispatcher.

(* ===================================================================== *)
(** ** Histories of the rate limiter *)
(* ===================================================================== *)

(** One call of [checkLimit]: the clock reading it starts with, the
    identifier, and the draw and clock reading of its sweep. *)
Record call : Type := Call {
  at_time : Z;
  who : string;
  sweeping : RateLimiter.sweep
}.

(** The clock never runs backwards along a history that starts at [t]. *)
Fixpoint chronological (t : Z) (calls : list call) : Prop :=
  match calls with
  | [] => True
  | c :: rest =>
      t ≤ at_time c
      ∧ at_time c ≤ RateLimiter.sweep_now (sweeping c)
      ∧ chronological (RateLimiter.sweep_now (sweeping c)) rest
  end.

(** The timestamps [checkLimit] admits for [identifier] along a history, in
    the order of the calls. *)
Fixpoint admitted (identifier : string) (calls : list call) (rl : RateLimiter.t)
    : list Z :=
  match calls with
  | [] => []
  | c :: rest =>
      let '(ok, rl') := RateLimiter.checkLimit (at_time c) (sweeping c) (who c) rl in
      (if ok && String.eqb (who c) identifier then [at_time c] else [])
        ++ admitted identifier rest rl'
  end%list.

(** How many of [times] fall in the closed interval from [lo] to [hi]. *)
Definition count_in (lo hi : Z) (times : list Z) : Z :=
  Z.of_nat (List.length (List.filter (λ t, (lo <=? t) && (t <=? hi)) times)).

(* ===================================================================== *)
(** ** Worlds, upstream behaviours, traces and inputs of the statements *)
(* ===================================================================== *)

(** A limiter whose window for ["a"] is full at the ceiling of three. *)
Definition full_window : RateLimiter.t :=
  RateLimiter.Make {["a" := [0; 1; 2]]} 60000 3 true.

(** Four calls of one identifier within a few milliseconds. *)
Definition burst : list call :=
  [Call 0 "a" (RateLimiter.Sweep false 0); Call 1 "a" (RateLimiter.Sweep true 1);
   Call 2 "a" (RateLimiter.Sweep false 2); Call 3 "a" (RateLimiter.Sweep false 3)].

Definition zero_stats : tool_stats :=
  {| calls := 0; success := 0; failed := 0; totalTime := 0 |}.

(** The process right after start-up, in front of the upstream service
    [up]: empty caches with their TTL tiers, an empty limiter, and one zeroed
    metrics entry per tool name. *)
Definition boot (up : nat → request → outcome) (names : list string) : World :=
  {| clock := 0; upstream := up; sent := 0; trace := [];
     financeiro := SmartCache.new CONFIG.CACHE_TTL.SHORT;
     clientes := SmartCache.new CONFIG.CACHE_TTL.MEDIUM;
     pets := SmartCache.new CONFIG.CACHE_TTL.MEDIUM;
     servicos := SmartCache.new CONFIG.CACHE_TTL.LONG;
     rateLimiter := RateLimiter.new CONFIG.RATE_LIMIT_WINDOW CONFIG.RATE_LIMIT_MAX;
     metrics :=
       {| requests_total := 0; requests_successful := 0; requests_failed := 0;
          response_times := [];
          tools := list_to_map (List.map (λ n, (n, zero_stats)) names) |} |}.

(** An upstream service that treats every request alike. *)
Definition always (o : outcome) : nat → request → outcome := λ _ _, o.

(** An upstream service that follows a script, request after request, and
    stays silent once the script is over. *)
Definition scripted (script : list outcome) : nat → request → outcome :=
  λ n _, nth n script Hangs.

Definition is_fetch (e : event) : bool :=
  match e with Fetch _ => true | Sleep _ => false end.

(** The number of HTTP attempts in a trace. *)
Definition attempts (tr : list event) : nat := List.length (List.filter is_fetch tr).

(** [n] failed attempts starting at attempt number [attempt], each followed
    by its delay of [RETRY_DELAY * attempt]. *)
Fixpoint backoffs (r : request) (attempt : Z) (n : nat) : list event :=
  match n with
  | O => []
  | S n' => Fetch r :: Sleep (CONFIG.RETRY_DELAY * attempt) :: backoffs r (attempt + 1) n'
  end.

(** The trace of a call that makes [n] attempts, numbered from [1]. *)
Definition retry_trace (r : request) (n : nat) : list event :=
  match n with
  | O => []
  | S failures => (backoffs r 1 failures ++ [Fetch r])%list
  end.

(** The upstream answers with a 5xx status in time, or nothing arrives
    before the abort timer fires. *)
Definition server_error_or_timeout (o : outcome) : bool :=
  match o with
  | Responded latency status _ _ =>
      (CONFIG.API_TIMEOUT <=? latency) || ((500 <=? status) && (status <? 600))
  | Rejected latency _ _ => CONFIG.API_TIMEOUT <=? latency
  | Hangs => true
  end.

(** The upstream answers with a 4xx status in time. *)
Definition client_error (o : outcome) : bool :=
  match o with
  | Responded latency status _ _ =>
      (latency <? CONFIG.API_TIMEOUT) && (400 <=? status) && (status <? 500)
  | _ => false
  end.

(** The envelope is one the dispatcher calls an invalid request: no body, a
    body without keys, or a [jsonrpc] member other than ["2.0"]. *)
Definition malformed (req : HttpRequest) : bool :=
  negb (truthy (body req)) || (keys_length (body req) =? 0)
  || negb (is_str "2.0" (js_field "jsonrpc" (body req))).

(** An upstream service that answers 500 twice and then 200 with an empty
    list. *)
Definition flaky : nat → request → outcome :=
  scripted [Responded 120 500 "Internal Server Error" None;
            Responded 80 500 "Internal Server Error" None;
            Responded 95 200 "[]" (Some (VArr []))].

(** An upstream service that answers every request with 404. *)
Definition not_found : nat → request → outcome :=
  always (Responded 40 404 "Not Found" None).

(** The cache key and the endpoint [listarPetsCliente] derives from its
    arguments. *)
Definition pets_cacheKey (args : jsval) : string :=
  "pets_cliente_" ++ js_toString (js_field "cliente_id" args).

Definition pets_endpoint (args : jsval) : string :=
  "/clientes/" ++ js_toString (js_field "cliente_id" args) ++ "/pets".

(** The response [listarPetsCliente] builds from a payload. *)
Definition pets_response (data total : jsval) : jsval :=
  VObj [("success", VBool true); ("pets", data); ("total", total)].

(** The limiter's verdict on a request, and the limiter after it. *)
Definition admission (req : HttpRequest) (draw : bool) (w : World)
    : bool * RateLimiter.t :=
  RateLimiter.checkLimit (clock w)
    {| RateLimiter.draw := draw; RateLimiter.sweep_now := clock w |}
    (clientId req) (rateLimiter w).

(** An upstream service that answers every request with an empty list. *)
Definition healthy : nat → request → outcome :=
  always (Responded 35 200 "[]" (Some (VArr []))).

Definition list_request : HttpRequest :=
  {| x_client_id := Some "agent-1"; ip := "10.0.0.7";
     body := VObj [("jsonrpc", VStr "2.0"); ("id", VNum 1);
                   ("method", VStr "tools/list")] |}.

Definition pets_of_12 : jsval := VObj [("cliente_id", VNum 12)].

(** The identifier read off the envelope before anything is checked. *)
Definition envelope_id (req : HttpRequest) : jsval :=
  js_field "id" (if truthy (body req) then body req else VObj []).

(** A request without a body, from the peer ["a"]. *)
Definition empty_request : HttpRequest :=
  {| x_client_id := None; ip := "a"; body := VObj [] |}.

(** The process ten milliseconds after start-up, the window of ["a"] full. *)
Definition throttled : World :=
  put_rateLimiter full_window (advance 10 (boot healthy [])).

(** The value a computation returned, [undefined] when it threw. *)
Definition returned (r : result jsval) : jsval :=
  match r with
  | Ok v => v
  | Throw _ => VUndefined
  end.

(** An upstream service that answers every request with a list of sixty
    entries. *)
Definition crowded : nat → request → outcome :=
  always (Responded 35 200 ("[" ++ String.concat "," (repeat "0" 60) ++ "]")
            (Some (VArr (repeat (VNum 0) 60)))).

(** The search term is missing, empty, or shorter than [min] once trimmed. *)
Definition short_term (min : nat) (termo : jsval) : bool :=
  negb (truthy termo)
  || match termo with
     | VStr t => (String.length (trim t) <? min)%nat
     | _ => false
     end.

(** The cache key and the endpoint [buscarClientes] derives from a term. *)
Definition clientes_cacheKey (termo : string) : string :=
  "clientes_busca_" ++ toLowerCase (trim termo).

Definition clientes_endpoint (termo : string) : string :=
  "/clientes?busca=" ++ encodeURIComponent (trim termo).

(** The limiter at the end of a history. *)
Fixpoint limiter_after (calls : list call) (rl : RateLimiter.t) : RateLimiter.t :=
  match calls with
  | [] => rl
  | c :: rest =>
      limiter_after rest
        (RateLimiter.checkLimit (at_time c) (sweeping c) (who c) rl).2
  end.

(** The number of lookups a cache has counted. *)
Definition lookups (c : SmartCache.t) : Z :=
  SmartCache.hits c + SmartCache.misses c + SmartCache.negativeHits c.

(** An entry has one polarity: a negative entry carries an error and a
    [null] value, a positive entry carries no error and a hit count that is
    not negative. *)
Definition item_polarity (it : SmartCache.item) : Prop :=
  if SmartCache.isNegative it
  then is_Some (SmartCache.error it) ∧ SmartCache.value it = VNull
       ∧ SmartCache.item_hits it = None
  else SmartCache.error it = None
       ∧ ∃ h, SmartCache.item_hits it = Some h ∧ 0 ≤ h.

Definition polarized (c : SmartCache.t) : Prop :=
  ∀ key it, SmartCache.cache c !! key = Some it → item_polarity it.

(* ===================================================================== *)
(** ** buscarClientePorTelefone *)
(* ===================================================================== *)







Definition telefone_cacheKey (telefoneLimpo : string) : string :=
  "cliente_tel_" ++ telefoneLimpo.



(* ===================================================================== *)
(** ** buscarPetPorId *)
(* ===================================================================== *)

Definition pet_failure (error : jsval) : jsval :=
  VObj [("success", VBool false); ("found", VBool false); ("error", error)].

Definition pet_cacheKey (args : jsval) : string :=
  "pet_" ++ js_toString (js_field "pet_id" args).

Definition pet_endpoint (args : jsval) : string :=
  "/pets/" ++ js_toString (js_field "pet_id" args).

Definition pet_response (data : jsval) : jsval :=
  VObj [("success", VBool true); ("found", VBool true); ("pet", data)].

Definition buscarPetPorId (args : jsval) : M jsval :=
  try_catch
    (let cacheKey := pet_cacheKey args in
     cached ← cache_get Pets cacheKey;
     if truthy cached then
       if cached_error cached then mret (pet_failure (js_field "error" cached))
       else mret cached
     else
       result ← apiRequest (pet_endpoint args) "GET" None CONFIG.RETRY_ATTEMPTS;
       match result with
       | ApiMaxRetries =>
           cache_setNegative Pets cacheKey "Max retries exceeded" None;;
           mret (pet_failure (VStr "Max retries exceeded"))
       | ApiSuccess data =>
           let response := pet_response data in
           cache_set Pets cacheKey response (Some CONFIG.CACHE_TTL.MEDIUM);;
           mret response
       end)
    (λ error, mret (pet_failure (VStr (exn_message error)))).

(** [cacheInstances.clientes.deletePattern(/pattern/)] for a pattern of
    literal characters, whose [test] is a substring search: the invalidation
    [criarCliente] performs with [/cliente_tel_/] after a successful creation
    and [atualizarCliente] performs with [/cliente_/] after a successful
    update. *)
Definition invalidate_clientes (pattern : string) : M unit := λ w,
  (Ok (),
   put_cache Clientes
     (SmartCache.deletePattern (λ key, includes key pattern) (clientes w)) w).

(** What a computation that only talks to the upstream service for request
    [r] may change: it sends [n] requests, all of them [r], lets time pass
    and writes to the [financeiro] instance; the other cache instances, the
    rate limiter, the metrics and the upstream service stay as they are. *)
Definition footprint (r : request) (n : nat) (w w' : World) : Prop :=
  upstream w' = upstream w ∧ clientes w' = clientes w ∧ pets w' = pets w
  ∧ servicos w' = servicos w ∧ rateLimiter w' = rateLimiter w
  ∧ metrics w' = metrics w ∧ clock w ≤ clock w'
  ∧ SmartCache.enabled (financeiro w') = SmartCache.enabled (financeiro w)
  ∧ SmartCache.negativeEnabled (financeiro w')
    = SmartCache.negativeEnabled (financeiro w)
  ∧ sent w' = (sent w + n)%nat
  ∧ ∃ evs, trace w' = (trace w ++ evs)%list ∧ attempts evs = n
           ∧ ∀ r', In (Fetch r') evs → r' = r.

(** What one tool invocation may do to the process: send at most [n]
    upstream requests and let time pass; it leaves the upstream service, the
    rate limiter and the metrics alone. *)
Definition within_budget (n : nat) (w w' : World) : Prop :=
  upstream w' = upstream w ∧ rateLimiter w' = rateLimiter w
  ∧ metrics w' = metrics w ∧ clock w ≤ clock w'
  ∧ (sent w ≤ sent w')%nat ∧ (sent w' ≤ sent w + n)%nat.

(** The upstream requests one invocation of a tool can cost: four calls of
    [apiRequest] for the global search, one for the other tools, each with
    [CONFIG.RETRY_ATTEMPTS] attempts at most. *)
Definition tool_budget (name : string) : nat :=
  if String.eqb name "busca_global" then (4 * Z.to_nat CONFIG.RETRY_ATTEMPTS)%nat
  else Z.to_nat CONFIG.RETRY_ATTEMPTS.

(** The [id] member of an envelope. *)
Definition reply_id (r : reply) : jsval :=
  match r with
  | ReplyResult id _ => id
  | ReplyError id _ _ _ => id
  end.

(** The counters of the metrics agree with one another: every counted call
    is either successful or failed, globally and per tool, and the window of
    response times holds a hundred durations at most. *)
Definition metrics_consistent (m : Metrics) : Prop :=
  requests_total m = requests_successful m + requests_failed m
  ∧ (List.length (response_times m) ≤ 100)%nat
  ∧ ∀ name s, tools m !! name = Some s → calls s = success s + failed s.

(** The [params] member the handler destructures, with its default. *)
Definition envelope_params (req : HttpRequest) : jsval :=
  match js_field "params" (if truthy (body req) then body req else VObj []) with
  | VUndefined => VObj []
  | p => p
  end.

(** The request reaches an executor of [toolTable]: the limiter admits it,
    the envelope is well formed, the method is [tools/call] and the named
    tool exists. *)
Definition executes (toolTable : string → option (jsval → M jsval))
    (req : HttpRequest) (draw : bool) (w : World) : bool :=
  (admission req draw w).1 && negb (malformed req)
  && is_str "tools/call" (js_field "method" (body req))
  && match envelope_params req with
     | VNull => false
     | params =>
         truthy (js_field "name" params)
         && bool_decide (is_Some (toolTable (js_toString (js_field "name" params))))
     end.

(** A well-formed [tools/call] request for the global search. *)
Definition search_request : HttpRequest :=
  {| x_client_id := Some "agent-1"; ip := "10.0.0.7";
     body := VObj [("jsonrpc", VStr "2.0"); ("id", VNum 2);
                   ("method", VStr "tools/call");
                   ("params",
                    VObj [("name", VStr "busca_global");
                          ("arguments", VObj [("termo", VStr "rex")])])] |}.

(** An upstream service whose client list holds one client, and a lookup
    of her number as a caller would type it. *)
Definition phonebook : nat → request → outcome :=
  let q s := chr 34 ++ s ++ chr 34 in
  always (Responded 30 200
            ("[{" ++ q "id" ++ ":7," ++ q "nome" ++ ":" ++ q "Ana" ++ ","
             ++ q "telefone" ++ ":" ++ q "(11) 98888-7777" ++ "}]")
            (Some (VArr [VObj [("id", VNum 7); ("nome", VStr "Ana");
                               ("telefone", VStr "(11) 98888-7777")]]))).


(* ===================================================================== *)
(** * Properties *)
(* ===================================================================== *)

(** ** Rate limiter *)

Section RateLimiterFacts.

Import RateLimiter.

Lemma recent_app window n (l1 l2 : list Z) :
  recent window n (l1 ++ l2) = (recent window n l1 ++ recent window n l2)%list.
Proof. unfold recent. apply List.filter_app. Qed.

(** Pruning at a later reading subsumes pruning at an earlier one. *)
Lemma recent_recent window m n (l : list Z) :
  m ≤ n → recent window n (recent window m l) = recent window n l.
Proof.
  intros Hmn. unfold recent. induction l as [|t l IH]; simpl; [done|].
  destruct (m - t <? window) eqn:Hm; simpl.
  - destruct (n - t <? window); [by rewrite IH | done].
  - assert (n - t <? window = false) as -> by lia. done.
Qed.

Lemma userRequests_insert id id' times rl :
  userRequests id' (with_requests (<[id := times]> (requests rl)) rl)
  = if String.eqb id id' then times else userRequests id' rl.
Proof.
  unfold userRequests, with_requests; simpl.
  destruct (String.eqb_spec id id') as [->|Hne].
  - by rewrite lookup_insert_eq.
  - by rewrite lookup_insert_ne.
Qed.

(** The sweep prunes every stored list and nothing else. *)
Lemma userRequests_cleanup id n rl :
  userRequests id (cleanup n rl) = recent (windowMs rl) n (userRequests id rl).
Proof.
  unfold userRequests, cleanup, with_requests; simpl.
  rewrite lookup_omap. destruct (requests rl !! id) as [times|]; simpl; [|done].
  by destruct (recent (windowMs rl) n times).
Qed.

Lemma checkLimit_config now sw id rl :
  windowMs (checkLimit now sw id rl).2 = windowMs rl
  ∧ maxRequests (checkLimit now sw id rl).2 = maxRequests rl
  ∧ enabled (checkLimit now sw id rl).2 = enabled rl.
Proof.
  unfold checkLimit. destruct (enabled rl) eqn:Hen; simpl; [|done].
  destruct (_ >=? _); simpl; [done|].
  destruct (draw sw); done.
Qed.

(** What a call leaves stored for [id'], seen through any later pruning. *)
Lemma checkLimit_stored now sw id id' rl n :
  enabled rl = true →
  now ≤ sweep_now sw → sweep_now sw ≤ n →
  recent (windowMs rl) n (userRequests id' (checkLimit now sw id rl).2)
  = recent (windowMs rl) n
      (userRequests id' rl
       ++ (if (checkLimit now sw id rl).1 && String.eqb id id' then [now] else [])).
Proof.
  intros Hen H1 H2. unfold checkLimit. rewrite Hen; simpl.
  destruct (_ >=? _) eqn:Hfull; simpl.
  { by rewrite app_nil_r. }
  set (rl1 := with_requests _ rl).
  assert (recent (windowMs rl) n (userRequests id' rl1)
          = recent (windowMs rl) n
              (userRequests id' rl ++ (if String.eqb id id' then [now] else [])))
    as Hrl1.
  { unfold rl1. rewrite userRequests_insert.
    destruct (String.eqb_spec id id') as [->|Hne].
    - rewrite !recent_app. rewrite recent_recent by lia. done.
    - by rewrite app_nil_r. }
  destruct (draw sw).
  - rewrite userRequests_cleanup. unfold rl1 at 1; simpl.
    rewrite recent_recent by lia. exact Hrl1.
  - exact Hrl1.
Qed.

Lemma count_in_app lo hi (l1 l2 : list Z) :
  count_in lo hi (l1 ++ l2) = count_in lo hi l1 + count_in lo hi l2.
Proof. unfold count_in. rewrite List.filter_app, length_app. lia. Qed.

(** The timestamps of a short interval that ends no earlier than [now] all
    survive the pruning at [now]. *)
Lemma count_in_recent window now lo hi (l : list Z) :
  hi - lo < window → lo ≤ now ≤ hi →
  count_in lo hi l ≤ Z.of_nat (List.length (recent window now l)).
Proof.
  intros Hw Hnow. unfold count_in, recent.
  induction l as [|t l IH]; simpl; [lia|].
  destruct ((lo <=? t) && (t <=? hi)) eqn:Hin; simpl.
  - assert (now - t <? window = true) as -> by lia. simpl. lia.
  - destruct (now - t <? window); simpl; lia.
Qed.

(** The window bound is kept along every chronological history, whatever
    has been admitted before it. *)
Lemma admitted_window id calls : ∀ rl prev t,
  enabled rl = true →
  chronological t calls →
  (∀ n, t ≤ n →
     recent (windowMs rl) n (userRequests id rl) = recent (windowMs rl) n prev) →
  (∀ lo hi, hi - lo < windowMs rl → count_in lo hi prev ≤ maxRequests rl) →
  ∀ lo hi, hi - lo < windowMs rl →
    count_in lo hi (prev ++ admitted id calls rl) ≤ maxRequests rl.
Proof.
  induction calls as [|c rest IH]; intros rl prev t Hen Hchr Hsync Hprev lo hi Hw.
  { simpl. rewrite app_nil_r. by apply Hprev. }
  destruct Hchr as (Ht & Hsw & Hrest). simpl.
  destruct (checkLimit_config (at_time c) (sweeping c) (who c) rl) as (HW & HM & HE).
  pose proof (λ n, checkLimit_stored (at_time c) (sweeping c) (who c) id rl n Hen Hsw)
    as Hstored.
  destruct (checkLimit (at_time c) (sweeping c) (who c) rl) as [ok rl'] eqn:Hstep.
  simpl in HW, HM, HE, Hstored.
  rewrite app_assoc.
  rewrite <- HW in Hw. rewrite <- HM.
  apply (IH rl' _ (sweep_now (sweeping c))); try done.
  - by rewrite HE.
  - intros n Hn. rewrite HW. rewrite (Hstored n Hn).
    rewrite !recent_app. f_equal. apply Hsync. lia.
  - rewrite HW, HM. intros lo' hi' Hw'.
    rewrite count_in_app.
    destruct (ok && String.eqb (who c) id) eqn:Hadm; simpl;
      [| unfold count_in at 2; simpl; specialize (Hprev lo' hi' Hw'); lia].
    apply andb_prop in Hadm as [-> Heq]. apply String.eqb_eq in Heq.
    (* the call was admitted: fewer than the ceiling were recent *)
    assert (Z.of_nat (List.length (recent (windowMs rl) (at_time c) prev))
            < maxRequests rl) as Hroom.
    { rewrite <- (Hsync (at_time c) Ht).
      revert Hstep. unfold checkLimit. rewrite Hen, Heq; simpl.
      destruct (_ >=? _) eqn:Hfull; [intros [=]|intros _]. lia. }
    unfold count_in at 2; simpl.
    destruct ((lo' <=? at_time c) && (at_time c <=? hi')) eqn:Hin; simpl.
    + pose proof (count_in_recent (windowMs rl) (at_time c) lo' hi' prev Hw') as Hc.
      lia.
    + specialize (Hprev lo' hi' Hw'). lia.
Qed.

End RateLimiterFacts.

(** Rejection happens before anything is written. *)
Lemma checkLimit_rejected_frame (now : Z) (sw : RateLimiter.sweep)
    (identifier : string) (rl : RateLimiter.t) :
  (RateLimiter.checkLimit now sw identifier rl).1 = false →
  (RateLimiter.checkLimit now sw identifier rl).2 = rl.
Proof.
  unfold RateLimiter.checkLimit.
  destruct (negb (RateLimiter.enabled rl)); simpl; [done|].
  destruct (_ >=? _); simpl; [done|].
  intros [=].
Qed.

(** C10. A rejected call leaves the limiter exactly as it was: nothing is
    recorded for the identifier and no stored list is touched. *)
Theorem checkLimit_rejected_unchanged (now : Z) (sw : RateLimiter.sweep)
    (identifier : string) (rl : RateLimiter.t) :
  (RateLimiter.checkLimit now sw identifier rl).1 = false →
  (RateLimiter.checkLimit now sw identifier rl).2 = rl
  ∧ RateLimiter.userRequests identifier
      (RateLimiter.checkLimit now sw identifier rl).2
    = RateLimiter.userRequests identifier rl.
Proof.
  intros Hrej. by rewrite (checkLimit_rejected_frame now sw identifier rl Hrej).
Qed.

(** C4. The verdict of [checkLimit] depends on the stored timestamps only
    through those that survive the pruning at the current clock reading, so
    expired timestamps never count; and from a fresh limiter, along any history
    whose clock never runs backwards, no interval shorter than the window (so
    no half-open interval of the window's length) holds more than
    [maxRequests] of the timestamps admitted for an identifier. *)
Theorem admitted_respects_window (window max : Z) (identifier : string) :
  0 ≤ max →
  (∀ (rl : RateLimiter.t) (now : Z) (sw : RateLimiter.sweep),
     RateLimiter.enabled rl = true →
     (RateLimiter.checkLimit now sw identifier rl).1
     = (Z.of_nat
          (List.length
             (RateLimiter.recent (RateLimiter.windowMs rl) now
                (RateLimiter.userRequests identifier rl)))
        <? RateLimiter.maxRequests rl))
  ∧ (∀ (calls : list call) (t0 lo hi : Z),
       chronological t0 calls →
       hi - lo < window →
       count_in lo hi (admitted identifier calls (RateLimiter.new window max)) ≤ max).
Proof.
  intros Hmax. split.
  - intros rl now sw Hen. unfold RateLimiter.checkLimit. rewrite Hen. simpl.
    destruct (_ >=? _) eqn:Hfull; simpl; lia.
  - intros calls t0 lo hi Hchr Hw.
    by apply (admitted_window identifier calls (RateLimiter.new window max) [] t0).
Qed.

(** C10 at the fourth call of a caller whose window holds three timestamps. *)
Lemma checkLimit_rejected_unchanged_witness :
  (RateLimiter.checkLimit 10 (RateLimiter.Sweep false 10) "a" full_window).1 = false
  ∧ (RateLimiter.checkLimit 10 (RateLimiter.Sweep false 10) "a" full_window).2
    = full_window
  ∧ RateLimiter.userRequests "a"
      (RateLimiter.checkLimit 10 (RateLimiter.Sweep false 10) "a" full_window).2
    = RateLimiter.userRequests "a" full_window.
Proof.
  split; [reflexivity|].
  apply (checkLimit_rejected_unchanged 10 (RateLimiter.Sweep false 10) "a" full_window).
  reflexivity.
Defined.

(** Ceiling 3 per 60 seconds: three calls of the burst are admitted and the
    fourth is rejected, with a positive remaining wait. *)
Example burst_admits_three :
  admitted "a" burst (RateLimiter.new 60000 3) = [0; 1; 2]
  ∧ RateLimiter.getRemainingTime 3 "a" full_window = 60.
Proof. split; reflexivity. Qed.

(** C4 at the burst, and at a call that arrives after the window has emptied. *)
Lemma admitted_respects_window_witness :
  (RateLimiter.checkLimit 60001 (RateLimiter.Sweep false 60001) "a" full_window).1
  = (Z.of_nat
       (List.length
          (RateLimiter.recent (RateLimiter.windowMs full_window) 60001
             (RateLimiter.userRequests "a" full_window)))
     <? RateLimiter.maxRequests full_window)
  ∧ count_in 0 59999 (admitted "a" burst (RateLimiter.new 60000 3)) ≤ 3.
Proof.
  assert (0 ≤ 3) as Hmax by lia.
  split.
  - apply (proj1 (admitted_respects_window 60000 3 "a" Hmax) full_window 60001
             (RateLimiter.Sweep false 60001)).
    reflexivity.
  - apply (proj2 (admitted_respects_window 60000 3 "a" Hmax) burst 0 0 59999).
    + simpl. lia.
    + lia.
Defined.

(** ** Cache layer *)

Section SmartCacheFacts.

Import SmartCache.

Lemma get_set_live c key v ttl now later :
  enabled c = true →
  later ≤ now + ttl_or_default ttl c →
  (get later key (set now key v ttl c)).1 = v
  ∧ is_Some (cache (get later key (set now key v ttl c)).2 !! key).
Proof.
  intros Hen Hlive. unfold get, set. rewrite Hen; simpl. rewrite Hen; simpl.
  rewrite lookup_insert_eq; simpl.
  assert (now + ttl_or_default ttl c <? later = false) as -> by lia.
  simpl. rewrite lookup_insert_eq. eauto.
Qed.

Lemma get_set_expired c key v ttl now later :
  enabled c = true →
  now + ttl_or_default ttl c < later →
  (get later key (set now key v ttl c)).1 = VNull
  ∧ cache (get later key (set now key v ttl c)).2 !! key = None.
Proof.
  intros Hen Hdead. unfold get, set. rewrite Hen; simpl. rewrite Hen; simpl.
  rewrite lookup_insert_eq; simpl.
  assert (now + ttl_or_default ttl c <? later = true) as -> by lia.
  simpl. by rewrite lookup_delete_eq.
Qed.

Lemma get_setNegative_live c key e ttl now later :
  enabled c = true → negativeEnabled c = true →
  later ≤ now + default CONFIG.CACHE_TTL.NEGATIVE ttl →
  (get later key (setNegative now key e ttl c)).1 = negative_hit (Some e).
Proof.
  intros Hen Hneg Hlive. unfold get, setNegative. rewrite Hen, Hneg; simpl.
  rewrite Hen; simpl. rewrite lookup_insert_eq; simpl.
  destruct ttl as [n|]; simpl in *.
  - by assert (now + n <? later = false) as -> by lia.
  - by assert (now + CONFIG.CACHE_TTL.NEGATIVE <? later = false) as -> by lia.
Qed.

End SmartCacheFacts.

(** C5 fails for a ttl of [0]: the entry is stored with the default TTL, so one
    millisecond after [set("k", 7, 0)] the lookup still returns [7] and the
    entry is still in the store. *)
Lemma set_ttl_zero_outlives_ttl :
  (SmartCache.get 1 "k"
     (SmartCache.set 0 "k" (VNum 7) (Some 0) (SmartCache.new 300000))).1 = VNum 7
  ∧ is_Some
      (SmartCache.cache
         (SmartCache.get 1 "k"
            (SmartCache.set 0 "k" (VNum 7) (Some 0) (SmartCache.new 300000))).2
       !! "k").
Proof. apply get_set_live; [reflexivity | vm_compute; discriminate]. Qed.

(** C5, amended. With the cache enabled and a ttl other than [0], [get] after
    [set(key, v, ttl)] returns [v] up to the expiry instant [now + ttl]; once
    more than [ttl] has passed it returns [null] and the lookup removes the
    entry from the store. *)
Theorem set_then_get (c : SmartCache.t) (key : string) (v : jsval)
    (ttl now later : Z) :
  SmartCache.enabled c = true →
  ttl ≠ 0 →
  (later ≤ now + ttl →
     (SmartCache.get later key (SmartCache.set now key v (Some ttl) c)).1 = v
     ∧ is_Some (SmartCache.cache
                  (SmartCache.get later key
                     (SmartCache.set now key v (Some ttl) c)).2 !! key))
  ∧ (now + ttl < later →
     (SmartCache.get later key (SmartCache.set now key v (Some ttl) c)).1 = VNull
     ∧ SmartCache.cache
         (SmartCache.get later key (SmartCache.set now key v (Some ttl) c)).2 !! key
       = None).
Proof.
  intros Hen Httl.
  assert (SmartCache.ttl_or_default (Some ttl) c = ttl) as Hd.
  { unfold SmartCache.ttl_or_default. by destruct (Z.eqb_spec ttl 0). }
  split; intros H.
  - apply get_set_live; [done | by rewrite Hd].
  - apply get_set_expired; [done | by rewrite Hd].
Qed.

(** C5, amended, for a [null] payload stored at 100 for 60 ms and read at 150. *)
Lemma set_then_get_witness :
  ((150 ≤ 100 + 60 →
     (SmartCache.get 150 "k"
        (SmartCache.set 100 "k" VNull (Some 60) (SmartCache.new 300000))).1 = VNull
     ∧ is_Some (SmartCache.cache
                  (SmartCache.get 150 "k"
                     (SmartCache.set 100 "k" VNull (Some 60)
                        (SmartCache.new 300000))).2 !! "k"))
  ∧ (100 + 60 < 150 →
     (SmartCache.get 150 "k"
        (SmartCache.set 100 "k" VNull (Some 60) (SmartCache.new 300000))).1 = VNull
     ∧ SmartCache.cache
         (SmartCache.get 150 "k"
            (SmartCache.set 100 "k" VNull (Some 60) (SmartCache.new 300000))).2 !! "k"
       = None)).
Proof.
  apply (set_then_get (SmartCache.new 300000) "k" VNull 60 100 150).
  - reflexivity.
  - lia.
Defined.

(** C6 fails for a payload that has the wrapper's own shape: cached
    positively, [{cached: true, error: "e"}] comes back from [get] exactly as
    the negative hit for the error ["e"] does. *)
Lemma positive_payload_shaped_as_negative_hit :
  (SmartCache.get 1 "k"
     (SmartCache.set 0 "k" (VObj [("cached", VBool true); ("error", VStr "e")]) None
        (SmartCache.new 300000))).1
  = (SmartCache.get 1 "k"
       (SmartCache.setNegative 0 "k" "e" None (SmartCache.new 300000))).1.
Proof. reflexivity. Qed.

(** C6, amended. With the cache and negative caching enabled, [get] within
    the ttl of [setNegative(key, e, ttl)] returns [{cached: true, error: e}],
    which the callers' test recognises whenever [e] is not empty.  A payload
    without a truthy [cached] property, cached positively, comes back
    unchanged, is never that wrapper and never passes the callers' test; the
    falsy payloads ([null], [false], [0], ...) are such payloads. *)
Theorem setNegative_then_get (c : SmartCache.t) (key e : string) (ttl : option Z)
    (now later : Z) :
  SmartCache.enabled c = true →
  SmartCache.negativeEnabled c = true →
  later ≤ now + default CONFIG.CACHE_TTL.NEGATIVE ttl →
  (SmartCache.get later key (SmartCache.setNegative now key e ttl c)).1
  = VObj [("cached", VBool true); ("error", VStr e)]
  ∧ (e ≠ "" → isNegativeHit (VObj [("cached", VBool true); ("error", VStr e)]) = true)
  ∧ (∀ (v : jsval) (key' : string) (ttl' : option Z) (t0 t1 : Z),
       truthy (js_field "cached" v) = false →
       t1 ≤ t0 + SmartCache.ttl_or_default ttl' c →
       (SmartCache.get t1 key' (SmartCache.set t0 key' v ttl' c)).1 = v
       ∧ v ≠ VObj [("cached", VBool true); ("error", VStr e)]
       ∧ isNegativeHit v = false)
  ∧ (∀ v : jsval, truthy v = false → truthy (js_field "cached" v) = false).
Proof.
  intros Hen Hneg Hlive. repeat split.
  - by apply get_setNegative_live.
  - intros He. unfold isNegativeHit; simpl.
    destruct (String.eqb_spec e ""); [done|reflexivity].
  - by apply get_set_live.
  - intros ->. simpl in *. discriminate.
  - unfold isNegativeHit. rewrite H. by rewrite andb_false_r.
  - intros v Hv. by destruct v.
Qed.

(** C6, amended, for a timeout stored with the default negative TTL and read
    twenty seconds later. *)
Lemma setNegative_then_get_witness :
  (SmartCache.get 20000 "k"
     (SmartCache.setNegative 0 "k" "API timeout" None (SmartCache.new 60000))).1
  = VObj [("cached", VBool true); ("error", VStr "API timeout")]
  ∧ ("API timeout" ≠ "" →
     isNegativeHit (VObj [("cached", VBool true); ("error", VStr "API timeout")]) = true)
  ∧ (∀ (v : jsval) (key' : string) (ttl' : option Z) (t0 t1 : Z),
       truthy (js_field "cached" v) = false →
       t1 ≤ t0 + SmartCache.ttl_or_default ttl' (SmartCache.new 60000) →
       (SmartCache.get t1 key'
          (SmartCache.set t0 key' v ttl' (SmartCache.new 60000))).1 = v
       ∧ v ≠ VObj [("cached", VBool true); ("error", VStr "API timeout")]
       ∧ isNegativeHit v = false)
  ∧ (∀ v : jsval, truthy v = false → truthy (js_field "cached" v) = false).
Proof.
  apply (setNegative_then_get (SmartCache.new 60000) "k" "API timeout" None 0 20000).
  - reflexivity.
  - reflexivity.
  - simpl. unfold CONFIG.CACHE_TTL.NEGATIVE. lia.
Defined.

(** ** CPF validator *)

Section CpfFacts.

Import Validators.

Lemma parseInt_at_base (digits : string) (i : nat) :
  (i < 9)%nat → parseInt_at (String.substring 0 9 digits) i = parseInt_at digits i.
Proof.
  intros Hi. unfold parseInt_at.
  rewrite substring_correct1 by done. by rewrite Nat.add_0_r.
Qed.

(** The sums over the nine-digit base read the same digits as the sums
    over the whole number. *)
Lemma soma_loop_base (digits : string) (peso : Z) :
  soma_loop (String.substring 0 9 digits) 9 peso = soma_loop digits 9 peso.
Proof.
  unfold soma_loop. cbn [seq fold_left].
  rewrite !parseInt_at_base by lia. done.
Qed.

(** The second loop of [cpf] runs over ten digits: the base and the first
    check digit with weight 2. *)
Lemma soma_loop_ten (digits : string) :
  soma_loop digits 10 11 = soma_loop digits 9 11 + parseInt_at digits 9 * 2.
Proof. unfold soma_loop. cbn [seq fold_left]. simpl Z.of_nat. lia. Qed.

Lemma cpf_unfold (value : string) :
  cpf value =
    negb (String.eqb value "")
    && (String.length (strip_non_digits value) =? 11)%nat
    && negb (repeated (strip_non_digits value))
    && (parseInt_at (strip_non_digits value) 9
        =? digito (soma_loop (strip_non_digits value) 9 10))
    && (parseInt_at (strip_non_digits value) 10
        =? digito (soma_loop (strip_non_digits value) 10 11)).
Proof.
  unfold cpf. destruct (String.eqb value ""); simpl; [done|].
  destruct (_ =? 11)%nat; simpl; [|done].
  destruct (repeated _); simpl; [done|].
  destruct (_ =? digito _); simpl; [|done].
  by destruct (_ =? digito _).
Qed.

End CpfFacts.

(** The repeated-digit number of the specification is rejected although its
    check digits match; a number with a correctly computed pair is accepted. *)
Example cpf_scenario :
  Validators.cpf "111.111.111-11" = false
  ∧ check_digits "111111111" = (1, 1)
  ∧ check_digits "529982247" = (2, 5)
  ∧ Validators.cpf "529.982.247-25" = true
  ∧ Validators.cpf "529.982.247-26" = false.
Proof. repeat split; reflexivity. Qed.

(** C9. [Validators.cpf] rejects every eleven-digit input made of one repeated
    digit, and what it accepts are exactly the inputs with eleven digits, not
    all the same, whose last two digits are the mod-11 check digits of the
    first nine. *)
Theorem cpf_accepts_exactly_checked_digits :
  (∀ value : string,
     String.length (strip_non_digits value) = 11%nat →
     Validators.repeated (strip_non_digits value) = true →
     Validators.cpf value = false)
  ∧ (∀ value : string, Validators.cpf value = true ↔ cpf_spec value).
Proof.
  split.
  - intros value _ Hrep. rewrite cpf_unfold, Hrep. simpl.
    by rewrite !andb_false_r.
  - intros value. rewrite cpf_unfold. unfold cpf_spec, check_digits.
    rewrite !soma_loop_base, soma_loop_ten.
    set (digits := strip_non_digits value).
    split.
    + intros H. rewrite !andb_true_iff in H.
      destruct H as ((((_ & Hlen) & Hrep) & H9) & H10).
      apply Nat.eqb_eq in Hlen. apply negb_true_iff in Hrep.
      apply Z.eqb_eq in H9, H10. repeat split; try done.
      rewrite H10. rewrite H9 at 1. by rewrite <- H9.
    + intros (Hlen & Hrep & Hpair). injection Hpair as H9 H10.
      assert (String.eqb value "" = false) as ->.
      { destruct (String.eqb_spec value "") as [->|]; [|done].
        subst digits. simpl in Hlen. discriminate. }
      rewrite Hlen, Hrep. simpl.
      rewrite <- H9 in H10. rewrite <- H9, <- H10. by rewrite !Z.eqb_refl.
Qed.

(** C9 at the repeated-digit number of the specification and at a number with
    a correctly computed pair of check digits. *)
Lemma cpf_accepts_exactly_checked_digits_witness :
  Validators.cpf "111.111.111-11" = false
  ∧ (Validators.cpf "529.982.247-25" = true ↔ cpf_spec "529.982.247-25").
Proof.
  split.
  - apply (proj1 cpf_accepts_exactly_checked_digits "111.111.111-11"); reflexivity.
  - apply (proj2 cpf_accepts_exactly_checked_digits "529.982.247-25").
Defined.

(** ** Computations over the world *)

Lemma bind_ok {A B : Type} (m : M A) (f : A → M B) (w w' : World) (a : A) :
  m w = (Ok a, w') → (m ≫= f) w = f a w'.
Proof. intros H. unfold mbind, M_bind. by rewrite H. Qed.

Lemma bind_throw {A B : Type} (m : M A) (f : A → M B) (w w' : World) (e : exn) :
  m w = (Throw e, w') → (m ≫= f) w = (Throw e, w').
Proof. intros H. unfold mbind, M_bind. by rewrite H. Qed.

Lemma cache_get_eq (i : instance) (k : string) (w : World) :
  cache_get i k w
  = (Ok (SmartCache.get (clock w) k (get_cache i w)).1,
     put_cache i (SmartCache.get (clock w) k (get_cache i w)).2 w).
Proof. unfold cache_get. by destruct (SmartCache.get _ _ _). Qed.

(** Exposes the outermost sequencing of a computation. *)
Ltac step_bind := unfold mbind at 1; unfold M_bind at 1.

(** ** Upstream client *)

Section ApiRequestFacts.

Variables (endpoint method : string) (data : option string) (retries : Z).

Abbreviation opts := (api_options endpoint method data).
Abbreviation key := (api_cacheKey endpoint method data).
Abbreviation attempt_once n :=
  (try_catch (api_try endpoint method data retries n)
     (api_catch endpoint method data retries n)).

(** A failed attempt before the last one ends in the backoff and goes round
    the loop again; the caches are not touched. *)
Lemma attempt_backs_off (attempt : Z) (w : World) :
  server_error_or_timeout (upstream w (sent w) opts) = true →
  attempt < retries →
  ∃ w2, attempt_once attempt w = (Ok Continue, w2)
    ∧ trace w2 = (trace w ++ [Fetch opts; Sleep (CONFIG.RETRY_DELAY * attempt)])%list
    ∧ sent w2 = S (sent w)
    ∧ upstream w2 = upstream w
    ∧ (∀ i, get_cache i w2 = get_cache i w).
Proof.
  intros Hbad Hlt.
  assert (attempt <? retries = true) as Hlt' by lia.
  unfold try_catch, api_try, api_catch, api_backoff, fetch, ok,
    mbind, M_bind, mret, M_ret, mthrow, M_throw, sleep.
  destruct (upstream w (sent w) opts) as [latency st txt js|latency name msg|];
    simpl in Hbad.
  - destruct (latency <? CONFIG.API_TIMEOUT) eqn:Hlat; simpl.
    + assert ((200 <=? st) && (st <? 300) = false) as -> by lia. simpl.
      assert ((400 <=? st) && (st <? 500) = false) as -> by lia.
      rewrite Hlt'. simpl. eexists; split; [reflexivity|].
      simpl. rewrite <- app_assoc. repeat split.
    + rewrite Hlt'. simpl. eexists; split; [reflexivity|].
      simpl. rewrite <- app_assoc. repeat split.
  - assert (latency <? CONFIG.API_TIMEOUT = false) as -> by lia. simpl.
    rewrite Hlt'. simpl. eexists; split; [reflexivity|].
    simpl. rewrite <- app_assoc. repeat split.
  - simpl. rewrite Hlt'. simpl. eexists; split; [reflexivity|].
    simpl. rewrite <- app_assoc. repeat split.
Qed.

(** A failed last attempt stores the negative entry and throws a classified
    error. *)
Lemma attempt_gives_up (attempt : Z) (w : World) :
  server_error_or_timeout (upstream w (sent w) opts) = true →
  ¬ attempt < retries →
  ∃ code message w1 w2,
    attempt_once attempt w = (Throw (MCPError code message VNull), w2)
    ∧ (code = ErrorCodes.API_ERROR ∨ code = ErrorCodes.TIMEOUT_ERROR)
    ∧ trace w2 = (trace w ++ [Fetch opts])%list
    ∧ financeiro w2
      = SmartCache.setNegative (clock w2) key message None (financeiro w1)
    ∧ financeiro w1 = financeiro w.
Proof.
  intros Hbad Hge.
  assert (attempt <? retries = false) as Hlt' by lia.
  unfold try_catch, api_try, api_catch, api_backoff, fetch, ok,
    mbind, M_bind, mret, M_ret, mthrow, M_throw, sleep, cache_setNegative.
  destruct (upstream w (sent w) opts) as [latency st txt js|latency name msg|];
    simpl in Hbad.
  - destruct (latency <? CONFIG.API_TIMEOUT) eqn:Hlat; simpl.
    + assert ((200 <=? st) && (st <? 300) = false) as -> by lia. simpl.
      assert ((400 <=? st) && (st <? 500) = false) as -> by lia.
      rewrite Hlt'. simpl.
      do 2 eexists. exists (advance latency (record (Fetch opts) w)). eexists.
      split; [reflexivity|]. repeat split. by left.
    + rewrite Hlt'. simpl.
      do 2 eexists. exists (advance CONFIG.API_TIMEOUT (record (Fetch opts) w)). eexists.
      split; [reflexivity|]. repeat split. by right.
  - assert (latency <? CONFIG.API_TIMEOUT = false) as -> by lia. simpl.
    rewrite Hlt'. simpl.
    do 2 eexists. exists (advance CONFIG.API_TIMEOUT (record (Fetch opts) w)). eexists.
    split; [reflexivity|]. repeat split. by right.
  - simpl. rewrite Hlt'. simpl.
    do 2 eexists. exists (advance CONFIG.API_TIMEOUT (record (Fetch opts) w)). eexists.
    split; [reflexivity|]. repeat split. by right.
Qed.

(** An attempt answered in time with a 2xx status and a JSON body returns
    the parsed body. *)
Lemma attempt_succeeds (attempt : Z) (w : World) latency st txt result :
  upstream w (sent w) opts = Responded latency st txt (Some result) →
  latency < CONFIG.API_TIMEOUT → 200 ≤ st < 300 →
  attempt_once attempt w
  = (Ok (Return (ApiSuccess result)), advance latency (record (Fetch opts) w)).
Proof.
  intros Hup Hlat Hst.
  unfold try_catch, api_try, fetch, ok, mbind, M_bind, mret, M_ret.
  rewrite Hup.
  assert (latency <? CONFIG.API_TIMEOUT = true) as -> by lia. simpl.
  assert ((200 <=? st) && (st <? 300) = true) as -> by lia. done.
Qed.

Lemma attempts_app (tr1 tr2 : list event) :
  attempts (tr1 ++ tr2) = (attempts tr1 + attempts tr2)%nat.
Proof. unfold attempts. by rewrite List.filter_app, length_app. Qed.

Lemma attempts_backoffs (r : request) (n : nat) : ∀ attempt,
  attempts (backoffs r attempt n) = n.
Proof.
  induction n as [|n IH]; intros attempt; [done|].
  unfold attempts in *. simpl. by rewrite IH.
Qed.

Lemma attempts_retry_trace (r : request) (n : nat) : attempts (retry_trace r n) = n.
Proof.
  destruct n as [|j]; [done|]. unfold retry_trace.
  pose proof (attempts_backoffs r j 1) as Hj. unfold attempts in *.
  rewrite List.filter_app, length_app, Hj. simpl. lia.
Qed.

(** While the attempts fail with server errors or timeouts and the ceiling
    is not reached, the loop keeps going round, one request and one delay per
    pass. *)
Lemma api_loop_backoffs (failures : nat) : ∀ (fuel : nat) (attempt : Z) (w : World),
  (failures < fuel)%nat →
  attempt + Z.of_nat failures ≤ retries →
  (∀ i, (i < failures)%nat →
     server_error_or_timeout (upstream w (sent w + i)%nat opts) = true) →
  ∃ w2,
    api_loop endpoint method data retries fuel attempt w
    = api_loop endpoint method data retries (fuel - failures)
        (attempt + Z.of_nat failures) w2
    ∧ trace w2 = (trace w ++ backoffs opts attempt failures)%list
    ∧ sent w2 = (sent w + failures)%nat
    ∧ upstream w2 = upstream w
    ∧ (∀ i, get_cache i w2 = get_cache i w).
Proof.
  induction failures as [|j IH]; intros fuel attempt w Hfuel Hceil Hbad.
  { exists w. rewrite Nat.sub_0_r, Z.add_0_r, app_nil_r, Nat.add_0_r. done. }
  destruct fuel as [|fuel]; [lia|].
  destruct (attempt_backs_off attempt w) as (w1 & Hstep & Htr & Hsent & Hup & Hcaches).
  { rewrite <- (Nat.add_0_r (sent w)). apply Hbad. lia. }
  { lia. }
  destruct (IH fuel (attempt + 1) w1) as (w2 & Hloop & Htr2 & Hsent2 & Hup2 & Hcaches2).
  { lia. }
  { lia. }
  { intros i Hi. rewrite Hup, Hsent.
    replace (S (sent w) + i)%nat with (sent w + S i)%nat by lia. apply Hbad. lia. }
  exists w2. repeat split.
  - cbn [api_loop].
    assert (retries <? attempt = false) as -> by lia.
    rewrite (bind_ok _ _ _ _ _ Hstep). rewrite Hloop.
    replace (S fuel - S j)%nat with (fuel - j)%nat by lia.
    f_equal. lia.
  - rewrite Htr2, Htr. rewrite <- app_assoc. done.
  - lia.
  - congruence.
  - intros i. by rewrite Hcaches2.
Qed.

(** Without a negative hit for its key, [apiRequest] enters the retry loop
    at attempt 1. *)
Lemma apiRequest_enters_loop (w : World) :
  isNegativeHit (SmartCache.get (clock w) key (financeiro w)).1 = false →
  apiRequest endpoint method data retries w
  = api_loop endpoint method data retries (Z.to_nat retries) 1
      (put_cache Financeiro (SmartCache.get (clock w) key (financeiro w)).2 w).
Proof.
  intros Hmiss. unfold apiRequest, cache_get, mbind, M_bind. simpl.
  destruct (SmartCache.get (clock w) key (financeiro w)) as [v c]. simpl in *.
  by rewrite Hmiss.
Qed.

(** A first attempt answered in time with a 2xx status and a JSON body: the
    call returns the body after that single request. *)
Lemma apiRequest_first_attempt (w : World) latency st txt result :
  isNegativeHit (SmartCache.get (clock w) key (financeiro w)).1 = false →
  1 ≤ retries →
  upstream w (sent w) opts = Responded latency st txt (Some result) →
  latency < CONFIG.API_TIMEOUT → 200 ≤ st < 300 →
  apiRequest endpoint method data retries w
  = (Ok (ApiSuccess result),
     advance latency
       (record (Fetch opts)
          (put_cache Financeiro (SmartCache.get (clock w) key (financeiro w)).2 w))).
Proof.
  intros Hmiss Hone Hup Hlat Hst. rewrite (apiRequest_enters_loop w Hmiss).
  destruct (Z.to_nat retries) as [|fuel] eqn:Hfuel; [lia|].
  cbn [api_loop]. assert (retries <? 1 = false) as -> by lia.
  erewrite bind_ok; last first.
  { by apply attempt_succeeds with (txt := txt) (st := st). }
  reflexivity.
Qed.

(** A 4xx answer before the last attempt stores the negative entry, and then
    the [catch] block treats the thrown error like any other: it waits and
    goes round the loop again. *)
Lemma attempt_client_error_backs_off (attempt : Z) (w : World) :
  client_error (upstream w (sent w) opts) = true →
  attempt < retries →
  ∃ w2, attempt_once attempt w = (Ok Continue, w2)
    ∧ trace w2 = (trace w ++ [Fetch opts; Sleep (CONFIG.RETRY_DELAY * attempt)])%list.
Proof.
  intros Hbad Hlt.
  assert (attempt <? retries = true) as Hlt' by lia.
  unfold try_catch, api_try, api_catch, api_backoff, fetch, ok,
    mbind, M_bind, mret, M_ret, mthrow, M_throw, sleep, cache_setNegative.
  destruct (upstream w (sent w) opts) as [latency st txt js|latency name msg|];
    simpl in Hbad; [|done..].
  assert (latency <? CONFIG.API_TIMEOUT = true) as -> by lia. simpl.
  assert ((200 <=? st) && (st <? 300) = false) as -> by lia. simpl.
  assert ((400 <=? st) && (st <? 500) = true) as -> by lia. simpl.
  rewrite Hlt'. simpl. eexists; split; [reflexivity|].
  simpl. by rewrite <- app_assoc.
Qed.

Lemma get_keeps_switches (now : Z) (k : string) (c : SmartCache.t) :
  SmartCache.enabled (SmartCache.get now k c).2 = SmartCache.enabled c
  ∧ SmartCache.negativeEnabled (SmartCache.get now k c).2 = SmartCache.negativeEnabled c.
Proof.
  unfold SmartCache.get. destruct (SmartCache.enabled c) eqn:Hen; simpl; [|done].
  destruct (SmartCache.cache c !! k) as [it|]; simpl; [|done].
  destruct (_ <? now); simpl; [done|]. by destruct (SmartCache.isNegative it).
Qed.

End ApiRequestFacts.

(** C7. A call that starts without a negative hit for its key and whose
    attempts fail with 5xx responses or timeouts makes one more attempt after
    a delay of [RETRY_DELAY * attempt], up to [retries] attempts
    ([CONFIG.RETRY_ATTEMPTS] by default).  When an attempt within the ceiling
    is answered with a 2xx status and a JSON body, the call returns that body
    and exactly that many attempts were made; when every attempt fails, the
    call throws an [MCPError] classified as an API error or a timeout after
    exactly [retries] attempts, and the negative entry for its key is stored
    with the thrown message. *)
Theorem apiRequest_retries_then_settles (endpoint method : string)
    (data : option string) (retries : Z) (w : World) :
  isNegativeHit
    (SmartCache.get (clock w) (api_cacheKey endpoint method data) (financeiro w)).1
  = false →
  (∀ (failures : nat) latency st txt result,
     Z.of_nat failures < retries →
     (∀ i, (i < failures)%nat →
        server_error_or_timeout
          (upstream w (sent w + i)%nat (api_options endpoint method data)) = true) →
     upstream w (sent w + failures)%nat (api_options endpoint method data)
     = Responded latency st txt (Some result) →
     latency < CONFIG.API_TIMEOUT → 200 ≤ st < 300 →
     (apiRequest endpoint method data retries w).1 = Ok (ApiSuccess result)
     ∧ trace (apiRequest endpoint method data retries w).2
       = (trace w ++ retry_trace (api_options endpoint method data) (S failures))%list
     ∧ attempts (trace (apiRequest endpoint method data retries w).2)
       = (attempts (trace w) + S failures)%nat)
  ∧ (1 ≤ retries →
     (∀ i, (i < Z.to_nat retries)%nat →
        server_error_or_timeout
          (upstream w (sent w + i)%nat (api_options endpoint method data)) = true) →
     ∃ code message,
       (apiRequest endpoint method data retries w).1
       = Throw (MCPError code message VNull)
       ∧ (code = ErrorCodes.API_ERROR ∨ code = ErrorCodes.TIMEOUT_ERROR)
       ∧ trace (apiRequest endpoint method data retries w).2
         = (trace w
            ++ retry_trace (api_options endpoint method data) (Z.to_nat retries))%list
       ∧ attempts (trace (apiRequest endpoint method data retries w).2)
         = (attempts (trace w) + Z.to_nat retries)%nat
       ∧ (SmartCache.enabled (financeiro w) = true →
          SmartCache.negativeEnabled (financeiro w) = true →
          ∃ it,
            SmartCache.cache (financeiro (apiRequest endpoint method data retries w).2)
              !! api_cacheKey endpoint method data = Some it
            ∧ SmartCache.isNegative it = true
            ∧ SmartCache.error it = Some message
            ∧ SmartCache.expiry it
              = clock (apiRequest endpoint method data retries w).2
                + CONFIG.CACHE_TTL.NEGATIVE)).
Proof.
  intros Hmiss.
  rewrite (apiRequest_enters_loop _ _ _ _ _ Hmiss).
  set (w0 := put_cache Financeiro _ w).
  split.
  - intros failures latency st txt result Hceil Hbad Hgood Hlat Hst.
    destruct (api_loop_backoffs endpoint method data retries failures
                (Z.to_nat retries) 1 w0)
      as (w2 & Hloop & Htr & Hsent & Hup & _); [lia | lia | exact Hbad |].
    rewrite Hloop.
    destruct (Z.to_nat retries - failures)%nat as [|fuel] eqn:Hfuel; [lia|].
    cbn [api_loop].
    assert (retries <? 1 + Z.of_nat failures = false) as -> by lia.
    erewrite bind_ok; last first.
    { apply attempt_succeeds with (txt := txt) (st := st); [|done..].
      rewrite Hup, Hsent. exact Hgood. }
    cbn -[retry_trace attempts]. split; [done|].
    assert (trace w2 ++ [Fetch (api_options endpoint method data)]
            = trace w ++ retry_trace (api_options endpoint method data) (S failures))%list
      as Htrace.
    { rewrite Htr. unfold retry_trace. by rewrite <- app_assoc. }
    rewrite Htrace. split; [done|].
    by rewrite attempts_app, attempts_retry_trace.
  - intros Hone Hbad.
    destruct (api_loop_backoffs endpoint method data retries (Z.to_nat retries - 1)
                (Z.to_nat retries) 1 w0)
      as (w2 & Hloop & Htr & Hsent & Hup & Hcaches); [lia | lia | |].
    { intros i Hi. apply Hbad. lia. }
    rewrite Hloop.
    replace (Z.to_nat retries - (Z.to_nat retries - 1))%nat with 1%nat by lia.
    replace (1 + Z.of_nat (Z.to_nat retries - 1)) with retries by lia.
    cbn [api_loop].
    assert (retries <? retries = false) as -> by lia.
    destruct (attempt_gives_up endpoint method data retries retries w2)
      as (code & message & w1 & w3 & Hstep & Hcode & Htr3 & Hfin & Hfin1).
    { rewrite Hup, Hsent. apply Hbad. lia. }
    { lia. }
    rewrite (bind_throw _ _ _ _ _ Hstep). cbn -[retry_trace attempts].
    exists code, message. split; [done|]. split; [done|].
    assert (trace w3
            = trace w ++ retry_trace (api_options endpoint method data)
                           (Z.to_nat retries))%list as Htrace.
    { rewrite Htr3, Htr.
      replace (Z.to_nat retries) with (S (Z.to_nat retries - 1)) at 2 by lia.
      unfold retry_trace. by rewrite <- app_assoc. }
    rewrite Htrace. split; [done|].
    split; [by rewrite attempts_app, attempts_retry_trace|].
    intros Hen Hneg. rewrite Hfin, Hfin1.
    specialize (Hcaches Financeiro). simpl in Hcaches. rewrite Hcaches.
    unfold w0; simpl.
    destruct (get_keeps_switches (clock w) (api_cacheKey endpoint method data)
                (financeiro w)) as (He & Hn).
    unfold SmartCache.setNegative. rewrite He, Hn, Hen, Hneg. simpl.
    rewrite lookup_insert_eq. eexists. repeat split.
Qed.

(** C7 at the scenario of the specification (500, 500, then success: three
    attempts), and at an upstream service that never answers. *)
Lemma apiRequest_retries_then_settles_witness :
  ((apiRequest "/clientes/7/pets" "GET" None CONFIG.RETRY_ATTEMPTS (boot flaky [])).1
   = Ok (ApiSuccess (VArr []))
   ∧ trace (apiRequest "/clientes/7/pets" "GET" None CONFIG.RETRY_ATTEMPTS
              (boot flaky [])).2
     = ([] ++ retry_trace (api_options "/clientes/7/pets" "GET" None) 3)%list
   ∧ attempts (trace (apiRequest "/clientes/7/pets" "GET" None CONFIG.RETRY_ATTEMPTS
                        (boot flaky [])).2)
     = (attempts (trace (boot flaky [])) + 3)%nat)
  ∧ ∃ code message,
      (apiRequest "/health" "GET" None CONFIG.RETRY_ATTEMPTS (boot (scripted []) [])).1
      = Throw (MCPError code message VNull)
      ∧ (code = ErrorCodes.API_ERROR ∨ code = ErrorCodes.TIMEOUT_ERROR)
      ∧ trace (apiRequest "/health" "GET" None CONFIG.RETRY_ATTEMPTS
                 (boot (scripted []) [])).2
        = ([] ++ retry_trace (api_options "/health" "GET" None)
                   (Z.to_nat CONFIG.RETRY_ATTEMPTS))%list
      ∧ attempts (trace (apiRequest "/health" "GET" None CONFIG.RETRY_ATTEMPTS
                           (boot (scripted []) [])).2)
        = (attempts (trace (boot (scripted []) [])) + Z.to_nat CONFIG.RETRY_ATTEMPTS)%nat
      ∧ (SmartCache.enabled (financeiro (boot (scripted []) [])) = true →
         SmartCache.negativeEnabled (financeiro (boot (scripted []) [])) = true →
         ∃ it,
           SmartCache.cache
             (financeiro (apiRequest "/health" "GET" None CONFIG.RETRY_ATTEMPTS
                            (boot (scripted []) [])).2)
           !! api_cacheKey "/health" "GET" None = Some it
           ∧ SmartCache.isNegative it = true
           ∧ SmartCache.error it = Some message
           ∧ SmartCache.expiry it
             = clock (apiRequest "/health" "GET" None CONFIG.RETRY_ATTEMPTS
                        (boot (scripted []) [])).2
               + CONFIG.CACHE_TTL.NEGATIVE).
Proof.
  split.
  - apply (proj1 (apiRequest_retries_then_settles "/clientes/7/pets" "GET" None
                    CONFIG.RETRY_ATTEMPTS (boot flaky []) eq_refl)
             2%nat 95 200 "[]" (VArr [])).
    + reflexivity.
    + intros [|[|i]] Hi; [reflexivity | reflexivity | lia].
    + reflexivity.
    + reflexivity.
    + lia.
  - apply (proj2 (apiRequest_retries_then_settles "/health" "GET" None
                    CONFIG.RETRY_ATTEMPTS (boot (scripted []) []) eq_refl)).
    + unfold CONFIG.RETRY_ATTEMPTS. lia.
    + intros i _. unfold scripted. simpl. by destruct i.
Defined.

(** An upstream service that answers every request with 500: the call gives
    up after three attempts and leaves the negative entry behind. *)
Example apiRequest_gives_up_after_three :
  (apiRequest "/health" "GET" None CONFIG.RETRY_ATTEMPTS
     (boot (always (Responded 10 500 "down" None)) [])).1
  = Throw (MCPError ErrorCodes.API_ERROR "API Error 500: down" VNull)
  ∧ attempts (trace (apiRequest "/health" "GET" None CONFIG.RETRY_ATTEMPTS
                       (boot (always (Responded 10 500 "down" None)) [])).2) = 3%nat.
Proof. split; reflexivity. Qed.

(** C1, as the code runs. A call answered with 404 is sent three times, with
    the delays of the retry loop in between, before it fails; the negative
    entry is stored and the error is classified. *)
Theorem apiRequest_retries_client_errors :
  (apiRequest "/clientes/0" "GET" None CONFIG.RETRY_ATTEMPTS (boot not_found [])).1
  = Throw (MCPError ErrorCodes.API_ERROR "API Error 404: Not Found" VNull)
  ∧ trace (apiRequest "/clientes/0" "GET" None CONFIG.RETRY_ATTEMPTS
             (boot not_found [])).2
    = [Fetch (api_options "/clientes/0" "GET" None); Sleep 2000;
       Fetch (api_options "/clientes/0" "GET" None); Sleep 4000;
       Fetch (api_options "/clientes/0" "GET" None)]
  ∧ attempts (trace (apiRequest "/clientes/0" "GET" None CONFIG.RETRY_ATTEMPTS
                       (boot not_found [])).2) = 3%nat
  ∧ SmartCache.error
      <$> SmartCache.cache
            (financeiro (apiRequest "/clientes/0" "GET" None CONFIG.RETRY_ATTEMPTS
                           (boot not_found [])).2)
          !! api_cacheKey "/clientes/0" "GET" None
    = Some (Some "API Error 404: Not Found").
Proof. repeat split; vm_compute; reflexivity. Qed.

(** ** Executors and dispatcher *)

Section ExecutorFacts.

(** A truthy cached value that is no negative hit is returned as it is, and
    the upstream service is not contacted. *)
Lemma listarPetsCliente_from_cache (args : jsval) (w : World) :
  truthy (SmartCache.get (clock w) (pets_cacheKey args) (pets w)).1 = true →
  cached_error (SmartCache.get (clock w) (pets_cacheKey args) (pets w)).1 = false →
  listarPetsCliente args w
  = (Ok (SmartCache.get (clock w) (pets_cacheKey args) (pets w)).1,
     put_cache Pets (SmartCache.get (clock w) (pets_cacheKey args) (pets w)).2 w).
Proof.
  intros Htruthy Hpayload.
  unfold listarPetsCliente, try_catch, cache_get, mbind, M_bind, mret, M_ret.
  fold (pets_cacheKey args). simpl.
  destruct (SmartCache.get (clock w) (pets_cacheKey args) (pets w)) as [v c].
  simpl in *. by rewrite Htruthy, Hpayload.
Qed.

(** On a miss, a first attempt answered in time with a 2xx status and a
    payload that has a [length] is shaped, cached for [MEDIUM] and returned
    after one request. *)
Lemma listarPetsCliente_from_upstream (args : jsval) (w : World)
    latency st txt data total :
  truthy (SmartCache.get (clock w) (pets_cacheKey args) (pets w)).1 = false →
  isNegativeHit
    (SmartCache.get (clock w) (api_cacheKey (pets_endpoint args) "GET" None)
       (financeiro w)).1 = false →
  upstream w (sent w) (api_options (pets_endpoint args) "GET" None)
  = Responded latency st txt (Some data) →
  latency < CONFIG.API_TIMEOUT → 200 ≤ st < 300 →
  js_length data = Some total →
  ∃ wf,
    listarPetsCliente args w = (Ok (pets_response data total), wf)
    ∧ trace wf = (trace w ++ [Fetch (api_options (pets_endpoint args) "GET" None)])%list
    ∧ pets wf
      = SmartCache.set (clock wf) (pets_cacheKey args) (pets_response data total)
          (Some CONFIG.CACHE_TTL.MEDIUM)
          (SmartCache.get (clock w) (pets_cacheKey args) (pets w)).2.
Proof.
  intros Hmiss Hneg Hup Hlat Hst Hlen.
  unfold listarPetsCliente, try_catch.
  fold (pets_cacheKey args) (pets_endpoint args).
  rewrite (bind_ok _ _ _ _ _ (cache_get_eq Pets (pets_cacheKey args) w)).
  cbn [get_cache]. rewrite Hmiss.
  erewrite bind_ok; last first.
  { apply apiRequest_first_attempt with (txt := txt) (st := st);
      [exact Hneg | unfold CONFIG.RETRY_ATTEMPTS; lia | exact Hup | done | done]. }
  unfold read_length. rewrite Hlen.
  unfold cache_set, mbind, M_bind, mret, M_ret. simpl.
  eexists. split; [reflexivity|]. split; reflexivity.
Qed.

Lemma rate_check_admission (req : HttpRequest) (draw : bool) (w : World) :
  rate_check (clientId req) draw w
  = (Ok (admission req draw w).1, put_rateLimiter (admission req draw w).2 w).
Proof.
  unfold rate_check, admission. by destruct (RateLimiter.checkLimit _ _ _ _).
Qed.

End ExecutorFacts.

(** C8. A well-formed [tools/list] request that the limiter admits is always
    answered with the registry itself, whatever the state of the process; and
    when [listar_pets_cliente] misses its cache and the upstream service
    answers the first request in time with a 2xx status and a payload that
    has a [length], a second invocation within the TTL of [MEDIUM] is served
    from the cache: both invocations return the same response and exactly one
    upstream request is made over the two. *)
Theorem reads_are_idempotent :
  (∀ (toolDefinitions : jsval) (toolTable : string → option (jsval → M jsval))
     (req : HttpRequest) (draw : bool) (w : World),
     malformed req = false →
     is_str "tools/list" (js_field "method" (body req)) = true →
     (admission req draw w).1 = true →
     (post_root toolDefinitions toolTable req draw w).1
     = Ok (ReplyResult (js_field "id" (body req)) (ToolList toolDefinitions)))
  ∧ (∀ (args : jsval) (w : World) latency st txt data total (gap : Z),
       SmartCache.enabled (pets w) = true →
       SmartCache.cache (pets w) !! pets_cacheKey args = None →
       isNegativeHit
         (SmartCache.get (clock w) (api_cacheKey (pets_endpoint args) "GET" None)
            (financeiro w)).1 = false →
       upstream w (sent w) (api_options (pets_endpoint args) "GET" None)
       = Responded latency st txt (Some data) →
       latency < CONFIG.API_TIMEOUT → 200 ≤ st < 300 →
       js_length data = Some total →
       0 ≤ gap ≤ CONFIG.CACHE_TTL.MEDIUM →
       (listarPetsCliente args w).1 = Ok (pets_response data total)
       ∧ (listarPetsCliente args (advance gap (listarPetsCliente args w).2)).1
         = Ok (pets_response data total)
       ∧ trace (listarPetsCliente args (advance gap (listarPetsCliente args w).2)).2
         = (trace w ++ [Fetch (api_options (pets_endpoint args) "GET" None)])%list
       ∧ attempts
           (trace (listarPetsCliente args
                     (advance gap (listarPetsCliente args w).2)).2)
         = S (attempts (trace w))).
Proof.
  split.
  - intros toolDefinitions toolTable req draw w Hwell Hmethod Hadmit.
    unfold malformed in Hwell.
    apply orb_false_elim in Hwell as [Hwell Hrpc].
    apply orb_false_elim in Hwell as [Hbody Hkeys].
    apply negb_false_iff in Hbody, Hrpc.
    unfold post_root, now, try_catch.
    do 5 step_bind.
    rewrite rate_check_admission, Hadmit, Hbody, Hkeys. simpl.
    rewrite Hrpc. simpl.
    destruct (js_field "method" (body req)) as [| | | |m| |]; try discriminate.
    simpl in Hmethod. apply String.eqb_eq in Hmethod. subst m. reflexivity.
  - intros args w latency st txt data total gap Hen Hnone Hneg Hup Hlat Hst Hlen Hgap.
    assert (SmartCache.get (clock w) (pets_cacheKey args) (pets w)
            = (VNull, SmartCache.count_miss (pets w))) as Hget.
    { unfold SmartCache.get. by rewrite Hen, Hnone. }
    destruct (listarPetsCliente_from_upstream args w latency st txt data total)
      as (wf & Hfirst & Htrace & Hpets); try done.
    { by rewrite Hget. }
    rewrite Hfirst. simpl.
    assert ((SmartCache.get (clock (advance gap wf)) (pets_cacheKey args)
               (pets (advance gap wf))).1 = pets_response data total) as Hhit.
    { simpl. rewrite Hpets, Hget. simpl.
      apply get_set_live; [done|].
      unfold SmartCache.ttl_or_default, CONFIG.CACHE_TTL.MEDIUM in *. simpl. lia. }
    rewrite listarPetsCliente_from_cache; rewrite Hhit; try done.
    simpl. rewrite Htrace. repeat split.
    unfold attempts. rewrite List.filter_app, length_app. simpl. lia.
Qed.

(** C8 for a [tools/list] request and for two listings of the pets of
    client 12, one second apart. *)
Lemma reads_are_idempotent_witness :
  (post_root (VArr [VStr "listar_pets_cliente"]) toolFunctions list_request false
     (boot healthy [])).1
  = Ok (ReplyResult (VNum 1) (ToolList (VArr [VStr "listar_pets_cliente"])))
  ∧ (listarPetsCliente pets_of_12 (boot healthy [])).1
    = Ok (pets_response (VArr []) (VNum 0))
  ∧ (listarPetsCliente pets_of_12
       (advance 1000 (listarPetsCliente pets_of_12 (boot healthy [])).2)).1
    = Ok (pets_response (VArr []) (VNum 0))
  ∧ trace (listarPetsCliente pets_of_12
             (advance 1000 (listarPetsCliente pets_of_12 (boot healthy [])).2)).2
    = ([] ++ [Fetch (api_options (pets_endpoint pets_of_12) "GET" None)])%list
  ∧ attempts
      (trace (listarPetsCliente pets_of_12
                (advance 1000 (listarPetsCliente pets_of_12 (boot healthy [])).2)).2)
    = 1%nat.
Proof.
  split.
  - apply (proj1 reads_are_idempotent (VArr [VStr "listar_pets_cliente"])
             toolFunctions list_request false (boot healthy []));
      reflexivity.
  - apply (proj2 reads_are_idempotent pets_of_12 (boot healthy [])
             35 200 "[]" (VArr []) (VNum 0) 1000);
      try reflexivity; unfold CONFIG.API_TIMEOUT, CONFIG.CACHE_TTL.MEDIUM; lia.
Defined.

Section DispatcherFacts.

Variable toolDefinitions : jsval.
Variable toolTable : string → option (jsval → M jsval).

(** A request the limiter rejects is answered with the rate-limit error,
    whatever its envelope, and the limiter is left as it was. *)
Lemma post_root_rejected (req : HttpRequest) (draw : bool) (w : World) :
  (admission req draw w).1 = false →
  ∃ message,
    post_root toolDefinitions toolTable req draw w
    = (Ok (ReplyError (envelope_id req) ErrorCodes.RATE_LIMIT_ERROR message None), w).
Proof.
  intros Hrej.
  assert ((admission req draw w).2 = rateLimiter w) as Hsame.
  { by apply checkLimit_rejected_frame. }
  unfold post_root, now, try_catch.
  do 5 step_bind.
  rewrite rate_check_admission, Hrej, Hsame. simpl.
  unfold formatMCPError, envelope_id. simpl.
  eexists. f_equal. by destruct w.
Qed.

(** A malformed request the limiter admits is answered with the
    invalid-request error, after its timestamp has been recorded. *)
Lemma post_root_malformed_admitted (req : HttpRequest) (draw : bool) (w : World) :
  malformed req = true →
  (admission req draw w).1 = true →
  ∃ message,
    post_root toolDefinitions toolTable req draw w
    = (Ok (ReplyError (envelope_id req) ErrorCodes.INVALID_REQUEST message None),
       put_rateLimiter (admission req draw w).2 w).
Proof.
  intros Hbad Hadmit.
  unfold post_root, now, try_catch.
  do 5 step_bind.
  rewrite rate_check_admission, Hadmit. simpl.
  unfold malformed in Hbad. unfold envelope_id.
  destruct (negb (truthy (body req)) || (keys_length (body req) =? 0)) eqn:Hempty;
    simpl in *.
  - eexists. reflexivity.
  - apply orb_false_elim in Hempty as [Hbody _].
    apply negb_false_iff in Hbody. rewrite Hbody in *. rewrite Hbad. simpl.
    eexists. reflexivity.
Qed.

End DispatcherFacts.

(** An admitted call is recorded: its clock reading is among the timestamps
    stored for the identifier afterwards. *)
Lemma checkLimit_admitted_recorded (now : Z) (draw : bool) (identifier : string)
    (rl : RateLimiter.t) :
  RateLimiter.enabled rl = true →
  0 < RateLimiter.windowMs rl →
  (RateLimiter.checkLimit now (RateLimiter.Sweep draw now) identifier rl).1 = true →
  In now (RateLimiter.userRequests identifier
            (RateLimiter.checkLimit now (RateLimiter.Sweep draw now) identifier rl).2).
Proof.
  intros Hen Hwin. unfold RateLimiter.checkLimit. rewrite Hen. simpl.
  destruct (_ >=? _); simpl; [discriminate|]. intros _.
  destruct draw.
  - rewrite userRequests_cleanup, userRequests_insert, String.eqb_refl. simpl.
    rewrite recent_app. apply in_or_app. right. simpl.
    assert (now - now <? RateLimiter.windowMs rl = true) as -> by lia. by left.
  - rewrite userRequests_insert, String.eqb_refl. apply in_or_app. right. by left.
Qed.

(** C3 fails on both counts: a request without a body from a caller whose
    window is full is answered with the rate-limit error, not the
    invalid-request error; and the same request from a fresh caller, while
    answered with the invalid-request error, leaves its timestamp in the
    caller's window. *)
Lemma malformed_request_meets_limiter_first :
  (post_root (VArr []) toolFunctions empty_request false throttled).1
  = Ok (ReplyError VUndefined ErrorCodes.RATE_LIMIT_ERROR
          "Rate limit exceeded. Please wait 60 seconds before making more requests."
          None)
  ∧ (post_root (VArr []) toolFunctions empty_request false (boot healthy [])).1
    = Ok (ReplyError VUndefined ErrorCodes.INVALID_REQUEST
            "Invalid Request - Empty body" None)
  ∧ RateLimiter.userRequests "a"
      (rateLimiter
         (post_root (VArr []) toolFunctions empty_request false (boot healthy [])).2)
    = [0].
Proof. repeat split; vm_compute; reflexivity. Qed.

(** C3, amended. The limiter is consulted before the envelope is looked at.
    A malformed request that the limiter admits is answered with the
    invalid-request code and is recorded against the caller's budget; a
    malformed request that the limiter rejects is answered with the
    rate-limit code, and the limiter's state is not changed. *)
Theorem post_root_limits_before_validating (toolDefinitions : jsval)
    (toolTable : string → option (jsval → M jsval)) (req : HttpRequest)
    (draw : bool) (w : World) :
  malformed req = true →
  ((admission req draw w).1 = true →
     (∃ message,
        (post_root toolDefinitions toolTable req draw w).1
        = Ok (ReplyError (envelope_id req) ErrorCodes.INVALID_REQUEST message None))
     ∧ rateLimiter (post_root toolDefinitions toolTable req draw w).2
       = (admission req draw w).2
     ∧ (RateLimiter.enabled (rateLimiter w) = true →
        0 < RateLimiter.windowMs (rateLimiter w) →
        In (clock w)
          (RateLimiter.userRequests (clientId req)
             (rateLimiter (post_root toolDefinitions toolTable req draw w).2))))
  ∧ ((admission req draw w).1 = false →
     (∃ message,
        (post_root toolDefinitions toolTable req draw w).1
        = Ok (ReplyError (envelope_id req) ErrorCodes.RATE_LIMIT_ERROR message None))
     ∧ rateLimiter (post_root toolDefinitions toolTable req draw w).2 = rateLimiter w).
Proof.
  intros Hbad. split; intros Hverdict.
  - destruct (post_root_malformed_admitted toolDefinitions toolTable req draw w
                Hbad Hverdict) as (message & ->).
    simpl. split; [by exists message|]. split; [done|].
    intros Hen Hwin. by apply checkLimit_admitted_recorded.
  - destruct (post_root_rejected toolDefinitions toolTable req draw w Hverdict)
      as (message & ->).
    simpl. split; [by exists message|done].
Qed.

(** C3, amended, for the request without a body and the throttled caller. *)
Lemma post_root_limits_before_validating_witness :
  ((admission empty_request false throttled).1 = true →
     (∃ message,
        (post_root (VArr []) toolFunctions empty_request false throttled).1
        = Ok (ReplyError (envelope_id empty_request) ErrorCodes.INVALID_REQUEST
                message None))
     ∧ rateLimiter (post_root (VArr []) toolFunctions empty_request false throttled).2
       = (admission empty_request false throttled).2
     ∧ (RateLimiter.enabled (rateLimiter throttled) = true →
        0 < RateLimiter.windowMs (rateLimiter throttled) →
        In (clock throttled)
          (RateLimiter.userRequests (clientId empty_request)
             (rateLimiter
                (post_root (VArr []) toolFunctions empty_request false throttled).2))))
  ∧ ((admission empty_request false throttled).1 = false →
     (∃ message,
        (post_root (VArr []) toolFunctions empty_request false throttled).1
        = Ok (ReplyError (envelope_id empty_request) ErrorCodes.RATE_LIMIT_ERROR
                message None))
     ∧ rateLimiter (post_root (VArr []) toolFunctions empty_request false throttled).2
       = rateLimiter throttled).
Proof.
  apply (post_root_limits_before_validating (VArr []) toolFunctions empty_request
           false throttled).
  reflexivity.
Defined.

(** C2, as the code runs. [busca_global] with an empty term is no validation
    failure: it sends its four upstream requests and reports success.
    [buscar_servicos] hands back all sixty entries the upstream service
    returns for a two-letter term. *)
Theorem searches_without_guard :
  (buscaGlobal (VObj [("termo", VStr "")]) (boot healthy [])).1
  = Ok (VObj [("success", VBool true);
              ("resultados",
               VObj [("clientes", VArr []); ("pets", VArr []);
                     ("produtos", VArr []); ("servicos", VArr [])]);
              ("total",
               VObj [("clientes", VNum 0); ("pets", VNum 0);
                     ("produtos", VNum 0); ("servicos", VNum 0)]);
              ("termo_busca", VStr "")])
  ∧ attempts (trace (buscaGlobal (VObj [("termo", VStr "")]) (boot healthy [])).2)
    = 4%nat
  ∧ js_field "success"
      (returned (buscarServicos (VObj [("termo_busca", VStr "ba")])
                   (boot crowded [])).1)
    = VBool true
  ∧ js_length
      (js_field "servicos"
         (returned (buscarServicos (VObj [("termo_busca", VStr "ba")])
                      (boot crowded [])).1))
    = Some (VNum 60).
Proof. repeat split; vm_compute; reflexivity. Qed.

(** [buscar_clientes] and [buscar_servicos] turn a missing or too short term
    into a failure without touching the caches or the upstream service: the
    world is left exactly as it was. *)
Theorem searches_reject_short_terms (args : jsval) (w : World) :
  (short_term 3 (js_field "termo_busca" args) = true →
   buscarClientes args w
   = (Ok (clientes_failure (VStr clientes_termo_obrigatorio)), w))
  ∧ (short_term 2 (js_field "termo_busca" args) = true →
     buscarServicos args w
     = (Ok (servicos_failure (VStr servicos_termo_obrigatorio)), w)).
Proof.
  unfold short_term, buscarClientes, buscarServicos, try_catch, mret, M_ret.
  split; intros Hshort;
    destruct (js_field "termo_busca" args) as [| |b|n|t|items|fields];
    simpl in *; try done.
  - by destruct b.
  - by destruct (n =? 0).
  - destruct (String.eqb t ""); simpl in *; [done|]. by rewrite Hshort.
  - by destruct b.
  - by destruct (n =? 0).
  - destruct (String.eqb t ""); simpl in *; [done|]. by rewrite Hshort.
Qed.

(** Two characters for [buscar_clientes], one for [buscar_servicos]. *)
Lemma searches_reject_short_terms_witness :
  buscarClientes (VObj [("termo_busca", VStr " ab ")]) (boot healthy [])
  = (Ok (clientes_failure (VStr clientes_termo_obrigatorio)), boot healthy [])
  ∧ buscarServicos (VObj [("termo_busca", VStr " a")]) (boot healthy [])
    = (Ok (servicos_failure (VStr servicos_termo_obrigatorio)), boot healthy []).
Proof.
  split.
  - apply (proj1 (searches_reject_short_terms
                    (VObj [("termo_busca", VStr " ab ")]) (boot healthy []))).
    reflexivity.
  - apply (proj2 (searches_reject_short_terms
                    (VObj [("termo_busca", VStr " a")]) (boot healthy []))).
    reflexivity.
Defined.

(** A successful [buscar_clientes] that goes upstream returns the first
    fifty entries of the payload at most. *)
Theorem buscarClientes_caps_results (args : jsval) (w : World) (termo : string)
    latency st txt data :
  js_field "termo_busca" args = VStr termo →
  short_term 3 (VStr termo) = false →
  truthy (SmartCache.get (clock w) (clientes_cacheKey termo) (clientes w)).1 = false →
  isNegativeHit
    (SmartCache.get (clock w) (api_cacheKey (clientes_endpoint termo) "GET" None)
       (financeiro w)).1 = false →
  upstream w (sent w) (api_options (clientes_endpoint termo) "GET" None)
  = Responded latency st txt (Some data) →
  latency < CONFIG.API_TIMEOUT → 200 ≤ st < 300 →
  js_field "success" (returned (buscarClientes args w).1) = VBool true
  ∧ js_field "clientes" (returned (buscarClientes args w).1)
    = VArr (slice0 50 (array_or_empty data))
  ∧ (List.length (slice0 50 (array_or_empty data)) ≤ 50)%nat
  ∧ attempts (trace (buscarClientes args w).2) = S (attempts (trace w)).
Proof.
  intros Hterm Hlong Hmiss Hneg Hup Hlat Hst.
  unfold short_term in Hlong. apply orb_false_elim in Hlong as [Htruthy Hlen].
  apply negb_false_iff in Htruthy.
  unfold buscarClientes, try_catch. rewrite Hterm, Htruthy, Hlen. cbn [negb].
  fold (clientes_cacheKey termo) (clientes_endpoint termo).
  rewrite (bind_ok _ _ _ _ _ (cache_get_eq Clientes (clientes_cacheKey termo) w)).
  cbn [get_cache]. rewrite Hmiss.
  erewrite bind_ok; last first.
  { apply apiRequest_first_attempt with (txt := txt) (st := st);
      [exact Hneg | unfold CONFIG.RETRY_ATTEMPTS; lia | exact Hup | done | done]. }
  unfold cache_set, mbind, M_bind, mret, M_ret. cbn -[slice0 attempts].
  repeat split.
  - unfold slice0. apply firstn_le_length.
  - unfold attempts. rewrite List.filter_app, length_app. simpl. lia.
Qed.

(** Sixty entries upstream, fifty returned. *)
Lemma buscarClientes_caps_results_witness :
  js_field "success"
    (returned (buscarClientes (VObj [("termo_busca", VStr "silva")])
                 (boot crowded [])).1) = VBool true
  ∧ js_field "clientes"
      (returned (buscarClientes (VObj [("termo_busca", VStr "silva")])
                   (boot crowded [])).1)
    = VArr (slice0 50 (array_or_empty (VArr (repeat (VNum 0) 60))))
  ∧ (List.length (slice0 50 (array_or_empty (VArr (repeat (VNum 0) 60)))) ≤ 50)%nat
  ∧ attempts (trace (buscarClientes (VObj [("termo_busca", VStr "silva")])
                       (boot crowded [])).2)
    = S (attempts (trace (boot crowded []))).
Proof.
  apply (buscarClientes_caps_results (VObj [("termo_busca", VStr "silva")])
           (boot crowded []) "silva" 35 200
           ("[" ++ String.concat "," (repeat "0" 60) ++ "]")
           (VArr (repeat (VNum 0) 60)));
    try reflexivity; unfold CONFIG.API_TIMEOUT; lia.
Defined.

(** ** Phone validator *)

Lemma all_chars_filter (keep : ascii → bool) (s : string) :
  all_chars keep (filter_chars keep s) = true.
Proof.
  induction s as [|c s IH]; simpl; [done|].
  destruct (keep c) eqn:Hc; simpl; [by rewrite Hc|done].
Qed.

Lemma all_chars_substring (keep : ascii → bool) (s : string) : ∀ n m,
  all_chars keep s = true → all_chars keep (String.substring n m s) = true.
Proof.
  induction s as [|c s IH]; intros n m Hs; simpl in *.
  { by destruct n, m. }
  apply andb_prop in Hs as [Hc Hs].
  destruct n as [|n]; [destruct m as [|m]|]; simpl; [done| |by apply IH].
  rewrite Hc. simpl. by apply IH.
Qed.

Lemma length_substring (s : string) : ∀ n m,
  (n + m ≤ String.length s)%nat → String.length (String.substring n m s) = m.
Proof.
  induction s as [|c s IH]; intros n m Hle; simpl in *.
  { destruct n, m; simpl in *; lia. }
  destruct n as [|n]; [destruct m as [|m]|]; simpl; [done| |apply IH; lia].
  f_equal. apply IH. simpl. lia.
Qed.

(** Whatever [Validators.telefone] returns as a number is a string of ten or
    eleven digits. *)
Theorem telefone_normalizes (value numeros : string) :
  Validators.telefone value = Ok (Some numeros) →
  (String.length numeros = 10%nat ∨ String.length numeros = 11%nat)
  ∧ all_chars is_digit numeros = true.
Proof.
  unfold Validators.telefone. destruct (String.eqb value ""); [done|].
  set (digits := strip_non_digits value).
  assert (all_chars is_digit digits = true) as Hdigits by apply all_chars_filter.
  clearbody digits.
  destruct (String.prefix "55" digits && (11 <? String.length digits)%nat) eqn:Hcc.
  - apply andb_prop in Hcc as [_ Hlong]. apply Nat.ltb_lt in Hlong.
    pose proof (length_substring digits 2 (String.length digits - 2)) as Hsub.
    destruct (_ || _) eqn:Hlen; [done|]. intros [= <-].
    apply orb_false_elim in Hlen as [H10 H11].
    apply Nat.ltb_ge in H10, H11.
    split; [lia|by apply all_chars_substring].
  - destruct (_ || _) eqn:Hlen; [done|]. intros [= <-].
    apply orb_false_elim in Hlen as [H10 H11].
    apply Nat.ltb_ge in H10, H11. split; [lia|done].
Qed.

(** The number of the specification's scenario, with its country code. *)
Lemma telefone_normalizes_witness :
  (String.length "11988887777" = 10%nat ∨ String.length "11988887777" = 11%nat)
  ∧ all_chars is_digit "11988887777" = true.
Proof.
  apply (telefone_normalizes "+55 11 98888-7777" "11988887777"). reflexivity.
Defined.

(** A seven-digit number is rejected with the validation message. *)
Example telefone_rejects_seven_digits :
  exn_name
    match Validators.telefone "888-7777" with
    | Throw e => e
    | Ok _ => JsError "" ""
    end = "Error"
  ∧ includes
      (exn_message
         match Validators.telefone "888-7777" with
         | Throw e => e
         | Ok _ => JsError "" ""
         end) ("inv" ++ chr 225 ++ "lid") = true.
Proof. split; reflexivity. Qed.

(** ** Cache layer: invalidation, sweeping, accounting *)

Section SmartCacheMore.

Import SmartCache.

Lemma get_absent (c : t) (now : Z) (key : string) :
  cache c !! key = None → (get now key c).1 = VNull.
Proof. intros Hnone. unfold get. rewrite Hnone. by destruct (enabled c). Qed.

(** A lookup reads the store through the entry of its own key only. *)
Lemma get_same_entry (c1 c2 : t) (now : Z) (key : string) :
  enabled c1 = enabled c2 → cache c1 !! key = cache c2 !! key →
  (get now key c1).1 = (get now key c2).1.
Proof.
  intros Hen Hentry. unfold get. rewrite Hen, Hentry.
  destruct (enabled c2); simpl; [|done].
  destruct (cache c2 !! key) as [it|]; [|done].
  destruct (expiry it <? now); [done|]. by destruct (isNegative it).
Qed.

End SmartCacheMore.

(** After [delete(key)] the key misses, the returned flag tells whether an
    entry was there, and no other key is touched; after [deletePattern] every
    matching key misses and every other key keeps its entry. *)
Theorem invalidation_removes_only_its_keys (c : SmartCache.t) (now : Z) :
  (∀ key : string,
     ((SmartCache.delete key c).1 = true ↔ is_Some (SmartCache.cache c !! key))
     ∧ (SmartCache.get now key (SmartCache.delete key c).2).1 = VNull
     ∧ (∀ key', key' ≠ key →
          SmartCache.cache (SmartCache.delete key c).2 !! key'
          = SmartCache.cache c !! key'))
  ∧ (∀ (test : string → bool) (key : string),
       (test key = true →
        (SmartCache.get now key (SmartCache.deletePattern test c)).1 = VNull)
       ∧ (test key = false →
          SmartCache.cache (SmartCache.deletePattern test c) !! key
          = SmartCache.cache c !! key)).
Proof.
  split.
  - intros key. unfold SmartCache.delete.
    destruct (SmartCache.cache c !! key) as [it|] eqn:Hkey; simpl.
    + split; [by split; eauto|]. split.
      * apply get_absent. simpl. apply lookup_delete_eq.
      * intros key' Hne. by apply lookup_delete_ne.
    + split; [split; [done|by intros [? ?]]|]. split; [by apply get_absent|done].
  - intros test key. split; intros Htest.
    + apply get_absent. simpl. apply map_lookup_filter_None. right.
      intros it _. simpl. by rewrite Htest.
    + simpl. destruct (SmartCache.cache c !! key) as [it|] eqn:Hkey.
      * apply map_lookup_filter_Some. by split.
      * apply map_lookup_filter_None. by left.
Qed.

(** A sweep is invisible to later lookups: [get] returns what it would have
    returned without the sweep.  What the sweep leaves are exactly the entries
    that had not expired. *)
Theorem cleanup_is_transparent (c : SmartCache.t) (now later : Z) (key : string) :
  now ≤ later →
  (SmartCache.get later key (SmartCache.cleanup now c)).1
  = (SmartCache.get later key c).1
  ∧ (∀ k it,
       SmartCache.cache (SmartCache.cleanup now c) !! k = Some it
       ↔ SmartCache.cache c !! k = Some it ∧ now ≤ SmartCache.expiry it).
Proof.
  intros Hlater. split.
  - unfold SmartCache.get, SmartCache.cleanup. simpl.
    destruct (SmartCache.enabled c); simpl; [|done].
    destruct (SmartCache.cache c !! key) as [it|] eqn:Hkey.
    + destruct (SmartCache.expiry it <? now) eqn:Hold.
      * assert (filter (λ kv, (SmartCache.expiry kv.2 <? now) = false)
                  (SmartCache.cache c) !! key = None) as ->.
        { apply map_lookup_filter_None. right. intros it' Hit'.
          rewrite Hkey in Hit'. injection Hit' as <-. simpl. by rewrite Hold. }
        simpl. by assert (SmartCache.expiry it <? later = true) as -> by lia.
      * assert (filter (λ kv, (SmartCache.expiry kv.2 <? now) = false)
                  (SmartCache.cache c) !! key = Some it) as ->.
        { apply map_lookup_filter_Some. by split. }
        destruct (SmartCache.expiry it <? later); [done|].
        by destruct (SmartCache.isNegative it).
    + assert (filter (λ kv, (SmartCache.expiry kv.2 <? now) = false)
                (SmartCache.cache c) !! key = None) as ->; [|done].
      apply map_lookup_filter_None. by left.
  - intros k it. unfold SmartCache.cleanup. simpl.
    rewrite map_lookup_filter_Some. simpl. split; intros [Hk Hexp]; (split; [done|lia]).
Qed.

(** An entry that expired at 50 is swept at 100; a lookup at 120 misses with
    or without the sweep. *)
Lemma cleanup_is_transparent_witness :
  (SmartCache.get 120 "k"
     (SmartCache.cleanup 100
        (SmartCache.set 0 "k" (VNum 1) (Some 50) (SmartCache.new 300000)))).1
  = (SmartCache.get 120 "k"
       (SmartCache.set 0 "k" (VNum 1) (Some 50) (SmartCache.new 300000))).1
  ∧ (∀ k it,
       SmartCache.cache
         (SmartCache.cleanup 100
            (SmartCache.set 0 "k" (VNum 1) (Some 50) (SmartCache.new 300000))) !! k
       = Some it
       ↔ SmartCache.cache
           (SmartCache.set 0 "k" (VNum 1) (Some 50) (SmartCache.new 300000)) !! k
         = Some it ∧ 100 ≤ SmartCache.expiry it).
Proof.
  apply (cleanup_is_transparent
           (SmartCache.set 0 "k" (VNum 1) (Some 50) (SmartCache.new 300000))
           100 120 "k").
  lia.
Defined.

(** Every lookup of an enabled cache is counted exactly once, as a hit, a
    miss or a negative hit, and nothing but lookups and [clear] moves the
    counters; a disabled cache stores nothing and answers every lookup with
    [null]. *)
Theorem lookups_are_counted_once (c : SmartCache.t) (now : Z) (key : string)
    (v : jsval) (e : string) (ttl : option Z) :
  (SmartCache.enabled c = true →
   lookups (SmartCache.get now key c).2 = lookups c + 1)
  ∧ (SmartCache.enabled c = false →
     SmartCache.get now key c = (VNull, c)
     ∧ SmartCache.set now key v ttl c = c
     ∧ SmartCache.setNegative now key e ttl c = c)
  ∧ lookups (SmartCache.set now key v ttl c) = lookups c
  ∧ lookups (SmartCache.setNegative now key e ttl c) = lookups c
  ∧ lookups (SmartCache.delete key c).2 = lookups c
  ∧ lookups (SmartCache.cleanup now c) = lookups c
  ∧ lookups (SmartCache.clear c) = 0.
Proof.
  unfold lookups. repeat split.
  - intros Hen. unfold SmartCache.get. rewrite Hen. simpl.
    destruct (SmartCache.cache c !! key) as [it|]; simpl; [|lia].
    destruct (SmartCache.expiry it <? now); simpl; [lia|].
    destruct (SmartCache.isNegative it); simpl; lia.
  - unfold SmartCache.get. by rewrite H.
  - unfold SmartCache.set. by rewrite H.
  - unfold SmartCache.setNegative. by rewrite H.
  - unfold SmartCache.set. by destruct (SmartCache.enabled c).
  - unfold SmartCache.setNegative.
    by destruct (SmartCache.enabled c), (SmartCache.negativeEnabled c).
  - unfold SmartCache.delete. by destruct (SmartCache.cache c !! key).
Qed.

(** Every entry of a cache has one polarity, from the constructor on and
    through every operation of the class. *)
Theorem polarity_is_kept (c : SmartCache.t) (now : Z) (key : string)
    (v : jsval) (e : string) (ttl : option Z) (test : string → bool) :
  polarized (SmartCache.new now)
  ∧ (polarized c →
     polarized (SmartCache.set now key v ttl c)
     ∧ polarized (SmartCache.setNegative now key e ttl c)
     ∧ polarized (SmartCache.get now key c).2
     ∧ polarized (SmartCache.delete key c).2
     ∧ polarized (SmartCache.deletePattern test c)
     ∧ polarized (SmartCache.cleanup now c)
     ∧ polarized (SmartCache.clear c)).
Proof.
  split; [by intros k it Hk|].
  intros Hc. unfold polarized in *. repeat split.
  - intros k it. unfold SmartCache.set.
    destruct (SmartCache.enabled c); simpl; [|apply Hc].
    destruct (decide (key = k)) as [->|Hne].
    + rewrite lookup_insert_eq. intros [= <-]. unfold item_polarity. simpl.
      split; [done|]. by exists 0.
    + rewrite lookup_insert_ne by done. apply Hc.
  - intros k it. unfold SmartCache.setNegative.
    destruct (negb _ || negb _); simpl; [apply Hc|].
    destruct (decide (key = k)) as [->|Hne].
    + rewrite lookup_insert_eq. intros [= <-]. unfold item_polarity. simpl. eauto.
    + rewrite lookup_insert_ne by done. apply Hc.
  - intros k it. unfold SmartCache.get.
    destruct (SmartCache.enabled c); simpl; [|apply Hc].
    destruct (SmartCache.cache c !! key) as [it0|] eqn:Hkey; simpl; [|apply Hc].
    destruct (SmartCache.expiry it0 <? now); simpl.
    { intros Hk. apply lookup_delete_Some in Hk as [_ Hk]. by apply (Hc k). }
    destruct (SmartCache.isNegative it0) eqn:Hneg; simpl; [apply Hc|].
    destruct (decide (key = k)) as [->|Hne].
    + rewrite lookup_insert_eq. intros [= <-].
      specialize (Hc k it0 Hkey). unfold item_polarity in *. simpl.
      rewrite Hneg in *. destruct Hc as (Herr & h & Hh & Hpos).
      split; [done|]. rewrite Hh. exists (h + 1). split; [done|lia].
    + rewrite lookup_insert_ne by done. apply Hc.
  - intros k it. unfold SmartCache.delete.
    destruct (SmartCache.cache c !! key); simpl; [|apply Hc].
    intros Hk. apply lookup_delete_Some in Hk as [_ Hk]. by apply (Hc k).
  - intros k it Hk. apply map_lookup_filter_Some in Hk as [Hk _]. by apply (Hc k).
  - intros k it Hk. apply map_lookup_filter_Some in Hk as [Hk _]. by apply (Hc k).
  - intros k it Hk. done.
Qed.

(** The last write to a key decides what a lookup within its lifetime
    returns: a cached failure replaces a cached payload and a payload replaces
    a cached failure.  A write to one key never changes what a lookup of
    another key returns. *)
Theorem last_write_wins (c : SmartCache.t) (key key' : string) (v : jsval)
    (e : string) (ttl nttl : option Z) (t0 t1 later : Z) :
  SmartCache.enabled c = true →
  SmartCache.negativeEnabled c = true →
  (later ≤ t1 + default CONFIG.CACHE_TTL.NEGATIVE nttl →
   (SmartCache.get later key
      (SmartCache.setNegative t1 key e nttl (SmartCache.set t0 key v ttl c))).1
   = SmartCache.negative_hit (Some e))
  ∧ (later ≤ t1 + SmartCache.ttl_or_default ttl c →
     (SmartCache.get later key
        (SmartCache.set t1 key v ttl (SmartCache.setNegative t0 key e nttl c))).1
     = v)
  ∧ (key' ≠ key →
     (SmartCache.get later key' (SmartCache.set t0 key v ttl c)).1
     = (SmartCache.get later key' c).1
     ∧ (SmartCache.get later key' (SmartCache.setNegative t0 key e nttl c)).1
       = (SmartCache.get later key' c).1).
Proof.
  intros Hen Hneg. repeat split.
  - intros Hlive.
    apply get_setNegative_live; [| |done]; unfold SmartCache.set; by rewrite Hen.
  - intros Hlive.
    assert (SmartCache.enabled (SmartCache.setNegative t0 key e nttl c) = true) as Hen'.
    { unfold SmartCache.setNegative. by rewrite Hen, Hneg. }
    apply get_set_live; [done|].
    unfold SmartCache.setNegative, SmartCache.ttl_or_default in *.
    rewrite Hen, Hneg. simpl. done.
  - apply get_same_entry.
    + unfold SmartCache.set. by rewrite Hen.
    + unfold SmartCache.set. rewrite Hen. simpl. by rewrite lookup_insert_ne.
  - apply get_same_entry.
    + unfold SmartCache.setNegative. by rewrite Hen, Hneg.
    + unfold SmartCache.setNegative. rewrite Hen, Hneg. simpl.
      by rewrite lookup_insert_ne.
Qed.

(** A payload cached at 0 is replaced by a failure at 10, and the other way
    round; the key ["other"] is not affected. *)
Lemma last_write_wins_witness :
  (15 ≤ 10 + default CONFIG.CACHE_TTL.NEGATIVE None →
   (SmartCache.get 15 "k"
      (SmartCache.setNegative 10 "k" "down" None
         (SmartCache.set 0 "k" (VNum 1) None (SmartCache.new 60000)))).1
   = SmartCache.negative_hit (Some "down"))
  ∧ (15 ≤ 10 + SmartCache.ttl_or_default None (SmartCache.new 60000) →
     (SmartCache.get 15 "k"
        (SmartCache.set 10 "k" (VNum 1) None
           (SmartCache.setNegative 0 "k" "down" None (SmartCache.new 60000)))).1
     = VNum 1)
  ∧ ("other" ≠ "k" →
     (SmartCache.get 15 "other"
        (SmartCache.set 0 "k" (VNum 1) None (SmartCache.new 60000))).1
     = (SmartCache.get 15 "other" (SmartCache.new 60000)).1
     ∧ (SmartCache.get 15 "other"
          (SmartCache.setNegative 0 "k" "down" None (SmartCache.new 60000))).1
       = (SmartCache.get 15 "other" (SmartCache.new 60000)).1).
Proof.
  apply (last_write_wins (SmartCache.new 60000) "k" "other" (VNum 1) "down"
           None None 0 10 15); reflexivity.
Defined.

(** ** Rate limiter: waiting time, isolation, sweeping *)

Section RateLimiterMore.

Import RateLimiter.

Lemma limiter_after_config (calls : list call) : ∀ rl,
  windowMs (limiter_after calls rl) = windowMs rl
  ∧ maxRequests (limiter_after calls rl) = maxRequests rl
  ∧ enabled (limiter_after calls rl) = enabled rl.
Proof.
  induction calls as [|c rest IH]; intros rl; simpl; [done|].
  destruct (IH (checkLimit (at_time c) (sweeping c) (who c) rl).2) as (-> & -> & ->).
  apply checkLimit_config.
Qed.

Lemma recent_length (window now : Z) (times : list Z) :
  (List.length (recent window now times) ≤ List.length times)%nat.
Proof. unfold recent. apply List.filter_length_le. Qed.

(** No call stores more timestamps for an identifier than the ceiling. *)
Lemma checkLimit_bounded now sw id rl :
  (∀ id', Z.of_nat (List.length (userRequests id' rl)) ≤ Z.max 0 (maxRequests rl)) →
  ∀ id', Z.of_nat (List.length (userRequests id' (checkLimit now sw id rl).2))
         ≤ Z.max 0 (maxRequests rl).
Proof.
  intros Hb id'. unfold checkLimit.
  destruct (negb (enabled rl)); simpl; [apply Hb|].
  destruct (_ >=? _) eqn:Hfull; simpl; [apply Hb|].
  set (rl1 := with_requests _ rl).
  assert (Z.of_nat (List.length (userRequests id' rl1)) ≤ Z.max 0 (maxRequests rl))
    as Hrl1.
  { unfold rl1. rewrite userRequests_insert.
    destruct (String.eqb id id'); [|apply Hb].
    rewrite length_app. simpl. lia. }
  destruct (draw sw); [|done].
  rewrite userRequests_cleanup.
  pose proof (recent_length (windowMs rl1) (sweep_now sw) (userRequests id' rl1)).
  lia.
Qed.

Lemma limiter_after_bounded (calls : list call) : ∀ rl,
  (∀ id, Z.of_nat (List.length (userRequests id rl)) ≤ Z.max 0 (maxRequests rl)) →
  ∀ id, Z.of_nat (List.length (userRequests id (limiter_after calls rl)))
        ≤ Z.max 0 (maxRequests rl).
Proof.
  induction calls as [|c rest IH]; intros rl Hb id; simpl; [apply Hb|].
  destruct (checkLimit_config (at_time c) (sweeping c) (who c) rl) as (_ & HM & _).
  rewrite <- HM. apply IH. intros id'. rewrite HM. by apply checkLimit_bounded.
Qed.

(** When pruning removes nothing, every timestamp is recent. *)
Lemma recent_keeps_all (window now : Z) (times : list Z) :
  List.length (recent window now times) = List.length times →
  ∀ t, In t times → now - t < window.
Proof.
  unfold recent. induction times as [|t0 times IH]; simpl; [done|].
  pose proof (List.filter_length_le (λ time, now - time <? window) times) as Hle.
  destruct (now - t0 <? window) eqn:Ht0; simpl; intros Hlen t [<-|Hin].
  - lia.
  - apply IH; [lia|done].
  - lia.
  - lia.
Qed.

Lemma oldest_is_stored (first : Z) (rest : list Z) :
  In (fold_left Z.min rest first) (first :: rest).
Proof.
  revert first. induction rest as [|t rest IH]; intros first; simpl; [by left|].
  destruct (IH (Z.min first t)) as [Heq|Hin].
  - rewrite <- Heq. destruct (Z.min_spec first t) as [[_ ->]|[_ ->]]; auto.
  - auto.
Qed.

Lemma ceil_seconds_positive (ms : Z) : 1 ≤ ms → 1 ≤ ceil_seconds ms.
Proof.
  intros Hms. unfold ceil_seconds.
  assert (- ms / 1000 < 0) by (apply Z.div_lt_upper_bound; lia). lia.
Qed.

End RateLimiterMore.

(** Whenever a limiter that started empty rejects a call, the waiting time it
    reports at that moment is at least one second (ceiling of at least 1). *)
Theorem rejected_caller_must_wait (window max : Z) (calls : list call)
    (now : Z) (sw : RateLimiter.sweep) (identifier : string) :
  1 ≤ max →
  (RateLimiter.checkLimit now sw identifier
     (limiter_after calls (RateLimiter.new window max))).1 = false →
  1 ≤ RateLimiter.getRemainingTime now identifier
        (limiter_after calls (RateLimiter.new window max)).
Proof.
  intros Hmax Hrej.
  set (rl := limiter_after calls (RateLimiter.new window max)) in *.
  destruct (limiter_after_config calls (RateLimiter.new window max))
    as (HW & HM & HE). fold rl in HW, HM, HE. simpl in HW, HM, HE.
  pose proof (limiter_after_bounded calls (RateLimiter.new window max)) as Hb.
  fold rl in Hb. simpl in Hb.
  assert (Z.of_nat (List.length (RateLimiter.userRequests identifier rl)) ≤ max)
    as Hstored.
  { etransitivity; [apply Hb|lia]. intros id. unfold RateLimiter.userRequests.
    simpl. rewrite lookup_empty. simpl. lia. }
  unfold RateLimiter.checkLimit in Hrej. rewrite HE in Hrej. simpl in Hrej.
  rewrite HW, HM in Hrej.
  destruct (_ >=? _) eqn:Hfull; [|discriminate].
  apply Z.geb_le in Hfull.
  pose proof (recent_length window now (RateLimiter.userRequests identifier rl)) as Hle.
  assert (∀ t, In t (RateLimiter.userRequests identifier rl) → now - t < window)
    as Hall.
  { apply recent_keeps_all. lia. }
  unfold RateLimiter.getRemainingTime.
  destruct (RateLimiter.userRequests identifier rl) as [|first rest] eqn:Hlist.
  { cbn in Hle, Hfull. lia. }
  pose proof (Hall _ (oldest_is_stored first rest)) as Hold.
  rewrite HW. pose proof (ceil_seconds_positive
                            (fold_left Z.min rest first + window - now)).
  lia.
Qed.

(** The fourth call of the burst is rejected and told to wait. *)
Lemma rejected_caller_must_wait_witness :
  1 ≤ RateLimiter.getRemainingTime 3 "a"
        (limiter_after (firstn 3 burst) (RateLimiter.new 60000 3)).
Proof.
  apply (rejected_caller_must_wait 60000 3 (firstn 3 burst) 3
           (RateLimiter.Sweep false 3) "a").
  - lia.
  - reflexivity.
Defined.

(** Callers do not share a budget: a call of one identifier, admitted or
    not, with or without the sweep, never changes the verdict a later call
    of another identifier gets. *)
Theorem callers_are_isolated (rl : RateLimiter.t) (a b : string)
    (now later : Z) (sw sw' : RateLimiter.sweep) :
  RateLimiter.enabled rl = true →
  a ≠ b →
  now ≤ RateLimiter.sweep_now sw →
  RateLimiter.sweep_now sw ≤ later →
  (RateLimiter.checkLimit later sw' b
     (RateLimiter.checkLimit now sw a rl).2).1
  = (RateLimiter.checkLimit later sw' b rl).1.
Proof.
  intros Hen Hab Hsw Hlater.
  destruct (checkLimit_config now sw a rl) as (HW & HM & HE).
  pose proof (checkLimit_stored now sw a b rl later Hen Hsw Hlater) as Hstored.
  assert (String.eqb a b = false) as Hne by by apply String.eqb_neq.
  rewrite Hne, andb_false_r, app_nil_r in Hstored.
  unfold RateLimiter.checkLimit at 1 3.
  rewrite HE, HW, HM, Hen. simpl. rewrite Hstored.
  by destruct (_ >=? _).
Qed.

(** Caller ["a"] exhausts the window; caller ["b"] is admitted all the same. *)
Lemma callers_are_isolated_witness :
  (RateLimiter.checkLimit 20 (RateLimiter.Sweep false 20) "b"
     (RateLimiter.checkLimit 10 (RateLimiter.Sweep true 10) "a" full_window).2).1
  = (RateLimiter.checkLimit 20 (RateLimiter.Sweep false 20) "b" full_window).1.
Proof.
  apply (callers_are_isolated full_window "a" "b" 10 20
           (RateLimiter.Sweep true 10) (RateLimiter.Sweep false 20)).
  - reflexivity.
  - discriminate.
  - simpl. lia.
  - simpl. lia.
Defined.

(** The limiter's sweep reclaims every identifier without a recent
    timestamp and keeps only recent timestamps for the others, and no later
    verdict depends on whether the sweep has run. *)
Theorem sweep_reclaims_without_changing_verdicts (rl : RateLimiter.t)
    (now later : Z) (sw : RateLimiter.sweep) (identifier : string) :
  now ≤ later →
  (RateLimiter.checkLimit later sw identifier (RateLimiter.cleanup now rl)).1
  = (RateLimiter.checkLimit later sw identifier rl).1
  ∧ (∀ id times,
       RateLimiter.requests (RateLimiter.cleanup now rl) !! id = Some times →
       times ≠ [] ∧ ∀ t, In t times → now - t < RateLimiter.windowMs rl).
Proof.
  intros Hlater. split.
  - unfold RateLimiter.checkLimit.
    change (RateLimiter.enabled (RateLimiter.cleanup now rl))
      with (RateLimiter.enabled rl).
    destruct (negb (RateLimiter.enabled rl)); simpl; [done|].
    rewrite userRequests_cleanup, recent_recent by done.
    by destruct (_ >=? _).
  - intros id times. unfold RateLimiter.cleanup. simpl. rewrite lookup_omap.
    destruct (RateLimiter.requests rl !! id) as [stored|]; simpl; [|done].
    destruct (RateLimiter.recent (RateLimiter.windowMs rl) now stored)
      as [|t0 kept] eqn:Hrecent; [done|].
    intros [= <-]. split; [done|].
    intros t Hin. rewrite <- Hrecent in Hin. unfold RateLimiter.recent in Hin.
    apply List.filter_In in Hin as [_ Ht]. lia.
Qed.

(** A minute after the burst the sweep drops caller ["a"] altogether. *)
Lemma sweep_reclaims_without_changing_verdicts_witness :
  (RateLimiter.checkLimit 70000 (RateLimiter.Sweep false 70000) "a"
     (RateLimiter.cleanup 65000 full_window)).1
  = (RateLimiter.checkLimit 70000 (RateLimiter.Sweep false 70000) "a" full_window).1
  ∧ (∀ id times,
       RateLimiter.requests (RateLimiter.cleanup 65000 full_window) !! id = Some times →
       times ≠ [] ∧ ∀ t, In t times → 65000 - t < RateLimiter.windowMs full_window).
Proof.
  apply (sweep_reclaims_without_changing_verdicts full_window 65000 70000
           (RateLimiter.Sweep false 70000) "a").
  lia.
Defined.

(** ** Generated CPF numbers and formatted phone numbers *)

Section StringFacts.

Lemma length_append (a b : string) :
  String.length (a ++ b) = (String.length a + String.length b)%nat.
Proof. induction a as [|c a IH]; simpl; [done|]. by rewrite IH. Qed.

Lemma all_chars_append (keep : ascii → bool) (a b : string) :
  all_chars keep (a ++ b) = all_chars keep a && all_chars keep b.
Proof.
  induction a as [|c a IH]; simpl; [done|]. by rewrite IH, andb_assoc.
Qed.

Lemma filter_chars_append (keep : ascii → bool) (a b : string) :
  filter_chars keep (a ++ b) = filter_chars keep a ++ filter_chars keep b.
Proof.
  induction a as [|c a IH]; simpl; [done|].
  destruct (keep c); simpl; by rewrite IH.
Qed.

Lemma filter_chars_all (keep : ascii → bool) (s : string) :
  all_chars keep s = true → filter_chars keep s = s.
Proof.
  induction s as [|c s IH]; simpl; [done|].
  intros [Hc Hs]%andb_prop. rewrite Hc. by rewrite IH.
Qed.

Lemma substring_whole (s : string) (m : nat) :
  (String.length s ≤ m)%nat → String.substring 0 m s = s.
Proof.
  revert m. induction s as [|c s IH]; intros m Hm; simpl in *.
  { by destruct m. }
  destruct m as [|m]; [lia|]. rewrite IH; [done|lia].
Qed.

Lemma all_chars_repeat (keep : ascii → bool) (c : ascii) (n : nat) :
  keep c = true → all_chars keep (string_of_list_ascii (repeat c n)) = true.
Proof. intros Hc. induction n as [|n IH]; simpl; [done|]. by rewrite Hc. Qed.

Lemma length_repeat (c : ascii) (n : nat) :
  String.length (string_of_list_ascii (repeat c n)) = n.
Proof. induction n as [|n IH]; simpl; [done|]. by rewrite IH. Qed.

Lemma uint_digits (d : Decimal.uint) :
  all_chars is_digit (NilEmpty.string_of_uint d) = true.
Proof. induction d; simpl; done. Qed.

(** A non-negative integer is rendered with digits only. *)
Lemma show_Z_digits (n : N) : all_chars is_digit (show_Z (Z.of_N n)) = true.
Proof.
  unfold show_Z. destruct n as [|p]; simpl; [done|].
  unfold NilZero.string_of_uint. pose proof (uint_digits (Pos.to_uint p)).
  by destruct (Pos.to_uint p).
Qed.

(** A value from 0 to 9 is rendered as its one digit. *)
Lemma show_Z_digit (d : Z) :
  0 ≤ d ≤ 9 → show_Z d = String (ascii_of_nat (48 + Z.to_nat d)) EmptyString.
Proof.
  intros Hd.
  assert (d = 0 ∨ d = 1 ∨ d = 2 ∨ d = 3 ∨ d = 4 ∨ d = 5 ∨ d = 6 ∨ d = 7
          ∨ d = 8 ∨ d = 9) as Hcases by lia.
  repeat destruct Hcases as [->|Hcases]; try reflexivity. by subst.
Qed.

Lemma digito_range (soma : Z) : 0 ≤ Validators.digito soma ≤ 9.
Proof.
  unfold Validators.digito. pose proof (Z.mod_pos_bound soma 11).
  destruct (_ >? 9) eqn:Hd; lia.
Qed.

End StringFacts.

Section GeneratedCpf.

Import Validators.

Lemma format_cpf_eq (s : string) :
  format_cpf s =
    if all_chars is_digit (String.substring 0 11 s)
       && (String.length (String.substring 0 11 s) =? 11)%nat
    then
      String.substring 0 3 s ++ "." ++ String.substring 3 3 s ++ "."
      ++ String.substring 6 3 s ++ "-" ++ String.substring 9 2 s
      ++ String.substring 11 (String.length s - 11) s
    else
      match s with
      | EmptyString => EmptyString
      | String c rest => String c (format_cpf rest)
      end.
Proof. by destruct s. Qed.

(** Eleven digits are punctuated as [ddd.ddd.ddd-dd]; removing the
    punctuation gives the digits back. *)
Lemma format_cpf_eleven (s : string) :
  String.length s = 11%nat → all_chars is_digit s = true →
  strip_non_digits (format_cpf s) = s ∧ String.length (format_cpf s) = 14%nat.
Proof.
  intros Hlen Hall. rewrite format_cpf_eq.
  rewrite (substring_whole s 11) by lia. rewrite Hall, Hlen. simpl andb. cbv iota.
  split.
  - unfold strip_non_digits. rewrite !filter_chars_append.
    change (filter_chars is_digit ".") with EmptyString.
    change (filter_chars is_digit "-") with EmptyString.
    rewrite !filter_chars_all by by apply all_chars_substring.
    do 12 (destruct s as [|? s]; try discriminate). reflexivity.
  - do 12 (destruct s as [|? s]; try discriminate). reflexivity.
Qed.

(** The base of a generated number: nine digits. *)
Lemma base_shape (timestamp : string) :
  all_chars is_digit timestamp = true →
  String.length (padStart0 9 (slice_last 9 timestamp)) = 9%nat
  ∧ all_chars is_digit (padStart0 9 (slice_last 9 timestamp)) = true.
Proof.
  intros Hall. unfold padStart0, slice_last.
  rewrite length_append, length_repeat, all_chars_append.
  rewrite all_chars_repeat by done.
  rewrite all_chars_substring by done. split; [|done].
  destruct (Nat.le_gt_cases 9 (String.length timestamp)) as [Hlong|Hshort].
  - rewrite length_substring by lia. lia.
  - replace (String.length timestamp - 9)%nat with 0%nat by lia.
    rewrite substring_whole by lia. lia.
Qed.

Lemma is_digit_cases (c : ascii) :
  is_digit c = true →
  In c (list_ascii_of_string "0123456789").
Proof.
  destruct c as [[] [] [] [] [] [] [] []]; vm_compute; intros H;
    first [discriminate H | tauto].
Qed.

(** Appending the check digits to a nine-digit base gives a number the
    validator accepts, unless the base is one digit repeated: then the check
    digits repeat it too and the validator refuses the number. *)
Lemma cpf_of_base (base : string) :
  String.length base = 9%nat → all_chars is_digit base = true →
  cpf (format_cpf (base ++ show_Z (check_digits base).1
                        ++ show_Z (check_digits base).2))
  = negb (repeated base).
Proof.
  intros Hlen Hall.
  pose proof (digito_range (soma_loop base 9 10)) as Hd1.
  pose proof (digito_range (soma_loop base 9 11
                            + digito (soma_loop base 9 10) * 2)) as Hd2.
  destruct (repeated base) eqn:Hrep.
  - (* one digit repeated: ten closed cases *)
    do 10 (destruct base as [|? base]; try discriminate). clear Hlen.
    simpl in Hall. unfold repeated in Hrep. simpl in Hrep.
    repeat match goal with
           | H : _ && _ = true |- _ => apply andb_prop in H as [? ?]
           end.
    repeat match goal with
           | H : Ascii.eqb _ _ = true |- _ => apply Ascii.eqb_eq in H; subst
           end.
    match goal with
    | H : is_digit ?c = true |- _ => apply is_digit_cases in H; simpl in H
    end.
    repeat match goal with
           | H : _ ∨ _ |- _ => destruct H as [<-|H]
           end; try reflexivity. done.
  - set (d1 := (check_digits base).1). set (d2 := (check_digits base).2).
    assert (0 ≤ d1 ≤ 9) as Hr1 by apply Hd1.
    assert (0 ≤ d2 ≤ 9) as Hr2 by apply Hd2.
    assert (d2 = digito (soma_loop base 9 11 + d1 * 2)) as Hd2eq by done.
    assert (d1 = digito (soma_loop base 9 10)) as Hd1eq by done.
    clearbody d1 d2.
    rewrite (show_Z_digit d1), (show_Z_digit d2) by done.
    set (a1 := ascii_of_nat (48 + Z.to_nat d1)).
    set (a2 := ascii_of_nat (48 + Z.to_nat d2)).
    assert (is_digit a1 = true ∧ Z.of_nat (code a1) - 48 = d1) as [Ha1 Hc1].
    { unfold a1, is_digit, code. rewrite nat_ascii_embedding by lia.
      split; [|lia].
      apply andb_true_intro; split; apply Nat.leb_le; lia. }
    assert (is_digit a2 = true ∧ Z.of_nat (code a2) - 48 = d2) as [Ha2 Hc2].
    { unfold a2, is_digit, code. rewrite nat_ascii_embedding by lia.
      split; [|lia].
      apply andb_true_intro; split; apply Nat.leb_le; lia. }
    clearbody a1 a2.
    set (number := base ++ String a1 EmptyString ++ String a2 EmptyString).
    assert (String.length number = 11%nat) as Hnum.
    { unfold number. rewrite !length_append, Hlen. done. }
    assert (all_chars is_digit number = true) as Hdigits.
    { unfold number. rewrite !all_chars_append, Hall. simpl. by rewrite Ha1, Ha2. }
    destruct (format_cpf_eleven number Hnum Hdigits) as [Hstrip Hfmt].
    rewrite cpf_unfold, Hstrip, Hnum, soma_loop_ten.
    assert (String.eqb (format_cpf number) "" = false) as ->.
    { destruct (format_cpf number); [discriminate Hfmt|done]. }
    assert (String.substring 0 9 number = base) as Hbase.
    { unfold number.
      do 10 (destruct base as [|? base]; try discriminate). reflexivity. }
    rewrite <- !(soma_loop_base number), Hbase, <- Hd1eq.
    assert (parseInt_at number 9 = d1) as ->.
    { unfold number.
      do 10 (destruct base as [|? base]; try discriminate). exact Hc1. }
    assert (parseInt_at number 10 = d2) as ->.
    { unfold number.
      do 10 (destruct base as [|? base]; try discriminate). exact Hc2. }
    rewrite <- Hd2eq, !Z.eqb_refl.
    assert (repeated number = false) as ->; [|done].
    unfold number. clear - Hrep Hlen.
    do 10 (destruct base as [|? base]; try discriminate).
    unfold repeated in *. simpl in *.
    destruct (is_digit _); simpl in *; [|done].
    repeat (destruct (Ascii.eqb _ _); simpl in *; [|done]). done.
Qed.

End GeneratedCpf.

(** [generateUniqueCPF] always returns a number punctuated as
    [ddd.ddd.ddd-dd] with eleven digits, and [Validators.cpf] accepts it
    unless the last nine digits of the clock reading are one digit repeated:
    then the check digits repeat that digit as well and the validator
    refuses the generated number (as for the reading 1777777777777). *)
Theorem generated_cpf_is_checked (now : N) :
  String.length (generateUniqueCPF now) = 14%nat
  ∧ String.length (strip_non_digits (generateUniqueCPF now)) = 11%nat
  ∧ Validators.cpf (generateUniqueCPF now)
    = negb (Validators.repeated (padStart0 9 (slice_last 9 (show_Z (Z.of_N now)))))
  ∧ generateUniqueCPF 1777777777777 = "777.777.777-77"
  ∧ Validators.cpf (generateUniqueCPF 1777777777777) = false.
Proof.
  destruct (base_shape (show_Z (Z.of_N now)) (show_Z_digits now)) as [Hlen Hall].
  unfold generateUniqueCPF.
  set (base := padStart0 9 (slice_last 9 (show_Z (Z.of_N now)))) in *.
  pose proof (cpf_of_base base Hlen Hall) as Hcpf.
  destruct (check_digits base) as [d1 d2] eqn:Hpair. simpl in Hcpf.
  assert (0 ≤ d1 ≤ 9 ∧ 0 ≤ d2 ≤ 9) as [Hd1 Hd2].
  { unfold check_digits in Hpair. injection Hpair as <- <-.
    split; apply digito_range. }
  assert (String.length (base ++ show_Z d1 ++ show_Z d2) = 11%nat) as Hnum.
  { rewrite (show_Z_digit d1), (show_Z_digit d2) by done.
    rewrite !length_append, Hlen. done. }
  assert (all_chars is_digit (base ++ show_Z d1 ++ show_Z d2) = true) as Hdigits.
  { rewrite !all_chars_append, Hall.
    assert (∀ d, 0 ≤ d ≤ 9 → all_chars is_digit (show_Z d) = true) as Hone.
    { intros d Hd.
      assert (d = 0 ∨ d = 1 ∨ d = 2 ∨ d = 3 ∨ d = 4 ∨ d = 5 ∨ d = 6 ∨ d = 7
              ∨ d = 8 ∨ d = 9) as Hcases by lia.
      repeat destruct Hcases as [->|Hcases]; try reflexivity. by subst. }
    by rewrite !Hone. }
  destruct (format_cpf_eleven _ Hnum Hdigits) as [Hstrip Hfmt].
  repeat split; try done.
  by rewrite Hstrip.
Qed.

(** [formatPhone] only adds punctuation: the digits of its result are the
    digits of its argument, so [Validators.telefone] gives the same verdict
    and the same normalized number before and after formatting; a number of
    eleven digits is laid out as [(dd) ddddd-dddd]. *)
Theorem formatPhone_keeps_digits (phone : string) :
  strip_non_digits (formatPhone phone) = strip_non_digits phone
  ∧ Validators.telefone (formatPhone phone) = Validators.telefone phone
  ∧ (String.length (strip_non_digits phone) = 11%nat →
     formatPhone phone
     = "(" ++ String.substring 0 2 (strip_non_digits phone) ++ ") "
       ++ String.substring 2 5 (strip_non_digits phone) ++ "-"
       ++ String.substring 7 4 (strip_non_digits phone)).
Proof.
  assert (strip_non_digits (formatPhone phone) = strip_non_digits phone) as Hstrip.
  { unfold formatPhone. destruct (String.eqb_spec phone "") as [->|Hne]; [done|].
    pose proof (all_chars_filter is_digit phone) as Hall.
    fold (strip_non_digits phone) in Hall.
    set (numbers := strip_non_digits phone) in *.
    destruct (String.length numbers =? 11)%nat eqn:H11.
    { apply Nat.eqb_eq in H11. unfold strip_non_digits.
      rewrite !filter_chars_append.
      change (filter_chars is_digit "(") with EmptyString.
      change (filter_chars is_digit ") ") with EmptyString.
      change (filter_chars is_digit "-") with EmptyString.
      rewrite !filter_chars_all by by apply all_chars_substring.
      clear Hall. clearbody numbers.
      do 12 (destruct numbers as [|? numbers]; try discriminate). reflexivity. }
    destruct (String.length numbers =? 10)%nat eqn:H10; [|done].
    apply Nat.eqb_eq in H10. unfold strip_non_digits.
    rewrite !filter_chars_append.
    change (filter_chars is_digit "(") with EmptyString.
    change (filter_chars is_digit ") ") with EmptyString.
    change (filter_chars is_digit "-") with EmptyString.
    rewrite !filter_chars_all by by apply all_chars_substring.
    clear Hall H11. clearbody numbers.
    do 11 (destruct numbers as [|? numbers]; try discriminate). reflexivity. }
  split; [done|]. split.
  - unfold Validators.telefone. rewrite Hstrip.
    assert (String.eqb (formatPhone phone) "" = String.eqb phone "") as ->; [|done].
    unfold formatPhone. destruct (String.eqb_spec phone "") as [->|Hne]; [done|].
    destruct (_ =? 11)%nat; [done|]. destruct (_ =? 10)%nat; [done|].
    by apply String.eqb_neq.
  - intros H11. unfold formatPhone.
    destruct (String.eqb_spec phone "") as [->|Hne]; [discriminate H11|].
    rewrite H11. done.
Qed.

(** ** Upstream client under any upstream behaviour *)

Section ApiRequestAlways.

Variables (endpoint method : string) (data : option string) (retries : Z).

Lemma footprint_refl (r : request) (w : World) : footprint r 0 w w.
Proof.
  unfold footprint. repeat split; try done; try lia.
  exists []. by rewrite app_nil_r.
Qed.

Lemma footprint_trans (r : request) (n m : nat) (w1 w2 w3 : World) :
  footprint r n w1 w2 → footprint r m w2 w3 → footprint r (n + m) w1 w3.
Proof.
  intros (U1 & C1 & P1 & S1 & R1 & M1 & T1 & E1 & N1 & Q1 & evs1 & Tr1 & A1 & F1)
         (U2 & C2 & P2 & S2 & R2 & M2 & T2 & E2 & N2 & Q2 & evs2 & Tr2 & A2 & F2).
  unfold footprint. repeat split; try congruence; try lia.
  exists (evs1 ++ evs2)%list. repeat split.
  - by rewrite Tr2, Tr1, <- app_assoc.
  - by rewrite attempts_app, A1, A2.
  - intros r' [Hin|Hin]%in_app_or; auto.
Qed.

Lemma footprint_fetch (r : request) (w : World) :
  footprint r 1 w (fetch r w).2.
Proof.
  unfold fetch, footprint.
  destruct (upstream w (sent w) r) as [latency st txt js|latency name msg|];
    repeat match goal with |- context [if ?b then _ else _] => destruct b end;
    simpl; (repeat split; try done; try lia;
            exists [Fetch r]; repeat split; intros r' [[= <-]|[]]; done).
Qed.

Lemma footprint_sleep (r : request) (ms : Z) (w : World) :
  footprint r 0 w (sleep ms w).2.
Proof.
  unfold sleep, footprint. simpl. repeat split; try done; try lia.
  exists [Sleep ms]. repeat split. intros r' [|[]]; done.
Qed.

Lemma setNegative_keeps_switches (now : Z) (k e : string) (ttl : option Z)
    (c : SmartCache.t) :
  SmartCache.enabled (SmartCache.setNegative now k e ttl c) = SmartCache.enabled c
  ∧ SmartCache.negativeEnabled (SmartCache.setNegative now k e ttl c)
    = SmartCache.negativeEnabled c.
Proof.
  unfold SmartCache.setNegative.
  by destruct (negb (SmartCache.enabled c) || negb (SmartCache.negativeEnabled c)).
Qed.

Lemma footprint_setNegative (r : request) (k e : string) (ttl : option Z)
    (w : World) :
  footprint r 0 w (cache_setNegative Financeiro k e ttl w).2.
Proof.
  unfold cache_setNegative, footprint. simpl.
  destruct (setNegative_keeps_switches (clock w) k e ttl (financeiro w)) as [-> ->].
  repeat split; try done; try lia.
  exists []. by rewrite app_nil_r.
Qed.

Lemma footprint_get (r : request) (k : string) (w : World) :
  footprint r 0 w (cache_get Financeiro k w).2.
Proof.
  rewrite cache_get_eq. unfold footprint. simpl.
  destruct (get_keeps_switches (clock w) k (financeiro w)) as [-> ->].
  repeat split; try done; try lia.
  exists []. by rewrite app_nil_r.
Qed.

(** How one pass through the loop body can end, whatever the upstream does:
    it sends exactly one request; it goes round again only before the last
    attempt; it returns only a success; and it throws only at the last
    attempt, a classified error whose message it has just stored as the
    negative entry of the call's key. *)
Lemma attempt_always (attempt : Z) (w : World) :
  let r := try_catch (api_try endpoint method data retries attempt)
             (api_catch endpoint method data retries attempt) w in
  footprint (api_options endpoint method data) 1 w r.2
  ∧ match r.1 with
    | Ok Continue => attempt < retries
    | Ok (Return res) => ∃ result, res = ApiSuccess result
    | Throw e =>
        ¬ attempt < retries
        ∧ ∃ code c,
            e = MCPError code (exn_message e) VNull
            ∧ (code = ErrorCodes.API_ERROR ∨ code = ErrorCodes.TIMEOUT_ERROR)
            ∧ financeiro r.2
              = SmartCache.setNegative (clock r.2)
                  (api_cacheKey endpoint method data) (exn_message e) None c
            ∧ SmartCache.enabled c = SmartCache.enabled (financeiro w)
            ∧ SmartCache.negativeEnabled c
              = SmartCache.negativeEnabled (financeiro w)
    end.
Proof.
  set (opts := api_options endpoint method data).
  set (key := api_cacheKey endpoint method data).
  assert (∀ w1 e ttl, footprint opts 1 w w1 →
            footprint opts 1 w (cache_setNegative Financeiro key e ttl w1).2)
    as Hneg.
  { intros w1 e ttl H1. replace 1%nat with (1 + 0)%nat by lia.
    eapply footprint_trans; [exact H1|apply footprint_setNegative]. }
  assert (∀ w1 ms, footprint opts 1 w w1 → footprint opts 1 w (sleep ms w1).2)
    as Hsleep.
  { intros w1 ms H1. replace 1%nat with (1 + 0)%nat by lia.
    eapply footprint_trans; [exact H1|apply footprint_sleep]. }
  pose proof (footprint_fetch opts w) as Hfetch.
  unfold cache_setNegative in Hneg. unfold sleep in Hsleep.
  cbn [snd get_cache] in Hneg, Hsleep.
  cbv zeta.
  unfold try_catch, api_try, api_catch, api_backoff, mbind, M_bind, mthrow,
    M_throw, mret, M_ret.
  fold opts key.
  destruct (fetch opts w) as [[resp|e] w1] eqn:Hf; simpl in Hfetch.
  - (* the request was answered in time *)
    destruct (negb (ok resp)) eqn:Hok; simpl.
    + destruct ((400 <=? status resp) && (status resp <? 500)) eqn:H4xx; simpl.
      * (* 4xx: stored, thrown, caught *)
        unfold mbind, M_bind, mthrow, M_throw. simpl.
        destruct (attempt <? retries) eqn:Hlt; simpl.
        { split; [|lia]. apply Hsleep, Hneg, Hfetch. }
        split.
        { apply (Hneg (put_cache Financeiro
                         (SmartCache.setNegative (clock w1) key
                            (api_error_message resp) None (financeiro w1)) w1)).
          by apply Hneg. }
        split; [lia|]. exists ErrorCodes.API_ERROR. eexists.
        split; [reflexivity|]. split; [by left|]. simpl.
        split; [reflexivity|].
        destruct (setNegative_keeps_switches (clock w1) key
                    (api_error_message resp) None
                    (financeiro w1)) as [-> ->].
        destruct Hfetch as (_ & _ & _ & _ & _ & _ & _ & -> & -> & _). done.
      * destruct (attempt <? retries) eqn:Hlt; simpl.
        { split; [|lia]. apply Hsleep, Hfetch. }
        split; [by apply Hneg|].
        split; [lia|]. exists ErrorCodes.API_ERROR. eexists.
        split; [reflexivity|]. split; [by left|]. simpl.
        split; [reflexivity|].
        destruct Hfetch as (_ & _ & _ & _ & _ & _ & _ & -> & -> & _). done.
    + destruct (json resp) as [result|]; simpl.
      { split; [exact Hfetch|]. by eexists. }
      unfold mbind, M_bind, mthrow, M_throw. simpl.
      destruct (attempt <? retries) eqn:Hlt; simpl.
      { split; [|lia]. apply Hsleep, Hfetch. }
      split; [by apply Hneg|].
      split; [lia|]. exists ErrorCodes.API_ERROR. eexists.
      split; [reflexivity|]. split; [by left|]. simpl.
      split; [reflexivity|].
      destruct Hfetch as (_ & _ & _ & _ & _ & _ & _ & -> & -> & _). done.
  - (* the request failed or was aborted *)
    unfold mbind, M_bind, mthrow, M_throw.
    destruct (String.eqb (exn_name e) "AbortError");
      destruct (attempt <? retries) eqn:Hlt; simpl.
    + split; [|lia]. apply Hsleep, Hfetch.
    + split; [by apply Hneg|].
      split; [lia|]. exists ErrorCodes.TIMEOUT_ERROR. eexists.
      split; [reflexivity|]. split; [by right|]. simpl.
      split; [reflexivity|].
      destruct Hfetch as (_ & _ & _ & _ & _ & _ & _ & -> & -> & _). done.
    + split; [|lia]. apply Hsleep, Hfetch.
    + split; [by apply Hneg|].
      split; [lia|]. exists ErrorCodes.API_ERROR. eexists.
      split; [reflexivity|]. split; [by left|]. simpl.
      split; [reflexivity|].
      destruct Hfetch as (_ & _ & _ & _ & _ & _ & _ & -> & -> & _). done.
Qed.

(** The retry loop under any upstream behaviour: at most [fuel] requests, all
    of them the call's own request; the result [ApiMaxRetries] only comes
    from a loop condition that fails; an error is thrown only together with
    its negative entry. *)
Lemma api_loop_always (fuel : nat) : ∀ (attempt : Z) (w : World),
  ∃ n, (n ≤ fuel)%nat
    ∧ footprint (api_options endpoint method data) n w
        (api_loop endpoint method data retries fuel attempt w).2
    ∧ match (api_loop endpoint method data retries fuel attempt w).1 with
      | Ok ApiMaxRetries =>
          (n = fuel ∨ retries < attempt + Z.of_nat n)
          ∧ (n = 0%nat ∨ attempt + Z.of_nat n - 1 < retries)
      | Ok (ApiSuccess _) => (1 ≤ n)%nat
      | Throw e =>
          (1 ≤ n)%nat
          ∧ ∃ code c,
              e = MCPError code (exn_message e) VNull
              ∧ (code = ErrorCodes.API_ERROR ∨ code = ErrorCodes.TIMEOUT_ERROR)
              ∧ financeiro (api_loop endpoint method data retries fuel attempt w).2
                = SmartCache.setNegative
                    (clock (api_loop endpoint method data retries fuel attempt w).2)
                    (api_cacheKey endpoint method data) (exn_message e) None c
              ∧ SmartCache.enabled c = SmartCache.enabled (financeiro w)
              ∧ SmartCache.negativeEnabled c
                = SmartCache.negativeEnabled (financeiro w)
      end.
Proof.
  induction fuel as [|fuel IH]; intros attempt w.
  { exists 0%nat. simpl. split; [done|]. split; [apply footprint_refl|].
    split; by left. }
  cbn [api_loop].
  destruct (retries <? attempt) eqn:Hcond.
  { exists 0%nat. simpl. split; [lia|]. split; [apply footprint_refl|].
    split; [right; lia|by left]. }
  pose proof (attempt_always attempt w) as Hstep. cbv zeta in Hstep.
  unfold mbind, M_bind.
  destruct (try_catch _ _ w) as [[[res|]|e] w1]; simpl in Hstep;
    destruct Hstep as [Hfoot Hres].
  - destruct Hres as [result ->]. exists 1%nat. simpl.
    split; [lia|]. split; [exact Hfoot|done].
  - destruct (IH (attempt + 1) w1) as (n & Hn & Hfoot' & Hres').
    exists (1 + n)%nat. split; [lia|].
    split; [by eapply footprint_trans|].
    destruct (api_loop endpoint method data retries fuel (attempt + 1) w1)
      as [[[result|]|e] w2]; simpl in *.
    + lia.
    + destruct Hres' as [Hend Hlast]. split; [lia|]. right.
      destruct Hlast as [->|Hlast]; lia.
    + destruct Hres' as (_ & code & c & He & Hcode & Hfin & Hen & Hne).
      split; [lia|]. exists code, c.
      destruct Hfoot as (_ & _ & _ & _ & _ & _ & _ & Hen1 & Hne1 & _).
      repeat split; try done; congruence.
  - destruct Hres as (_ & code & c & He & Hcode & Hfin & Hen & Hne).
    exists 1%nat. simpl. split; [lia|]. split; [exact Hfoot|].
    split; [lia|]. by exists code, c.
Qed.

Lemma apiRequest_eq (w : World) :
  apiRequest endpoint method data retries w
  = let cached :=
      (SmartCache.get (clock w) (api_cacheKey endpoint method data) (financeiro w)).1 in
    let w0 :=
      put_cache Financeiro
        (SmartCache.get (clock w) (api_cacheKey endpoint method data) (financeiro w)).2
        w in
    if isNegativeHit cached
    then (Throw (MCPError ErrorCodes.API_ERROR
                   (js_toString (js_field "error" cached)) VNull), w0)
    else api_loop endpoint method data retries (Z.to_nat retries) 1 w0.
Proof.
  unfold apiRequest. step_bind. rewrite cache_get_eq. cbv zeta.
  by destruct (isNegativeHit _).
Qed.

(** A live negative entry with a non-empty message is a negative hit. *)
Lemma negative_hit_is_hit (e : string) :
  e ≠ "" → isNegativeHit (SmartCache.negative_hit (Some e)) = true
           ∧ js_toString (js_field "error" (SmartCache.negative_hit (Some e))) = e.
Proof. intros He. unfold isNegativeHit. simpl. by destruct e. Qed.

End ApiRequestAlways.

(** One call of [apiRequest] stays within the footprint of its request. *)
Lemma apiRequest_frame (endpoint method : string) (data : option string)
    (retries : Z) (w : World) :
  ∃ n, footprint (api_options endpoint method data) n w
         (apiRequest endpoint method data retries w).2.
Proof.
  rewrite apiRequest_eq. cbv zeta.
  pose proof (footprint_get (api_options endpoint method data)
                (api_cacheKey endpoint method data) w) as Hget.
  rewrite cache_get_eq in Hget. cbn [snd get_cache] in Hget.
  destruct (isNegativeHit _); [by exists 0%nat|].
  destruct (api_loop_always endpoint method data retries (Z.to_nat retries) 1
              (put_cache Financeiro
                 (SmartCache.get (clock w) (api_cacheKey endpoint method data)
                    (financeiro w)).2 w))
    as (n & _ & Hfoot & _).
  exists (0 + n)%nat. by eapply footprint_trans.
Qed.

(** Whatever the upstream service does and whatever the caches hold, one
    call of [apiRequest] sends at most [retries] requests, each of them the
    request of the call; it writes to no cache instance but [financeiro] and
    leaves the rate limiter and the metrics alone; a success takes at least
    one request; and the result [{ success: false, error: 'Max retries
    exceeded' }] is returned only when [retries] is below 1, without any
    request: with a ceiling of at least 1 the last attempt returns or throws. *)
Theorem apiRequest_always (endpoint method : string) (data : option string)
    (retries : Z) (w : World) :
  ∃ n, (n ≤ Z.to_nat retries)%nat
    ∧ footprint (api_options endpoint method data) n w
        (apiRequest endpoint method data retries w).2
    ∧ match (apiRequest endpoint method data retries w).1 with
      | Ok ApiMaxRetries => retries < 1 ∧ n = 0%nat
      | Ok (ApiSuccess _) => (1 ≤ n)%nat
      | Throw e => ∃ code, e = MCPError code (exn_message e) VNull
      end.
Proof.
  rewrite apiRequest_eq. cbv zeta.
  pose proof (footprint_get (api_options endpoint method data)
                (api_cacheKey endpoint method data) w) as Hget.
  rewrite cache_get_eq in Hget. simpl in Hget.
  destruct (isNegativeHit _).
  { exists 0%nat. simpl. split; [lia|]. split; [exact Hget|]. by eexists. }
  set (w0 := put_cache Financeiro _ w) in *.
  destruct (api_loop_always endpoint method data retries (Z.to_nat retries) 1 w0)
    as (n & Hn & Hfoot & Hres).
  exists n. split; [done|]. split.
  { replace n with (0 + n)%nat by lia. by eapply footprint_trans. }
  destruct (api_loop endpoint method data retries (Z.to_nat retries) 1 w0)
    as [[[result|]|e] w1]; simpl in *.
  - done.
  - destruct Hres as [Hend Hlast]. lia.
  - destruct Hres as (_ & code & _ & He & _). by exists code.
Qed.

(** A failed call is replayed from the negative cache: when a call that
    started without a negative hit throws (for any reason: client error,
    server error, timeout, transport error, unreadable body) with a
    non-empty message, the same call repeated within
    [CONFIG.CACHE_TTL.NEGATIVE] throws that message again, classified as
    [API_ERROR] even when the first failure was a timeout, and sends
    nothing. *)
Theorem failed_call_is_replayed (endpoint method : string) (data : option string)
    (retries : Z) (w w' : World) (e : exn) (ms : Z) :
  SmartCache.enabled (financeiro w) = true →
  SmartCache.negativeEnabled (financeiro w) = true →
  isNegativeHit
    (SmartCache.get (clock w) (api_cacheKey endpoint method data) (financeiro w)).1
  = false →
  apiRequest endpoint method data retries w = (Throw e, w') →
  exn_message e ≠ "" →
  0 ≤ ms ≤ CONFIG.CACHE_TTL.NEGATIVE →
  (∃ code, e = MCPError code (exn_message e) VNull
           ∧ (code = ErrorCodes.API_ERROR ∨ code = ErrorCodes.TIMEOUT_ERROR))
  ∧ (apiRequest endpoint method data retries (advance ms w')).1
    = Throw (MCPError ErrorCodes.API_ERROR (exn_message e) VNull)
  ∧ trace (apiRequest endpoint method data retries (advance ms w')).2 = trace w'
  ∧ sent (apiRequest endpoint method data retries (advance ms w')).2 = sent w'.
Proof.
  intros Hen Hne Hmiss Hcall Hmsg Hms.
  rewrite (apiRequest_enters_loop _ _ _ _ _ Hmiss) in Hcall.
  set (w0 := put_cache Financeiro _ w) in *.
  destruct (api_loop_always endpoint method data retries (Z.to_nat retries) 1 w0)
    as (n & _ & _ & Hres).
  rewrite Hcall in Hres. simpl in Hres.
  destruct Hres as (_ & code & c & He & Hcode & Hfin & Henc & Hnec).
  destruct (get_keeps_switches (clock w) (api_cacheKey endpoint method data)
              (financeiro w)) as [Hen0 Hne0].
  simpl in Henc, Hnec. rewrite Hen0, Hen in Henc. rewrite Hne0, Hne in Hnec.
  split; [by exists code|].
  assert ((SmartCache.get (clock (advance ms w')) (api_cacheKey endpoint method data)
             (financeiro (advance ms w'))).1
          = SmartCache.negative_hit (Some (exn_message e))) as Hhit.
  { simpl. rewrite Hfin. apply get_setNegative_live; [done..|]. simpl. lia. }
  destruct (negative_hit_is_hit (exn_message e) Hmsg) as [Hneg Herr].
  rewrite apiRequest_eq. cbv zeta. rewrite Hhit, Hneg, Herr. done.
Qed.

(** The upstream answers 404 to everything: the third attempt throws, and a
    second call half a second later fails from the cache. *)
Lemma failed_call_is_replayed_witness :
  let call := apiRequest "/clientes/0" "GET" None 3 in
  let e := MCPError ErrorCodes.API_ERROR "API Error 404: Not Found" VNull in
  let w' := (call (boot not_found [])).2 in
  (∃ code, e = MCPError code (exn_message e) VNull
           ∧ (code = ErrorCodes.API_ERROR ∨ code = ErrorCodes.TIMEOUT_ERROR))
  ∧ (call (advance 500 w')).1
    = Throw (MCPError ErrorCodes.API_ERROR (exn_message e) VNull)
  ∧ trace (call (advance 500 w')).2 = trace w'
  ∧ sent (call (advance 500 w')).2 = sent w'.
Proof.
  intros call e w'.
  apply (failed_call_is_replayed "/clientes/0" "GET" None 3 (boot not_found [])
           w' e 500).
  - reflexivity.
  - reflexivity.
  - reflexivity.
  - vm_compute. reflexivity.
  - discriminate.
  - unfold CONFIG.CACHE_TTL.NEGATIVE. lia.
Defined.

(** ** Tool executors under any upstream behaviour *)

Section ExecutorsAlways.

(** Solves a budget statement from the budget facts in the context. *)
Ltac budget :=
  unfold within_budget, tool_budget in *;
  change (Z.to_nat CONFIG.RETRY_ATTEMPTS) with 3%nat in *;
  cbn [clock upstream sent trace rateLimiter metrics put_cache advance record
       put_metrics put_rateLimiter] in *;
  repeat match goal with H : _ ∧ _ |- _ => destruct H end;
  repeat split; first [congruence | lia].

(** One upstream call with the default ceiling costs three requests at most. *)
Lemma apiRequest_within (endpoint method : string) (data : option string)
    (w : World) :
  within_budget (Z.to_nat CONFIG.RETRY_ATTEMPTS) w
    (apiRequest endpoint method data CONFIG.RETRY_ATTEMPTS w).2.
Proof.
  rewrite apiRequest_eq. cbv zeta.
  pose proof (footprint_get (api_options endpoint method data)
                (api_cacheKey endpoint method data) w) as Hget.
  rewrite cache_get_eq in Hget. cbn [snd get_cache] in Hget.
  destruct Hget as (U0 & _ & _ & _ & R0 & M0 & T0 & _ & _ & S0 & _).
  destruct (isNegativeHit _); [cbn [snd]; budget|].
  destruct (api_loop_always endpoint method data CONFIG.RETRY_ATTEMPTS
              (Z.to_nat CONFIG.RETRY_ATTEMPTS) 1
              (put_cache Financeiro
                 (SmartCache.get (clock w) (api_cacheKey endpoint method data)
                    (financeiro w)).2 w))
    as (n & Hn & (U & _ & _ & _ & R & M & T & _ & _ & S & _) & _).
  budget.
Qed.

(** Runs the straight-line rest of an executor body to its result. *)
Ltac settle_tail :=
  unfold read_length, cache_set, cache_setNegative, lift, mbind, M_bind, mret,
    M_ret, mthrow, M_throw;
  cbv beta iota;
  repeat (match goal with
          | |- context [match js_length ?d with _ => _ end] =>
              destruct (js_length d)
          | |- context [match filter_by_fields ?a ?b ?c ?d ?e with _ => _ end] =>
              destruct (filter_by_fields a b c d e)
          end; cbv beta iota);
  do 2 eexists; (split; [reflexivity|budget]).

Lemma listarPetsCliente_always (args : jsval) (w : World) :
  ∃ v w', listarPetsCliente args w = (Ok v, w')
    ∧ within_budget (Z.to_nat CONFIG.RETRY_ATTEMPTS) w w'.
Proof.
  unfold listarPetsCliente, try_catch. step_bind. rewrite cache_get_eq.
  set (w0 := put_cache Pets _ w).
  assert (within_budget 0 w w0) as H0 by (subst w0; budget).
  clearbody w0.
  destruct (truthy _).
  { destruct (cached_error _); settle_tail. }
  step_bind.
  pose proof (apiRequest_within
                ("/clientes/" ++ js_toString (js_field "cliente_id" args) ++ "/pets")
                "GET" None w0) as H1.
  destruct (apiRequest _ _ _ _ w0) as [[[data|]|e] w1]; simpl in H1; settle_tail.
Qed.

Lemma buscarClientes_always (args : jsval) (w : World) :
  ∃ v w', buscarClientes args w = (Ok v, w')
    ∧ within_budget (Z.to_nat CONFIG.RETRY_ATTEMPTS) w w'.
Proof.
  unfold buscarClientes, try_catch.
  destruct (negb (truthy (js_field "termo_busca" args))); [settle_tail|].
  destruct (js_field "termo_busca" args) as [| | | |termo| |]; try settle_tail.
  destruct (_ <? 3)%nat; [settle_tail|].
  step_bind. rewrite cache_get_eq.
  set (w0 := put_cache Clientes _ w).
  assert (within_budget 0 w w0) as H0 by (subst w0; budget).
  clearbody w0.
  destruct (truthy _).
  { destruct (cached_error _); settle_tail. }
  step_bind.
  pose proof (apiRequest_within
                ("/clientes?busca=" ++ encodeURIComponent (trim termo))
                "GET" None w0) as H1.
  destruct (apiRequest _ _ _ _ w0) as [[[data|]|e] w1]; simpl in H1; settle_tail.
Qed.

Lemma buscarServicos_always (args : jsval) (w : World) :
  ∃ v w', buscarServicos args w = (Ok v, w')
    ∧ within_budget (Z.to_nat CONFIG.RETRY_ATTEMPTS) w w'.
Proof.
  unfold buscarServicos, try_catch.
  destruct (negb (truthy (js_field "termo_busca" args))); [settle_tail|].
  destruct (js_field "termo_busca" args) as [| | | |termo| |]; try settle_tail.
  destruct (_ <? 2)%nat; [settle_tail|].
  step_bind. rewrite cache_get_eq.
  set (w0 := put_cache Servicos _ w).
  assert (within_budget 0 w w0) as H0 by (subst w0; budget).
  clearbody w0.
  destruct (truthy _).
  { destruct (cached_error _); settle_tail. }
  step_bind.
  pose proof (apiRequest_within
                ("/servicos?busca=" ++ encodeURIComponent (trim termo))
                "GET" None w0) as H1.
  destruct (apiRequest _ _ _ _ w0) as [[[data|]|e] w1]; simpl in H1; settle_tail.
Qed.

(** One settled call costs what the call costs and never throws. *)
Lemma settle_apiRequest (endpoint : string) (w : World) :
  ∃ s w', settle (apiRequest endpoint "GET" None CONFIG.RETRY_ATTEMPTS) w = (Ok s, w')
    ∧ within_budget (Z.to_nat CONFIG.RETRY_ATTEMPTS) w w'.
Proof.
  pose proof (apiRequest_within endpoint "GET" None w) as H1.
  unfold settle, try_catch, mbind, M_bind, mret, M_ret.
  destruct (apiRequest _ _ _ _ w) as [[r|e] w1]; simpl in H1;
    do 2 eexists; (split; [reflexivity|done]).
Qed.

Lemma buscaGlobal_always (args : jsval) (w : World) :
  ∃ v w', buscaGlobal args w = (Ok v, w')
    ∧ within_budget (4 * Z.to_nat CONFIG.RETRY_ATTEMPTS) w w'.
Proof.
  unfold buscaGlobal, try_catch.
  destruct (js_field "termo" args) as [| | | |t| |]; try settle_tail.
  cbn [allSettled]. unfold mbind, M_bind, mret, M_ret. cbv beta.
  destruct (settle_apiRequest ("/clientes?busca=" ++ encodeURIComponent t) w)
    as (s1 & w1 & -> & H1).
  cbv beta iota.
  destruct (settle_apiRequest "/pets?page=1" w1) as (s2 & w2 & -> & H2).
  cbv beta iota.
  destruct (settle_apiRequest ("/produtos?busca=" ++ encodeURIComponent t) w2)
    as (s3 & w3 & -> & H3).
  cbv beta iota.
  destruct (settle_apiRequest "/servicos" w3) as (s4 & w4 & -> & H4).
  cbv beta iota.
  change ([s1; s2; s3; s4] !! 0%nat) with (Some s1).
  change ([s1; s2; s3; s4] !! 1%nat) with (Some s2).
  change ([s1; s2; s3; s4] !! 2%nat) with (Some s3).
  change ([s1; s2; s3; s4] !! 3%nat) with (Some s4).
  destruct (fulfilled_data (Some s2)); destruct (fulfilled_data (Some s4));
    settle_tail.
Qed.

Lemma slice0_length (n : nat) (items : list jsval) :
  (List.length (slice0 n items) ≤ n)%nat.
Proof. unfold slice0. apply firstn_le_length. Qed.

(** The two shapes of what [buscaGlobal] returns: the failure object of its
    [catch] block, or four lists of ten entries at most with their counts. *)
Lemma buscaGlobal_shape (args : jsval) (w : World) :
  (∃ message,
     (buscaGlobal args w).1
     = Ok (VObj [("success", VBool false); ("resultados", VObj []);
                 ("error", VStr message)]))
  ∨ (∃ clientes pets produtos servicos,
       (buscaGlobal args w).1
       = Ok (VObj [("success", VBool true);
                   ("resultados",
                    VObj [("clientes", VArr clientes); ("pets", VArr pets);
                          ("produtos", VArr produtos); ("servicos", VArr servicos)]);
                   ("total",
                    VObj [("clientes", count clientes); ("pets", count pets);
                          ("produtos", count produtos); ("servicos", count servicos)]);
                   ("termo_busca", js_field "termo" args)])
       ∧ (List.length clientes ≤ 10)%nat ∧ (List.length pets ≤ 10)%nat
       ∧ (List.length produtos ≤ 10)%nat ∧ (List.length servicos ≤ 10)%nat).
Proof.
  unfold buscaGlobal, try_catch.
  destruct (js_field "termo" args) as [| | | |t| |];
    try (left; eexists; reflexivity).
  cbn [allSettled]. unfold mbind, M_bind, mret, M_ret. cbv beta.
  destruct (settle_apiRequest ("/clientes?busca=" ++ encodeURIComponent t) w)
    as (s1 & w1 & -> & _).
  cbv beta iota.
  destruct (settle_apiRequest "/pets?page=1" w1) as (s2 & w2 & -> & _).
  cbv beta iota.
  destruct (settle_apiRequest ("/produtos?busca=" ++ encodeURIComponent t) w2)
    as (s3 & w3 & -> & _).
  cbv beta iota.
  destruct (settle_apiRequest "/servicos" w3) as (s4 & w4 & -> & _).
  cbv beta iota.
  change ([s1; s2; s3; s4] !! 0%nat) with (Some s1).
  change ([s1; s2; s3; s4] !! 1%nat) with (Some s2).
  change ([s1; s2; s3; s4] !! 2%nat) with (Some s3).
  change ([s1; s2; s3; s4] !! 3%nat) with (Some s4).
  assert (∀ o : option jsval,
            (List.length match o with
                         | Some data => slice0 10 (array_or_empty data)
                         | None => []
                         end ≤ 10)%nat) as Hplain.
  { intros [data|]; [apply slice0_length|simpl; lia]. }
  unfold lift.
  destruct (fulfilled_data (Some s2)) as [d2|];
    destruct (fulfilled_data (Some s4)) as [d4|]; cbv beta iota;
    repeat (match goal with
            | |- context [match filter_by_fields ?a ?b ?c ?d ?e with _ => _ end] =>
                destruct (filter_by_fields a b c d e)
            end; cbv beta iota);
    first [ by (left; eexists)
          | right; do 4 eexists; (split; [reflexivity|]);
            repeat split;
            first [apply Hplain | apply slice0_length | simpl; lia] ].
Qed.


End ExecutorsAlways.



(** Whatever the upstream service answers, a global search that reports
    success lists ten clients, ten pets, ten products and ten services at
    most, and reports the length of each list as its count. *)
Theorem buscaGlobal_caps_results (args : jsval) (w : World) (group : string) :
  js_field "success" (returned (buscaGlobal args w).1) = VBool true →
  In group ["clientes"; "pets"; "produtos"; "servicos"] →
  ∃ items,
    js_field group (js_field "resultados" (returned (buscaGlobal args w).1))
    = VArr items
    ∧ js_field group (js_field "total" (returned (buscaGlobal args w).1))
      = VNum (Z.of_nat (List.length items))
    ∧ (List.length items ≤ 10)%nat.
Proof.
  intros Hok Hgroup.
  destruct (buscaGlobal_shape args w)
    as [[message Hv]|(c & p & pr & s & Hv & Hc & Hp & Hpr & Hs)];
    rewrite Hv in *; [discriminate Hok|].
  simpl in Hgroup.
  destruct Hgroup as [<-|[<-|[<-|[<-|[]]]]]; eexists; repeat split; done.
Qed.

(** A search for ["rex"] against an upstream that returns sixty entries for
    every request: ten clients are listed. *)
Lemma buscaGlobal_caps_results_witness :
  ∃ items,
    js_field "clientes"
      (js_field "resultados"
         (returned (buscaGlobal (VObj [("termo", VStr "rex")])
                      (boot crowded [])).1))
    = VArr items
    ∧ js_field "clientes"
        (js_field "total"
           (returned (buscaGlobal (VObj [("termo", VStr "rex")])
                        (boot crowded [])).1))
      = VNum (Z.of_nat (List.length items))
    ∧ (List.length items ≤ 10)%nat.
Proof.
  apply (buscaGlobal_caps_results (VObj [("termo", VStr "rex")])
           (boot crowded []) "clientes").
  - vm_compute. reflexivity.
  - simpl. tauto.
Defined.

(** ** Metrics *)

Lemma updateMetrics_metrics (toolName : string) (success : jsval) (duration : Z)
    (w : World) :
  let m := metrics w in
  let m' := metrics (updateMetrics toolName success duration w).2 in
  requests_total m' = requests_total m + 1
  ∧ requests_successful m'
    = requests_successful m + (if truthy success then 1 else 0)
  ∧ requests_failed m' = requests_failed m + (if truthy success then 0 else 1)
  ∧ (List.length (response_times m')
     = if (100 <? S (List.length (response_times m)))%nat
       then List.length (response_times m)
       else S (List.length (response_times m)))
  ∧ last (response_times m') = Some duration
  ∧ tools m' = alter (bump_tool (truthy success) duration) toolName (tools m).
Proof.
  unfold updateMetrics. cbn [negb CONFIG.FEATURES.METRICS_ENABLED snd metrics
                               put_metrics requests_total requests_successful
                               requests_failed response_times tools].
  change (negb CONFIG.FEATURES.METRICS_ENABLED) with false. cbv iota.
  cbn [snd metrics put_metrics requests_total requests_successful
       requests_failed response_times tools].
  repeat split.
  - destruct (truthy success); lia.
  - destruct (truthy success); lia.
  - rewrite length_app. cbn [List.length].
    replace (List.length (response_times (metrics w)) + 1)%nat
      with (S (List.length (response_times (metrics w)))) by lia.
    destruct (100 <? _)%nat eqn:Hfull; [|rewrite length_app; simpl; lia].
    apply Nat.ltb_lt in Hfull.
    destruct (response_times (metrics w)) as [|t times];
      cbn [List.length app tl] in *; [lia|].
    rewrite length_app. cbn [List.length]. lia.
  - destruct (100 <? _)%nat eqn:Hfull.
    + apply Nat.ltb_lt in Hfull. rewrite length_app in Hfull.
      cbn [List.length] in Hfull.
      destruct (response_times (metrics w)) as [|t times];
        cbn [List.length app tl] in *; [lia|].
      apply last_snoc.
    + apply last_snoc.
Qed.

Lemma updateMetrics_consistent (toolName : string) (success : jsval)
    (duration : Z) (w : World) :
  metrics_consistent (metrics w) →
  metrics_consistent (metrics (updateMetrics toolName success duration w).2).
Proof.
  intros (Htotal & Hwindow & Htools).
  destruct (updateMetrics_metrics toolName success duration w)
    as (Ht & Hs & Hf & Hlen & Hlast & Halter).
  cbv zeta in *. repeat split.
  - rewrite Ht, Hs, Hf. destruct (truthy success); lia.
  - rewrite Hlen. destruct (100 <? _)%nat eqn:Hfull; [lia|].
    apply Nat.ltb_ge in Hfull. lia.
  - intros name s. rewrite Halter.
    destruct (decide (name = toolName)) as [->|Hne].
    + rewrite lookup_alter_eq.
      destruct (tools (metrics w) !! toolName) as [s0|] eqn:Hs0; [|done].
      intros [= <-]. pose proof (Htools _ _ Hs0).
      unfold bump_tool. simpl. destruct (truthy success); lia.
    + rewrite lookup_alter_ne by done. apply Htools.
Qed.

(** [updateMetrics] counts one call, as successful or as failed, globally
    and for a known tool; it never adds a tool entry; it keeps the newest
    hundred durations, the last one being the duration of this call; and it
    keeps the counters consistent. *)
Theorem updateMetrics_accounts (toolName : string) (success : jsval)
    (duration : Z) (w : World) :
  metrics_consistent (metrics w) →
  metrics_consistent (metrics (updateMetrics toolName success duration w).2)
  ∧ requests_total (metrics (updateMetrics toolName success duration w).2)
    = requests_total (metrics w) + 1
  ∧ last (response_times (metrics (updateMetrics toolName success duration w).2))
    = Some duration
  ∧ (∀ name,
       is_Some (tools (metrics (updateMetrics toolName success duration w).2) !! name)
       ↔ is_Some (tools (metrics w) !! name))
  ∧ (∀ s, tools (metrics w) !! toolName = Some s →
       ∃ s', tools (metrics (updateMetrics toolName success duration w).2)
               !! toolName = Some s'
             ∧ calls s' = calls s + 1 ∧ totalTime s' = totalTime s + duration).
Proof.
  intros Hm. split; [by apply updateMetrics_consistent|].
  destruct (updateMetrics_metrics toolName success duration w)
    as (Ht & Hs & Hf & Hlen & Hlast & Halter).
  cbv zeta in *. repeat split.
  - done.
  - rewrite Halter. destruct (decide (name = toolName)) as [->|Hne].
    + rewrite lookup_alter_eq. by rewrite fmap_is_Some.
    + by rewrite lookup_alter_ne.
  - rewrite Halter. destruct (decide (name = toolName)) as [->|Hne].
    + rewrite lookup_alter_eq. by rewrite fmap_is_Some.
    + by rewrite lookup_alter_ne.
  - intros s Hs0. rewrite Halter, lookup_alter_eq, Hs0. simpl.
    eexists. split; [reflexivity|]. done.
Qed.

(** The metrics right after start-up are consistent, and stay so after a
    failed call of a registered tool. *)
Lemma updateMetrics_accounts_witness :
  metrics_consistent
    (metrics (updateMetrics "busca_global" (VBool false) 12
                (boot healthy ["busca_global"])).2).
Proof.
  apply (updateMetrics_accounts "busca_global" (VBool false) 12
           (boot healthy ["busca_global"])).
  unfold metrics_consistent. simpl. repeat split; [lia|].
  intros name s Hs.
  destruct (decide (name = "busca_global")) as [->|Hne].
  - rewrite lookup_insert_eq in Hs. by injection Hs as <-.
  - rewrite lookup_insert_ne in Hs by done. by rewrite lookup_empty in Hs.
Defined.

(** ** Dispatcher under any tool table *)

Section DispatcherAlways.

Variable toolDefinitions : jsval.
Variable toolTable : string → option (jsval → M jsval).

(** Whatever [formatMCPResponse] writes for an error carries the request
    identifier, a code other than 0 and a non-empty message. *)
Lemma formatMCPError_shape (requestId : jsval) (code : Z) (message : string)
    (data : jsval) :
  ∃ code' message' data',
    formatMCPError requestId code message data
    = ReplyError requestId code' message' data'
    ∧ code' ≠ 0 ∧ message' ≠ "".
Proof.
  unfold formatMCPError. do 3 eexists. split; [reflexivity|]. split.
  - destruct (code =? 0) eqn:Hc; [done|]. lia.
  - destruct (String.eqb_spec message ""); done.
Qed.

(** A [tools/call] that returns, returns a result for its request. *)
Lemma tools_call_reply (requestId params : jsval) (startTime : Z)
    (w w' : World) (r : reply) :
  tools_call toolTable requestId params startTime w = (Ok r, w') →
  ∃ result, r = ReplyResult requestId (ToolText result).
Proof.
  unfold tools_call.
  destruct params; try discriminate;
    (destruct (if truthy _ then _ else _) as [tool|]; [|discriminate]);
    unfold try_catch, now, updateMetrics, mbind, M_bind, mret, M_ret, mthrow,
      M_throw;
    change (negb CONFIG.FEATURES.METRICS_ENABLED) with false; cbv beta iota;
    (destruct (tool _ w) as [[[]|[]] w1]); cbv beta iota;
    intros [= <- <-]; by eexists.
Qed.

(** The dispatcher answers every request, whatever the tool table does: the
    handler never throws, the reply carries the [id] of the request's
    envelope ([undefined] when there is none), and an error reply always
    has a code other than 0 and a non-empty message. *)
Theorem post_root_always_replies (req : HttpRequest) (draw : bool) (w : World) :
  ∃ r w', post_root toolDefinitions toolTable req draw w = (Ok r, w')
    ∧ reply_id r = envelope_id req
    ∧ match r with
      | ReplyError _ code message _ => code ≠ 0 ∧ message ≠ ""
      | ReplyResult _ _ => True
      end.
Proof.
  unfold post_root, now. step_bind. unfold try_catch.
  match goal with
  | |- context [match ?b with (_, _) => _ end] =>
      destruct b as [[r|e] w1] eqn:Hbody
  end.
  - exists r, w1. split; [done|].
    revert Hbody.
    unfold mbind, M_bind, mret, M_ret, mthrow, M_throw, rate_check,
      rate_remaining.
    destruct (RateLimiter.checkLimit _ _ _ _) as [[] rl]; cbv beta iota;
      cbn [negb]; [|discriminate].
    destruct (negb (truthy (body req)) || _); [discriminate|].
    destruct (negb (is_str "2.0" _)); [discriminate|].
    unfold envelope_id.
    destruct (is_str "initialize" _); [by intros [= <- <-]|].
    destruct (is_str "notifications/initialized" _); [by intros [= <- <-]|].
    destruct (is_str "tools/list" _); [by intros [= <- <-]|].
    destruct (is_str "tools/call" _); [|discriminate].
    intros [result ->]%tools_call_reply. done.
  - unfold mret, M_ret.
    destruct e as [name message|code message data].
    + destruct (formatMCPError_shape
                  (js_field "id" (if truthy (body req) then body req else VObj []))
                  ErrorCodes.INTERNAL_ERROR "Internal server error"
                  (VObj [("originalError", VStr message)]))
        as (c' & m' & d' & -> & Hc & Hm).
      by do 2 eexists.
    + destruct (formatMCPError_shape
                  (js_field "id" (if truthy (body req) then body req else VObj []))
                  code message data)
        as (c' & m' & d' & -> & Hc & Hm).
      by do 2 eexists.
Qed.

Lemma updateMetrics_ok (toolName : string) (success : jsval) (duration : Z)
    (w : World) :
  updateMetrics toolName success duration w
  = (Ok (), (updateMetrics toolName success duration w).2).
Proof. unfold updateMetrics. by destruct (negb _). Qed.

(** The tools of the table leave the metrics to the dispatcher. *)
Hypothesis tools_leave_metrics : ∀ name tool args w,
  toolTable name = Some tool → metrics (tool args w).2 = metrics w.

(** The [try]/[catch] around an executor counts the call once, whether the
    executor returns or throws. *)
Lemma tool_block_counts (tool : jsval → M jsval) (requestId toolName arguments : jsval)
    (startTime : Z) (w : World) :
  metrics (tool (if truthy arguments then arguments else VObj []) w).2 = metrics w →
  metrics_consistent (metrics w) →
  let block :=
    try_catch
      (toolStartTime ← now;
       let toolArgs := if truthy arguments then arguments else VObj [] in
       result ← tool toolArgs;
       finish ← now;
       let duration := finish - toolStartTime in
       match result with
       | VUndefined | VNull =>
           mthrow (TypeError ("Cannot read properties of "
                              ++ js_toString result ++ " (reading 'success')"))
       | _ =>
           updateMetrics (js_toString toolName) (js_field "success" result)
             duration;;
           mret (ReplyResult requestId (ToolText result))
       end)
      (λ toolError,
         finish ← now;
         updateMetrics (js_toString toolName) (VBool false) (finish - startTime);;
         match toolError with
         | MCPError _ _ _ => mthrow toolError
         | JsError _ message =>
             mthrow (MCPError ErrorCodes.INTERNAL_ERROR
                       ("Tool execution failed: " ++ message)
                       (VObj [("tool", toolName)]))
         end) in
  metrics_consistent (metrics (block w).2)
  ∧ requests_total (metrics (block w).2) = requests_total (metrics w) + 1.
Proof.
  intros Hquiet Hm.
  assert (∀ a b c w1, metrics w1 = metrics w →
            ∃ w2, updateMetrics a b c w1 = (Ok (), w2)
                  ∧ metrics_consistent (metrics w2)
                  ∧ requests_total (metrics w2) = requests_total (metrics w) + 1)
    as Hcount.
  { intros a b c w1 Hw1. exists (updateMetrics a b c w1).2.
    split; [apply updateMetrics_ok|]. split.
    - apply updateMetrics_consistent. by rewrite Hw1.
    - destruct (updateMetrics_metrics a b c w1) as (Ht & _). cbv zeta in Ht.
      by rewrite Ht, Hw1. }
  cbv zeta.
  unfold try_catch, now, mbind, M_bind, mret, M_ret, mthrow, M_throw.
  cbv beta iota.
  destruct (tool _ w) as [[res|e] w1]; cbn [snd] in Hquiet.
  - destruct res; cbv beta iota;
      match goal with
      | |- context [updateMetrics ?a ?b ?c w1] =>
          destruct (Hcount a b c w1 Hquiet) as (w2 & -> & H1 & H2)
      end; done.
  - match goal with
    | |- context [updateMetrics ?a ?b ?c w1] =>
        destruct (Hcount a b c w1 Hquiet) as (w2 & -> & H1 & H2)
    end.
    by destruct e.
Qed.

(** A [tools/call] that reaches an executor is counted exactly once; one
    that does not is not counted. *)
Lemma tools_call_counts (requestId params : jsval) (startTime : Z) (w : World) :
  metrics_consistent (metrics w) →
  metrics_consistent
    (metrics (tools_call toolTable requestId params startTime w).2)
  ∧ requests_total (metrics (tools_call toolTable requestId params startTime w).2)
    = requests_total (metrics w)
      + (if match params with
            | VNull => false
            | _ =>
                truthy (js_field "name" params)
                && bool_decide
                     (is_Some (toolTable (js_toString (js_field "name" params))))
            end
         then 1 else 0).
Proof.
  intros Hm.
  assert (∀ o : option (jsval → M jsval),
            bool_decide (is_Some o) = match o with Some _ => true | None => false end)
    as Hsome.
  { intros [f|]; [by apply bool_decide_eq_true_2|].
    apply bool_decide_eq_false_2. by intros [? ?]. }
  rewrite Hsome.
  assert (∀ w0 : World, metrics w0 = metrics w →
            metrics_consistent (metrics w0)
            ∧ requests_total (metrics w0) = requests_total (metrics w) + 0)
    as Hsame.
  { intros w0 ->. split; [done|lia]. }
  unfold tools_call.
  destruct params.
  2: { by apply Hsame. }
  all: destruct (truthy (js_field "name" _)); cbn [andb]; [|by apply Hsame].
  all: destruct (toolTable _) as [tool|] eqn:Htool; [|by apply Hsame].
  all: apply tool_block_counts; [|done].
  all: by apply (tools_leave_metrics _ _ _ _ Htool).
Qed.




(** The metrics count exactly the requests that reach an executor: for a
    tool table whose executors leave the metrics to the dispatcher, one
    request adds one to the total when the limiter admits it, its envelope
    is well formed, its method is [tools/call] and the named tool exists
    (whether the executor then returns or throws), and nothing otherwise;
    the counters stay consistent either way. *)
Theorem metrics_count_executed_calls (req : HttpRequest) (draw : bool) (w : World) :
  metrics_consistent (metrics w) →
  metrics_consistent (metrics (post_root toolDefinitions toolTable req draw w).2)
  ∧ requests_total (metrics (post_root toolDefinitions toolTable req draw w).2)
    = requests_total (metrics w)
      + (if executes toolTable req draw w then 1 else 0).
Proof.
  intros Hm. unfold executes.
  destruct (admission req draw w).1 eqn:Hadmit; cbn [andb].
  2: { destruct (post_root_rejected toolDefinitions toolTable req draw w Hadmit)
         as [message ->].
       split; [done|simpl; lia]. }
  destruct (malformed req) eqn:Hbad; cbn [andb negb].
  { destruct (post_root_malformed_admitted toolDefinitions toolTable req draw w
                Hbad Hadmit) as [message ->].
    split; [done|simpl; lia]. }
  unfold malformed in Hbad.
  apply orb_false_elim in Hbad as [Hwell Hrpc].
  apply orb_false_elim in Hwell as [Hbody Hkeys].
  apply negb_false_iff in Hbody, Hrpc.
  unfold envelope_params. rewrite Hbody.
  unfold post_root, now, try_catch, mbind, M_bind, mret, M_ret, mthrow, M_throw.
  cbv beta iota.
  rewrite rate_check_admission, Hadmit, Hbody, Hkeys. cbn [negb orb].
  cbv beta iota. rewrite Hrpc. cbn [negb]. cbv beta iota.
  set (w0 := put_rateLimiter (admission req draw w).2 w).
  assert (metrics_consistent (metrics w0)
          ∧ requests_total (metrics w0) = requests_total (metrics w) + 0)
    as Hsame by (split; [done|simpl; lia]).
  destruct (js_field "method" (body req)) as [| | | |m| |];
    try (cbn [is_str]; cbv beta iota; exact Hsame).
  cbn [is_str].
  destruct (String.eqb_spec m "initialize") as [->|_]; [exact Hsame|].
  destruct (String.eqb_spec m "notifications/initialized") as [->|_];
    [exact Hsame|].
  destruct (String.eqb_spec m "tools/list") as [->|_]; [exact Hsame|].
  destruct (String.eqb_spec m "tools/call") as [->|_]; [|exact Hsame].
  cbn [andb].
  set (params := match js_field "params" (body req) with
                 | VUndefined => VObj []
                 | p => p
                 end).
  pose proof (tools_call_counts (js_field "id" (body req)) params (clock w) w0
                (proj1 Hsame)) as Hcall.
  clearbody params.
  destruct params;
    (destruct (tools_call toolTable _ _ _ w0) as [[r|e] w1];
     [exact Hcall|destruct e; exact Hcall]).
Qed.

End DispatcherAlways.


(** The metrics right after start-up are consistent. *)
Lemma boot_consistent (up : nat → request → outcome) (names : list string) :
  metrics_consistent (metrics (boot up names)).
Proof.
  unfold metrics_consistent. simpl. repeat split; [lia|].
  intros name s Hs. apply elem_of_list_to_map_2 in Hs.
  apply list_elem_of_In, in_map_iff in Hs as (n & [= _ <-] & _). done.
Qed.

Lemma handleValidationErrors_ok (fn : jsval → M jsval) (args v : jsval)
    (w w' : World) :
  fn args w = (Ok v, w') → handleValidationErrors fn args w = (Ok v, w').
Proof. unfold handleValidationErrors, try_catch. by intros ->. Qed.

Lemma toolFunctions_leave_metrics (name : string) (tool : jsval → M jsval)
    (args : jsval) (w : World) :
  toolFunctions name = Some tool → metrics (tool args w).2 = metrics w.
Proof.
  assert (∀ (fn : jsval → M jsval) n,
            (∃ v w', fn args w = (Ok v, w') ∧ within_budget n w w') →
            metrics (handleValidationErrors fn args w).2 = metrics w) as Hquiet.
  { intros fn n (v & w' & Heq & H).
    rewrite (handleValidationErrors_ok _ _ _ _ _ Heq).
    by destruct H as (_ & _ & H & _). }
  unfold toolFunctions.
  repeat (destruct (String.eqb name _);
          [intros [= <-]; eapply Hquiet;
           first [apply buscarClientes_always | apply listarPetsCliente_always
                 | apply buscarServicos_always | apply buscaGlobal_always]|]).
  done.
Qed.


(** One global search against the table of executors, right after
    start-up. *)
Lemma metrics_count_executed_calls_witness :
  metrics_consistent
    (metrics (post_root VNull toolFunctions search_request false
                (boot healthy ["busca_global"])).2)
  ∧ requests_total
      (metrics (post_root VNull toolFunctions search_request false
                  (boot healthy ["busca_global"])).2)
    = requests_total (metrics (boot healthy ["busca_global"]))
      + (if executes toolFunctions search_request false
              (boot healthy ["busca_global"])
         then 1 else 0).
Proof.
  apply (metrics_count_executed_calls VNull toolFunctions
           toolFunctions_leave_metrics search_request false
           (boot healthy ["busca_global"])).
  apply boot_consistent.
Defined.

(** ** Client lookup by phone number *)

Section PhoneLookup.




End PhoneLookup.



(** ** Pet lookup *)

Section PetLookup.

(** On a cache miss the lookup either caches and returns the upstream
    payload, or returns a failure; the upstream call leaves the [pets]
    instance alone. *)
Lemma buscarPetPorId_miss (args : jsval) (w : World) :
  truthy (SmartCache.get (clock w) (pet_cacheKey args) (pets w)).1 = false →
  (∃ data w1,
     buscarPetPorId args w
     = (Ok (pet_response data),
        put_cache Pets
          (SmartCache.set (clock w1) (pet_cacheKey args) (pet_response data)
             (Some CONFIG.CACHE_TTL.MEDIUM) (pets w1)) w1)
     ∧ pets w1 = (SmartCache.get (clock w) (pet_cacheKey args) (pets w)).2)
  ∨ (∃ error w', buscarPetPorId args w = (Ok (pet_failure error), w')).
Proof.
  intros Hmiss. remember (buscarPetPorId args w) as r eqn:Hr. revert Hr.
  unfold buscarPetPorId, try_catch. step_bind. rewrite cache_get_eq.
  cbn [get_cache]. rewrite Hmiss. step_bind.
  set (w0 := put_cache Pets _ w).
  destruct (apiRequest_frame (pet_endpoint args) "GET" None CONFIG.RETRY_ATTEMPTS w0)
    as (n & Hfoot).
  destruct (apiRequest _ _ _ _ w0) as [[[data|]|e] w1]; cbn [snd] in Hfoot;
    intros ->.
  - left. exists data, w1. split; [reflexivity|].
    by destruct Hfoot as (_ & _ & -> & _).
  - right. do 2 eexists. reflexivity.
  - right. do 2 eexists. reflexivity.
Qed.

(** A cached payload is returned as it is, without any upstream request. *)
Lemma buscarPetPorId_from_cache (args : jsval) (w : World) :
  truthy (SmartCache.get (clock w) (pet_cacheKey args) (pets w)).1 = true →
  cached_error (SmartCache.get (clock w) (pet_cacheKey args) (pets w)).1 = false →
  buscarPetPorId args w
  = (Ok (SmartCache.get (clock w) (pet_cacheKey args) (pets w)).1,
     put_cache Pets (SmartCache.get (clock w) (pet_cacheKey args) (pets w)).2 w).
Proof.
  intros Htruthy Hpayload.
  unfold buscarPetPorId, try_catch. step_bind. rewrite cache_get_eq.
  cbn [get_cache]. by rewrite Htruthy, Hpayload.
Qed.

End PetLookup.

(** A pet that was looked up successfully is served from the cache: when
    [buscar_pet_por_id] misses the cache and reports success, whatever the
    upstream does afterwards, the same lookup repeated within
    [CONFIG.CACHE_TTL.MEDIUM] returns the same response without any upstream
    request. *)
Theorem pet_lookup_is_served_from_cache (args : jsval) (w : World) (gap : Z) :
  SmartCache.enabled (pets w) = true →
  truthy (SmartCache.get (clock w) (pet_cacheKey args) (pets w)).1 = false →
  js_field "success" (returned (buscarPetPorId args w).1) = VBool true →
  0 ≤ gap ≤ CONFIG.CACHE_TTL.MEDIUM →
  (buscarPetPorId args (advance gap (buscarPetPorId args w).2)).1
  = (buscarPetPorId args w).1
  ∧ trace (buscarPetPorId args (advance gap (buscarPetPorId args w).2)).2
    = trace (buscarPetPorId args w).2
  ∧ sent (buscarPetPorId args (advance gap (buscarPetPorId args w).2)).2
    = sent (buscarPetPorId args w).2.
Proof.
  intros Hen Hmiss Hok Hgap.
  destruct (buscarPetPorId_miss args w Hmiss)
    as [(data & w1 & Hcall & Hpets)|(error & w' & Hcall)];
    rewrite Hcall in *; [|discriminate Hok].
  cbn [fst snd].
  set (wf := put_cache Pets _ w1).
  assert (SmartCache.enabled (pets w1) = true) as Hen1.
  { rewrite Hpets.
    destruct (get_keeps_switches (clock w) (pet_cacheKey args) (pets w)) as [-> _].
    done. }
  assert ((SmartCache.get (clock (advance gap wf)) (pet_cacheKey args)
             (pets (advance gap wf))).1 = pet_response data) as Hhit.
  { cbn [clock pets advance wf put_cache].
    apply get_set_live; [done|]. unfold SmartCache.ttl_or_default.
    unfold CONFIG.CACHE_TTL.MEDIUM in *. simpl. lia. }
  rewrite buscarPetPorId_from_cache; rewrite Hhit; done.
Qed.

(** Pet 12 is looked up against an upstream that answers, and again five
    seconds later. *)
Lemma pet_lookup_is_served_from_cache_witness :
  (buscarPetPorId (VObj [("pet_id", VNum 12)])
     (advance 5000
        (buscarPetPorId (VObj [("pet_id", VNum 12)]) (boot healthy [])).2)).1
  = (buscarPetPorId (VObj [("pet_id", VNum 12)]) (boot healthy [])).1
  ∧ trace (buscarPetPorId (VObj [("pet_id", VNum 12)])
             (advance 5000
                (buscarPetPorId (VObj [("pet_id", VNum 12)]) (boot healthy [])).2)).2
    = trace (buscarPetPorId (VObj [("pet_id", VNum 12)]) (boot healthy [])).2
  ∧ sent (buscarPetPorId (VObj [("pet_id", VNum 12)])
            (advance 5000
               (buscarPetPorId (VObj [("pet_id", VNum 12)]) (boot healthy [])).2)).2
    = sent (buscarPetPorId (VObj [("pet_id", VNum 12)]) (boot healthy [])).2.
Proof.
  apply (pet_lookup_is_served_from_cache (VObj [("pet_id", VNum 12)])
           (boot healthy []) 5000).
  - reflexivity.
  - reflexivity.
  - vm_compute. reflexivity.
  - unfold CONFIG.CACHE_TTL.MEDIUM. lia.
Defined.

(** ** Invalidation of the client cache *)

(** What the invalidations of [criarCliente] and [atualizarCliente] reach:
    every phone-lookup entry is dropped, so the next lookup of any number
    misses; a cached search result is left in place unless the search term
    itself contains the pattern, so after a client was created or updated
    [buscar_clientes] still answers a cached search from the cache, without
    an upstream request. *)
Theorem invalidation_spares_cached_searches (pattern : string) (args : jsval)
    (termo : string) (w : World) :
  In pattern ["cliente_tel_"; "cliente_"] →
  js_field "termo_busca" args = VStr termo →
  short_term 3 (VStr termo) = false →
  includes (toLowerCase (trim termo)) pattern = false →
  let w' := (invalidate_clientes pattern w).2 in
  let cached :=
    (SmartCache.get (clock w) (clientes_cacheKey termo) (clientes w)).1 in
  (∀ now telefoneLimpo,
     (SmartCache.get now (telefone_cacheKey telefoneLimpo) (clientes w')).1 = VNull)
  ∧ (∀ now,
       (SmartCache.get now (clientes_cacheKey termo) (clientes w')).1
       = (SmartCache.get now (clientes_cacheKey termo) (clientes w)).1)
  ∧ (truthy cached = true → cached_error cached = false →
     (buscarClientes args w').1 = Ok cached
     ∧ trace (buscarClientes args w').2 = trace w
     ∧ sent (buscarClientes args w').2 = sent w).
Proof.
  intros Hpattern Hterm Hlong Hfree. cbv zeta.
  unfold invalidate_clientes. cbn [snd clientes put_cache clock].
  assert (includes (clientes_cacheKey termo) pattern = false) as Hkept.
  { unfold clientes_cacheKey.
    destruct Hpattern as [<-|[<-|[]]]; simpl; exact Hfree. }
  assert (∀ now,
            (SmartCache.get now (clientes_cacheKey termo)
               (SmartCache.deletePattern (λ key, includes key pattern) (clientes w))).1
            = (SmartCache.get now (clientes_cacheKey termo) (clientes w)).1) as Hsame.
  { intros now. apply get_same_entry; [done|]. simpl.
    destruct (SmartCache.cache (clientes w) !! clientes_cacheKey termo) as [it|] eqn:Hit.
    - apply map_lookup_filter_Some. by split.
    - apply map_lookup_filter_None. by left. }
  split; [|split; [exact Hsame|]].
  - intros now telefoneLimpo. apply get_absent. simpl.
    apply map_lookup_filter_None. right. intros it _.
    change (includes (telefone_cacheKey telefoneLimpo) pattern ≠ false).
    assert (includes (telefone_cacheKey telefoneLimpo) pattern = true) as ->; [|done].
    unfold telefone_cacheKey.
    destruct Hpattern as [<-|[<-|[]]]; by destruct telefoneLimpo.
  - intros Htruthy Hpayload.
    unfold short_term in Hlong. apply orb_false_elim in Hlong as [Hnonempty Hlen].
    apply negb_false_iff in Hnonempty.
    unfold buscarClientes, try_catch. rewrite Hterm, Hnonempty, Hlen. cbn [negb].
    fold (clientes_cacheKey termo).
    rewrite (bind_ok _ _ _ _ _ (cache_get_eq Clientes (clientes_cacheKey termo) _)).
    cbn [get_cache clientes put_cache clock].
    rewrite Hsame, Htruthy, Hpayload. done.
Qed.

(** After an update, a search for ["ana"] that was cached is still answered
    from the cache. *)
Lemma invalidation_spares_cached_searches_witness :
  (buscarClientes (VObj [("termo_busca", VStr "ana")])
     (invalidate_clientes "cliente_"
        (buscarClientes (VObj [("termo_busca", VStr "ana")])
           (boot phonebook [])).2).2).1
  = Ok (SmartCache.get
          (clock (buscarClientes (VObj [("termo_busca", VStr "ana")])
                    (boot phonebook [])).2)
          (clientes_cacheKey "ana")
          (clientes (buscarClientes (VObj [("termo_busca", VStr "ana")])
                       (boot phonebook [])).2)).1.
Proof.
  apply (invalidation_spares_cached_searches "cliente_"
           (VObj [("termo_busca", VStr "ana")]) "ana"
           (buscarClientes (VObj [("termo_busca", VStr "ana")])
              (boot phonebook [])).2).
  - simpl. tauto.
  - reflexivity.
  - reflexivity.
  - reflexivity.
  - vm_compute. reflexivity.
  - vm_compute. reflexivity.
Defined.
